(** * PokemonBattle: the battle engine of [a2.py], embedded in Rocq

    The development follows the classes of [a2.py] in their order:
    [PokemonStats], [Pokemon], [Trainer], [Battle], [ActionSummary] and the
    [Action] hierarchy, followed by the strategies ([ScaredyCat],
    [TeamRocket], and [DefaultAIStrategy] of [game.py]), [create_encounter]
    and the [ElementType] registry of [a2_support.py].

    Python objects that are mutated in place and can be reached through
    several references (the [Pokemon] instances) live in a store indexed by
    references; immutable objects that are compared by identity (the [Move]
    and [Item] instances used as dictionary keys) carry their identity as a
    field.

    The two trainers of a [Battle] are two objects, held in the battle; a
    pokemon may be in both rosters (a caught pokemon is).

    Numbers: Python [int] is [Z].  A Python [float] whose value reaches an
    integer result through [int(...)] (the growth of the stats, the
    experience a fainted pokemon awards, the damage of an attack) is an IEEE
    754 binary64 number, computed with the operations of [SpecFloat]: every
    [*] and [/] rounds to the nearest double, an [int] too large for a double
    raises [OverflowError], and so does [int(...)] of an infinity.  The
    chances that are only compared with a random sample (hit chance, catch
    chance) are the rationals they denote.  The power [e ** (1.0 / 3)] in
    [Pokemon.gain_experience] is a call into the C library: its truncated
    result is a parameter of the engine, as is the type registry that
    [data.py] fills.

    Randomness: an action calls [did_succeed] at most once; the sample that
    [random()] returns for that call is an argument of [apply] and of
    [enact_turn].

    Exceptions: a call returns [Ok] with its result or [Raise] with the
    exception that aborted it.  What an aborted call had already written to
    its objects is not part of the outcome: the statements below are about
    calls that return, or say which exception a call raises. *)

From Stdlib Require Import ZArith QArith Lia.
From Stdlib Require Import Floats.SpecFloat.
From stdpp Require Import base decidable tactics option list functions strings pretty.

Local Open Scope Z_scope.

(** ** Python values and exceptions *)

Inductive Exception : Type :=
| NoPokemonException
| IndexError
| TypeError
| ValueError
| OverflowError
| ZeroDivisionError.

(** The outcome of a call: a value, or a raised exception that aborts it. *)
Inductive Res (A : Type) : Type :=
| Ok (a : A)
| Raise (e : Exception).
Arguments Ok {A} a.
Arguments Raise {A} e.

#[global] Instance Res_ret : MRet Res := fun A a => Ok a.
#[global] Instance Res_bind : MBind Res := fun A B f m =>
  match m with
  | Ok a => f a
  | Raise e => Raise e
  end.

#[global] Instance Exception_eq_dec : EqDecision Exception.
Proof. solve_decision. Defined.

#[global] Instance Q_eq_dec : EqDecision Q.
Proof. solve_decision. Defined.

Module Py.

(** [l[i]]: a negative index counts from the end of the list; anything
    outside [-len(l) <= i < len(l)] raises [IndexError]. *)
Definition getitem {A : Type} (l : list A) (i : Z) : Res A :=
  let n := Z.of_nat (length l) in
  let j := if i <? 0 then i + n else i in
  if (j <? 0) || (n <=? j) then Raise IndexError
  else match l !! Z.to_nat j with
       | Some x => Ok x
       | None => Raise IndexError
       end.

(** [max(0, x)] on a float. *)
Definition max0 (x : Q) : Q := if Qle_bool x 0 then 0%Q else x.

(** [x < y] on floats. *)
Definition lt (x y : Q) : bool := negb (Qle_bool y x).

(** [str(n)] for an [int]. *)
Definition str (n : Z) : string := pretty n.

(** A [dict]: keys in insertion order, each key once. *)
Section dict.
Context {K V : Type} `{EqDecision K}.

(** [d.get(k)] *)
Fixpoint get (d : list (K * V)) (k : K) : option V :=
  match d with
  | [] => None
  | (k', v) :: d' => if decide (k' = k) then Some v else get d' k
  end.

(** [k in d] *)
Definition contains (d : list (K * V)) (k : K) : bool :=
  match get d k with
  | Some _ => true
  | None => false
  end.

(** [d[k] = v]: an existing key keeps its place, a new one goes last. *)
Fixpoint set (d : list (K * V)) (k : K) (v : V) : list (K * V) :=
  match d with
  | [] => [(k, v)]
  | (k', v') :: d' =>
      if decide (k' = k) then (k', v) :: d' else (k', v') :: set d' k v
  end.

(** [d.pop(k)] for a key that may be absent: no entry of [k] is left. *)
Fixpoint pop (d : list (K * V)) (k : K) : list (K * V) :=
  match d with
  | [] => []
  | (k', v') :: d' =>
      if decide (k' = k) then pop d' k else (k', v') :: pop d' k
  end.

Definition keys (d : list (K * V)) : list K := d.*1.
End dict.

(** [l.sort(key=...)]: a stable sort, ascending in the key. *)
Section sort.
Context {A : Type} (key : A -> Z).

Fixpoint insert_by (x : A) (l : list A) : list A :=
  match l with
  | [] => [x]
  | y :: l' => if key x <=? key y then x :: y :: l' else y :: insert_by x l'
  end.

Fixpoint sort_by (l : list A) : list A :=
  match l with
  | [] => []
  | x :: l' => insert_by x (sort_by l')
  end.
End sort.

(** *** [float] and the numbers

    A [float] is an IEEE 754 binary64 number: [SpecFloat] at precision 53
    with maximal exponent 1024.  Each operation returns the exact result
    rounded to the nearest double, ties to even. *)
Definition float : Type := spec_float.
Definition prec : Z := 53.
Definition emax : Z := 1024.

(** An integer as a mantissa with exponent 0, before any rounding. *)
Definition exact (n : Z) : float :=
  match n with
  | Z0 => S754_zero false
  | Zpos m => S754_finite false m 0
  | Zneg m => S754_finite true m 0
  end.

(** The double that the decimal literal [n / d] denotes. *)
Definition float_literal (n : Z) (d : positive) : float :=
  SFdiv prec emax (exact n) (exact (Zpos d)).

(** The least integer that is too large for a double: it lies half a unit
    in the last place above the largest double, [2 ** 1024 - 2 ** 971]. *)
Definition FLOAT_OVERFLOW : Z := 2 ^ 1024 - 2 ^ 970.

(** [float(n)], which also happens when an [int] meets a [float] in [*],
    [/] or [**]. *)
Definition float_of_int (n : Z) : Res float :=
  if FLOAT_OVERFLOW <=? Z.abs n then Raise OverflowError
  else Ok (binary_normalize prec emax n 0 false).

(** A number that is an [int] or already a [float], given by its value, as
    the left operand of a [float] operation. *)
Definition float_of_number (x : Q) : Res float :=
  if FLOAT_OVERFLOW * Zpos (Qden x) <=? Z.abs (Qnum x) then Raise OverflowError
  else Ok (SFdiv prec emax (exact (Qnum x)) (exact (Zpos (Qden x)))).

(** [x * y] on floats: an overflow gives an infinity, not an exception. *)
Definition fmul (x y : float) : float := SFmul prec emax x y.

(** [x / y] on floats *)
Definition fdiv (x y : float) : Res float :=
  match y with
  | S754_zero _ => Raise ZeroDivisionError
  | _ => Ok (SFdiv prec emax x y)
  end.

(** [m / n] on two [int]s: the exact quotient, rounded once. *)
Definition int_truediv (m n : Z) : Res float :=
  if n =? 0 then Raise ZeroDivisionError
  else match SFdiv prec emax (exact m) (exact n) with
       | S754_infinity _ => Raise OverflowError
       | x => Ok x
       end.

(** [int(x)] on a float: truncation towards zero. *)
Definition int_of_float (x : float) : Res Z :=
  match x with
  | S754_zero _ => Ok 0
  | S754_infinity _ => Raise OverflowError
  | S754_nan => Raise ValueError
  | S754_finite s m e => Ok (cond_Zopp s (Z.shiftl (Zpos m) e))
  end.

(** A value that is an [int] or a [float], as the multiplier of a type. *)
Inductive num : Type :=
| Int (n : Z)
| Float (x : float).

Definition mul (a b : num) : Res num :=
  match a, b with
  | Int m, Int n => Ok (Int (m * n))
  | Int m, Float y => x ← float_of_int m; Ok (Float (fmul x y))
  | Float x, Int n => y ← float_of_int n; Ok (Float (fmul x y))
  | Float x, Float y => Ok (Float (fmul x y))
  end.

Definition truediv (a b : num) : Res num :=
  match a, b with
  | Int m, Int n => x ← int_truediv m n; Ok (Float x)
  | Int m, Float y => x ← float_of_int m; z ← fdiv x y; Ok (Float z)
  | Float x, Int n =>
      (* [float(n)] is zero for no other [n] than 0 *)
      y ← float_of_int n;
      if n =? 0 then Raise ZeroDivisionError
      else Ok (Float (SFdiv prec emax x y))
  | Float x, Float y => z ← fdiv x y; Ok (Float z)
  end.

(** [int(a)] *)
Definition int (a : num) : Res Z :=
  match a with
  | Int n => Ok n
  | Float x => int_of_float x
  end.

(** [1.0] *)
Definition one : float := Eval vm_compute in binary_normalize prec emax 1 0 false.

(** [a > 1] *)
Definition gt_1 (a : num) : bool :=
  match a with
  | Int n => 1 <? n
  | Float x => SFltb one x
  end.

End Py.

(** ** Support code: [a2_support.py] *)

Definition LEVEL_UP_STAT_GROWTH : Py.float :=
  Eval vm_compute in Py.float_literal 105 100.
Definition DEFAULT_ACTION_PRIORITY : Z := 0.
Definition SPEED_BASED_ACTION_PRIORITY : Z := 1.
Definition POKEBALL_INVALID_BATTLE_TYPE : string :=
  "Pokeballs have no effect in trainer battles.".
Definition POKEBALL_UNSUCCESSFUL_CATCH (name : string) : string :=
  "It was so close, but " +:+ name +:+ " escaped!".
Definition POKEBALL_SUCCESSFUL_CATCH (name : string) : string :=
  name +:+ " was caught!".
Definition POKEBALL_FULL_TEAM (name : string) : string :=
  name +:+ " was caught, but there was no more room.".
Definition FLEE_SUCCESS : string := "Got away safely!".
Definition FLEE_INVALID : string := "Unable to escape a trainer battle.".
Definition MAXIMUM_MOVE_SLOTS : Z := 4.
Definition MAXIMUM_POKEMON_ROSTER : Z := 6.

(** [did_succeed(chance)] is [random() < chance]; [roll] is the sample that
    [random()] returns. *)
Definition did_succeed (roll chance : Q) : bool := Py.lt roll chance.

(** ** [PokemonStats] *)

(** The tuple [(hit_chance, health, attack, defense)]. *)
Record Stats : Type := mkStats {
  stat_hit_chance : Q;
  stat_max_health : Z;
  stat_attack : Z;
  stat_defense : Z
}.

#[global] Instance Stats_eq_dec : EqDecision Stats.
Proof. solve_decision. Defined.

(** [int(stat * LEVEL_UP_STAT_GROWTH)] for an integer stat. *)
Definition grow (stat : Z) : Res Z :=
  x ← Py.float_of_int stat;
  Py.int_of_float (Py.fmul x LEVEL_UP_STAT_GROWTH).

(** The same for the hit chance, an [int] or a [float]; [level_up] computes
    it and then puts 1 in its place. *)
Definition grow_hit_chance (hit_chance : Q) : Res Z :=
  x ← Py.float_of_number hit_chance;
  Py.int_of_float (Py.fmul x LEVEL_UP_STAT_GROWTH).

Definition PokemonStats_level_up (s : Stats) : Res Stats :=
  _ ← grow_hit_chance (stat_hit_chance s);
  max_health ← grow (stat_max_health s);
  attack ← grow (stat_attack s);
  defense ← grow (stat_defense s);
  Ok {| stat_hit_chance := 1;
        stat_max_health := max_health;
        stat_attack := attack;
        stat_defense := defense |}.

Definition PokemonStats_apply_modifier (s modifier : Stats) : Stats :=
  {| stat_hit_chance := Py.max0 (stat_hit_chance s + stat_hit_chance modifier);
     stat_max_health := Z.max 0 (stat_max_health s + stat_max_health modifier);
     stat_attack := Z.max 0 (stat_attack s + stat_attack modifier);
     stat_defense := Z.max 0 (stat_defense s + stat_defense modifier) |}.

(** ** Moves and items as values

    A [Move] or an [Item] is never mutated after its construction and is
    hashed and compared by identity; [move_id] and [item_id] stand for that
    identity, so that two moves built from the same arguments are still two
    keys. *)

Inductive MoveKind : Type :=
| Attack (base_damage : Z) (hit_chance : Q)
| Buff (modification : Stats) (rounds : Z)
| Debuff (modification : Stats) (rounds : Z).

Record Move : Type := mkMove {
  move_id : nat;
  move_name : string;
  move_element_type : string;
  move_max_uses : Z;
  move_speed : Z;
  move_kind : MoveKind
}.

Inductive ItemKind : Type :=
| Pokeball (catch_chance : Q)
| Food (health_restored : Z).

Record Item : Type := mkItem {
  item_id : nat;
  item_name : string;
  item_kind : ItemKind
}.

#[global] Instance MoveKind_eq_dec : EqDecision MoveKind.
Proof. solve_decision. Defined.
#[global] Instance Move_eq_dec : EqDecision Move.
Proof. solve_decision. Defined.
#[global] Instance ItemKind_eq_dec : EqDecision ItemKind.
Proof. solve_decision. Defined.
#[global] Instance Item_eq_dec : EqDecision Item.
Proof. solve_decision. Defined.

Definition Move_get_max_uses (m : Move) : Z := move_max_uses m.


(** ** [Pokemon] *)

Record Pokemon : Type := mkPokemon {
  pokemon_name : string;
  pokemon_element_type : string;
  pokemon_stats : Stats;
  (* pairs <modification, rounds_remaining> applied during combat *)
  pokemon_stat_modifiers : list (Stats * Z);
  pokemon_health : Z;
  pokemon_level : Z;
  pokemon_experience : Z;
  (* a dictionary of moves to their remaining uses *)
  pokemon_moves : list (Move * Z)
}.

Definition with_stats (s : Stats) (p : Pokemon) : Pokemon :=
  mkPokemon (pokemon_name p) (pokemon_element_type p) s
    (pokemon_stat_modifiers p) (pokemon_health p) (pokemon_level p)
    (pokemon_experience p) (pokemon_moves p).

Definition with_stat_modifiers (l : list (Stats * Z)) (p : Pokemon) : Pokemon :=
  mkPokemon (pokemon_name p) (pokemon_element_type p) (pokemon_stats p)
    l (pokemon_health p) (pokemon_level p)
    (pokemon_experience p) (pokemon_moves p).

Definition with_health (h : Z) (p : Pokemon) : Pokemon :=
  mkPokemon (pokemon_name p) (pokemon_element_type p) (pokemon_stats p)
    (pokemon_stat_modifiers p) h (pokemon_level p)
    (pokemon_experience p) (pokemon_moves p).

Definition with_level (n : Z) (p : Pokemon) : Pokemon :=
  mkPokemon (pokemon_name p) (pokemon_element_type p) (pokemon_stats p)
    (pokemon_stat_modifiers p) (pokemon_health p) n
    (pokemon_experience p) (pokemon_moves p).

Definition with_experience (e : Z) (p : Pokemon) : Pokemon :=
  mkPokemon (pokemon_name p) (pokemon_element_type p) (pokemon_stats p)
    (pokemon_stat_modifiers p) (pokemon_health p) (pokemon_level p)
    e (pokemon_moves p).

Definition with_moves (d : list (Move * Z)) (p : Pokemon) : Pokemon :=
  mkPokemon (pokemon_name p) (pokemon_element_type p) (pokemon_stats p)
    (pokemon_stat_modifiers p) (pokemon_health p) (pokemon_level p)
    (pokemon_experience p) d.

Definition Pokemon_get_name (p : Pokemon) : string := pokemon_name p.
Definition Pokemon_get_health (p : Pokemon) : Z := pokemon_health p.
Definition Pokemon_get_level (p : Pokemon) : Z := pokemon_level p.
Definition Pokemon_get_experience (p : Pokemon) : Z := pokemon_experience p.

(** The maximum health before stat modifiers are applied. *)
Definition Pokemon_get_max_health (p : Pokemon) : Z :=
  stat_max_health (pokemon_stats p).

Definition Pokemon_get_next_level_experience_requirement (p : Pokemon) : Z :=
  (pokemon_level p + 1) ^ 3.

Definition Pokemon_get_remaining_move_uses (m : Move) (p : Pokemon) : Z :=
  default 0 (Py.get (pokemon_moves p) m).

Definition Pokemon_has_fainted (p : Pokemon) : bool := pokemon_health p =? 0.

(** The stats after applying all current modifications, one by one in the
    order they are stored. *)
Definition Pokemon_get_stats (p : Pokemon) : Stats :=
  fold_left (fun result entry => PokemonStats_apply_modifier result entry.1)
    (pokemon_stat_modifiers p) (pokemon_stats p).

Definition Pokemon_modify_health (change : Z) (p : Pokemon) : Pokemon :=
  let max_health := stat_max_health (Pokemon_get_stats p) in
  with_health (Z.max 0 (Z.min (pokemon_health p + change) max_health)) p.

Definition Pokemon_level_up (p : Pokemon) : Res Pokemon :=
  let p1 := with_level (pokemon_level p + 1) p in
  let old_max_hp := Pokemon_get_max_health p1 in
  stats ← PokemonStats_level_up (pokemon_stats p1);
  let p2 := with_stats stats p1 in
  Ok (Pokemon_modify_health (Pokemon_get_max_health p2 - old_max_hp) p2).

(** [int(200 * level / 7)]: the division of two [int]s gives a [float]. *)
Definition Pokemon_experience_on_death (p : Pokemon) : Res Z :=
  x ← Py.int_truediv (200 * pokemon_level p) 7;
  Py.int_of_float x.

Definition Pokemon_can_learn_move (m : Move) (p : Pokemon) : bool :=
  if MAXIMUM_MOVE_SLOTS <=? Z.of_nat (length (pokemon_moves p)) then false
  else negb (Py.contains (pokemon_moves p) m).

Definition Pokemon_learn_move (m : Move) (p : Pokemon) : Pokemon :=
  with_moves (Py.set (pokemon_moves p) m (Move_get_max_uses m)) p.

Definition Pokemon_forget_move (m : Move) (p : Pokemon) : Pokemon :=
  if Py.contains (pokemon_moves p) m
  then with_moves (Py.pop (pokemon_moves p) m) p
  else p.

Definition Pokemon_has_moves_left (p : Pokemon) : bool :=
  existsb (fun entry => 0 <? entry.2) (pokemon_moves p).

Definition Pokemon_reduce_move_count (m : Move) (p : Pokemon) : Pokemon :=
  match Py.get (pokemon_moves p) m with
  | Some uses => with_moves (Py.set (pokemon_moves p) m (Z.max 0 (uses - 1))) p
  | None => p
  end.

Definition Pokemon_add_stat_modifier (modifier : Stats) (rounds : Z)
    (p : Pokemon) : Pokemon :=
  Pokemon_modify_health 0
    (with_stat_modifiers (pokemon_stat_modifiers p ++ [(modifier, rounds)]) p).

(** The loop of [post_round_actions]: an entry with more than one round left
    is kept with one round less, any other entry is dropped. *)
Fixpoint tick_modifiers (l : list (Stats * Z)) : list (Stats * Z) :=
  match l with
  | [] => []
  | (modifier, rounds) :: l' =>
      if 1 <? rounds then (modifier, rounds - 1) :: tick_modifiers l'
      else tick_modifiers l'
  end.

Definition Pokemon_post_round_actions (p : Pokemon) : Pokemon :=
  Pokemon_modify_health 0
    (with_stat_modifiers (tick_modifiers (pokemon_stat_modifiers p)) p).

Definition Pokemon_rest (p : Pokemon) : Pokemon :=
  let p1 := with_health (stat_max_health (pokemon_stats p)) p in
  let p2 := with_stat_modifiers [] p1 in
  with_moves
    (map (fun entry => (entry.1, Move_get_max_uses entry.1)) (pokemon_moves p2))
    p2.

(** [Pokemon.__init__]: the moves are learned in order, each one only while
    [can_learn_move] holds. *)
Definition Pokemon_init (name : string) (stats : Stats) (element_type : string)
    (moves : list Move) (level : Z) : Pokemon :=
  fold_left
    (fun self move =>
       if Pokemon_can_learn_move move self then Pokemon_learn_move move self
       else self)
    moves
    {| pokemon_name := name;
       pokemon_element_type := element_type;
       pokemon_stats := stats;
       pokemon_stat_modifiers := [];
       pokemon_health := stat_max_health stats;
       pokemon_level := level;
       pokemon_experience := level ^ 3;
       pokemon_moves := [] |}.

Section Experience.

(** [float_cube_root e] is the integer [int(e ** (1.0 / 3))] that the
    interpreter computes in double precision for an [e] that is not negative
    and not too large for a double. *)
Variable float_cube_root : Z -> Z.

(** [for _ in range(n): self.level_up()] *)
Fixpoint Pokemon_level_ups (n : nat) (p : Pokemon) : Res Pokemon :=
  match n with
  | O => Ok p
  | S n' => p' ← Pokemon_level_up p; Pokemon_level_ups n' p'
  end.

(** [**] first turns the total into a [float], which raises
    [OverflowError] for a total that is too large; for a negative total it
    yields a complex number and [int] raises [TypeError]; [range] of a
    non-positive number is empty. *)
Definition Pokemon_gain_experience (experience : Z) (p : Pokemon)
    : Res Pokemon :=
  let p1 := with_experience (pokemon_experience p + experience) p in
  _ ← Py.float_of_int (pokemon_experience p1);
  if pokemon_experience p1 <? 0 then Raise TypeError
  else
    let start_level := pokemon_level p1 in
    let end_level := float_cube_root (pokemon_experience p1) in
    Pokemon_level_ups (Z.to_nat (end_level - start_level)) p1.

End Experience.

(** ** [Trainer] *)

(** A reference to a [Pokemon] object. *)
Definition PokemonRef : Type := nat.

(** The store: the [Pokemon] object behind every reference. *)
Definition Store : Type := PokemonRef -> Pokemon.

Record Trainer : Type := mkTrainer {
  trainer_name : string;
  (* None until the first pokemon is added or selected *)
  trainer_selected_pokemon : option Z;
  trainer_pokemon : list PokemonRef;
  (* <K, V> = <Items, uses> *)
  trainer_inventory : list (Item * Z)
}.

Definition with_selected_pokemon (s : option Z) (t : Trainer) : Trainer :=
  mkTrainer (trainer_name t) s (trainer_pokemon t) (trainer_inventory t).

Definition with_pokemon (l : list PokemonRef) (t : Trainer) : Trainer :=
  mkTrainer (trainer_name t) (trainer_selected_pokemon t) l (trainer_inventory t).

Definition with_inventory (d : list (Item * Z)) (t : Trainer) : Trainer :=
  mkTrainer (trainer_name t) (trainer_selected_pokemon t) (trainer_pokemon t) d.

Definition Trainer_init (name : string) : Trainer :=
  {| trainer_name := name;
     trainer_selected_pokemon := None;
     trainer_pokemon := [];
     trainer_inventory := [] |}.

Definition Trainer_get_name (t : Trainer) : string := trainer_name t.
Definition Trainer_get_inventory (t : Trainer) : list (Item * Z) :=
  trainer_inventory t.

Definition Trainer_get_current_pokemon (t : Trainer) : Res PokemonRef :=
  match trainer_selected_pokemon t with
  | None => Raise NoPokemonException
  | Some index => Py.getitem (trainer_pokemon t) index
  end.

Definition Trainer_get_all_pokemon (t : Trainer) : list PokemonRef :=
  trainer_pokemon t.

Definition Trainer_all_pokemon_fainted (st : Store) (t : Trainer) : bool :=
  forallb (fun r => Pokemon_has_fainted (st r)) (trainer_pokemon t).

(** [pokemon in self._pokemon] compares references. *)
Definition Trainer_can_add_pokemon (r : PokemonRef) (t : Trainer) : bool :=
  if bool_decide (r ∈ trainer_pokemon t) then false
  else Z.of_nat (length (trainer_pokemon t)) <? MAXIMUM_POKEMON_ROSTER.

Definition Trainer_add_pokemon (r : PokemonRef) (t : Trainer) : Trainer :=
  let t1 := with_pokemon (trainer_pokemon t ++ [r]) t in
  match trainer_selected_pokemon t1 with
  | None => with_selected_pokemon (Some 0) t1
  | Some _ => t1
  end.

Definition Trainer_can_switch_pokemon (st : Store) (index : Z) (t : Trainer)
    : bool :=
  if (index <? 0) || (Z.of_nat (length (trainer_pokemon t)) <=? index) then false
  else if bool_decide (Some index = trainer_selected_pokemon t) then false
  else match trainer_pokemon t !! Z.to_nat index with
       | Some r => negb (Pokemon_has_fainted (st r))
       | None => false (* not reached: the index is within bounds *)
       end.

Definition Trainer_switch_pokemon (index : Z) (t : Trainer) : Trainer :=
  with_selected_pokemon (Some index) t.

Definition Trainer_add_item (item : Item) (uses : Z) (t : Trainer) : Trainer :=
  with_inventory
    (Py.set (trainer_inventory t) item
       (default 0 (Py.get (trainer_inventory t) item) + uses))
    t.

Definition Trainer_has_item (item : Item) (t : Trainer) : bool :=
  Py.contains (trainer_inventory t) item.

Definition Trainer_use_item (item : Item) (t : Trainer) : Trainer :=
  match Py.get (trainer_inventory t) item with
  | None => t
  | Some uses =>
      let decremented := Py.set (trainer_inventory t) item (uses - 1) in
      if uses - 1 =? 0 then with_inventory (Py.pop decremented item) t
      else with_inventory decremented t
  end.

(** ** [ActionSummary] *)

Definition ActionSummary : Type := list string.

Definition ActionSummary_init (message : option string) : ActionSummary :=
  match message with
  | Some m => [m]
  | None => []
  end.

Definition ActionSummary_get_messages (s : ActionSummary) : list string := s.

Definition ActionSummary_add_message (message : string) (s : ActionSummary)
    : ActionSummary := s ++ [message].

Definition ActionSummary_combine (s summary : ActionSummary) : ActionSummary :=
  fold_left (fun acc message => ActionSummary_add_message message acc)
    (ActionSummary_get_messages summary) s.

(** ** [Action] values

    The concrete classes of the hierarchy.  An [Item] or a [Move] object is
    itself the action; [Flee] and [SwitchPokemon] carry no identity that the
    engine looks at. *)

Inductive Action : Type :=
| Flee
| SwitchPokemon (next_pokemon_index : Z)
| ItemAction (item : Item)
| MoveAction (move : Move).

#[global] Instance Action_eq_dec : EqDecision Action.
Proof. solve_decision. Defined.

(** ** [Battle] *)

(** The fields of a [Battle] and, with them, the store of the [Pokemon]
    objects its trainers refer to.  [true] is the player, [false] the
    enemy. *)
Record Battle : Type := mkBattle {
  battle_store : Store;
  battle_player : Trainer;
  battle_enemy : Trainer;
  battle_trainer_battle : bool;
  battle_finished_early : bool;
  battle_turn : option bool;
  battle_action_queue : list (Action * bool)
}.

Definition with_store (st : Store) (b : Battle) : Battle :=
  mkBattle st (battle_player b) (battle_enemy b) (battle_trainer_battle b)
    (battle_finished_early b) (battle_turn b) (battle_action_queue b).

Definition with_trainer (is_player : bool) (t : Trainer) (b : Battle) : Battle :=
  if is_player
  then mkBattle (battle_store b) t (battle_enemy b) (battle_trainer_battle b)
         (battle_finished_early b) (battle_turn b) (battle_action_queue b)
  else mkBattle (battle_store b) (battle_player b) t (battle_trainer_battle b)
         (battle_finished_early b) (battle_turn b) (battle_action_queue b).

Definition with_finished_early (f : bool) (b : Battle) : Battle :=
  mkBattle (battle_store b) (battle_player b) (battle_enemy b)
    (battle_trainer_battle b) f (battle_turn b) (battle_action_queue b).

Definition with_turn (t : option bool) (b : Battle) : Battle :=
  mkBattle (battle_store b) (battle_player b) (battle_enemy b)
    (battle_trainer_battle b) (battle_finished_early b) t
    (battle_action_queue b).

Definition with_action_queue (q : list (Action * bool)) (b : Battle) : Battle :=
  mkBattle (battle_store b) (battle_player b) (battle_enemy b)
    (battle_trainer_battle b) (battle_finished_early b) (battle_turn b) q.

(** A method call on the [Pokemon] object behind [r]. *)
Definition on_pokemon (r : PokemonRef) (method : Pokemon -> Pokemon)
    (b : Battle) : Battle :=
  with_store (<[r := method (battle_store b r)]> (battle_store b)) b.

Definition Battle_init (st : Store) (player enemy : Trainer)
    (is_trainer_battle : bool) : Battle :=
  {| battle_store := st;
     battle_player := player;
     battle_enemy := enemy;
     battle_trainer_battle := is_trainer_battle;
     battle_finished_early := false;
     battle_turn := None;
     battle_action_queue := [] |}.

Definition Battle_get_turn (b : Battle) : option bool := battle_turn b.

Definition Battle_get_trainer (is_player : bool) (b : Battle) : Trainer :=
  if is_player then battle_player b else battle_enemy b.

Definition Battle_attempt_end_early (b : Battle) : Battle :=
  if negb (battle_trainer_battle b) then with_finished_early true b else b.

Definition Battle_is_trainer_battle (b : Battle) : bool :=
  battle_trainer_battle b.

Definition Battle_is_action_queue_full (b : Battle) : bool :=
  (length (battle_action_queue b) =? 2)%nat.

Definition Battle_is_action_queue_empty (b : Battle) : bool :=
  (length (battle_action_queue b) =? 0)%nat.

Definition Battle_trainer_has_action_queued (is_player : bool) (b : Battle)
    : bool :=
  existsb (fun entry => Bool.eqb entry.2 is_player) (battle_action_queue b).

Definition Battle_is_ready (b : Battle) : bool :=
  match battle_turn b with
  | None => Battle_is_action_queue_full b
  | Some turn => Battle_trainer_has_action_queued turn b
  end.

Definition Battle_update_turn (is_player : bool) (b : Battle) : Battle :=
  match battle_turn b with
  | None => with_turn (Some (negb is_player)) b
  | Some _ => with_turn None b
  end.

Definition Battle_is_over (b : Battle) : bool :=
  battle_finished_early b
  || Trainer_all_pokemon_fainted (battle_store b) (battle_player b)
  || Trainer_all_pokemon_fainted (battle_store b) (battle_enemy b).

(** ** The [Action] hierarchy: priority, validity, effects *)

Definition Move_get_priority (m : Move) : Z :=
  SPEED_BASED_ACTION_PRIORITY + move_speed m.

Definition Action_get_priority (a : Action) : Z :=
  match a with
  | MoveAction m => Move_get_priority m
  | _ => DEFAULT_ACTION_PRIORITY
  end.

(** [Action.is_valid], the check every subclass starts from. *)
Definition Action_base_is_valid (b : Battle) (is_player : bool) : bool :=
  if Battle_is_over b then false
  else match Battle_get_turn b with
       | None => true
       | Some turn => Bool.eqb turn is_player
       end.

Definition Flee_is_valid (b : Battle) (is_player : bool) : Res bool :=
  pokemon ← Trainer_get_current_pokemon (Battle_get_trainer is_player b);
  Ok (Action_base_is_valid b is_player
      && negb (Pokemon_has_fainted (battle_store b pokemon))).

Definition SwitchPokemon_is_valid (index : Z) (b : Battle) (is_player : bool)
    : Res bool :=
  if negb (Action_base_is_valid b is_player) then Ok false
  else Ok (Trainer_can_switch_pokemon (battle_store b) index
             (Battle_get_trainer is_player b)).

Definition Item_is_valid (item : Item) (b : Battle) (is_player : bool)
    : Res bool :=
  if negb (Action_base_is_valid b is_player) then Ok false
  else
    let trainer := Battle_get_trainer is_player b in
    pokemon ← Trainer_get_current_pokemon trainer;
    Ok (negb (Pokemon_has_fainted (battle_store b pokemon))
        && Trainer_has_item item trainer).

Definition Move_is_valid (move : Move) (b : Battle) (is_player : bool)
    : Res bool :=
  if negb (Action_base_is_valid b is_player) then Ok false
  else
    pokemon ← Trainer_get_current_pokemon (Battle_get_trainer is_player b);
    if Pokemon_has_fainted (battle_store b pokemon) then Ok false
    else Ok (negb (Pokemon_get_remaining_move_uses move
                     (battle_store b pokemon) =? 0)).

Definition Action_is_valid (a : Action) (b : Battle) (is_player : bool)
    : Res bool :=
  match a with
  | Flee => Flee_is_valid b is_player
  | SwitchPokemon index => SwitchPokemon_is_valid index b is_player
  | ItemAction item => Item_is_valid item b is_player
  | MoveAction move => Move_is_valid move b is_player
  end.

Definition Flee_apply (b : Battle) (is_player : bool)
    : Res (Battle * ActionSummary) :=
  let b1 := Battle_attempt_end_early b in
  let message :=
    if Battle_is_trainer_battle b1 then FLEE_INVALID else FLEE_SUCCESS in
  Ok (b1, ActionSummary_init (Some message)).

Definition SwitchPokemon_apply (index : Z) (b : Battle) (is_player : bool)
    : Res (Battle * ActionSummary) :=
  let trainer := Battle_get_trainer is_player b in
  pokemon ← Trainer_get_current_pokemon trainer;
  next_pokemon ← Py.getitem (Trainer_get_all_pokemon trainer) index;
  let b1 := with_trainer is_player (Trainer_switch_pokemon index trainer) b in
  let result := ActionSummary_init None in
  let result :=
    if is_player && negb (Pokemon_has_fainted (battle_store b1 pokemon))
    then ActionSummary_add_message
           (Pokemon_get_name (battle_store b1 pokemon) +:+ ", return!") result
    else result in
  Ok (b1,
      ActionSummary_add_message
        (Trainer_get_name trainer +:+ " switched to "
         +:+ Pokemon_get_name (battle_store b1 next_pokemon) +:+ ".")
        result).

Definition Item_decrement_item_count (item : Item) (is_player : bool)
    (b : Battle) : Battle :=
  with_trainer is_player
    (Trainer_use_item item (Battle_get_trainer is_player b)) b.

(** [roll] is the sample [random()] returns should [did_succeed] be called. *)
Definition Pokeball_apply (self : Item) (catch_chance : Q) (roll : Q)
    (b : Battle) (is_player : bool) : Res (Battle * ActionSummary) :=
  let b1 := Item_decrement_item_count self is_player b in
  if Battle_is_trainer_battle b1
  then Ok (b1, ActionSummary_init (Some POKEBALL_INVALID_BATTLE_TYPE))
  else
    enemy_pokemon ←
      Trainer_get_current_pokemon (Battle_get_trainer (negb is_player) b1);
    let name := Pokemon_get_name (battle_store b1 enemy_pokemon) in
    if negb (did_succeed roll catch_chance)
    then Ok (b1, ActionSummary_init (Some (POKEBALL_UNSUCCESSFUL_CATCH name)))
    else
      let player := Battle_get_trainer is_player b1 in
      let '(b2, result) :=
        if Trainer_can_add_pokemon enemy_pokemon player
        then (with_trainer is_player
                (Trainer_add_pokemon enemy_pokemon player) b1,
              ActionSummary_init (Some (POKEBALL_SUCCESSFUL_CATCH name)))
        else (b1, ActionSummary_init (Some (POKEBALL_FULL_TEAM name))) in
      Ok (Battle_attempt_end_early b2, result).

Definition Food_apply (self : Item) (health_restored : Z)
    (b : Battle) (is_player : bool) : Res (Battle * ActionSummary) :=
  pokemon ← Trainer_get_current_pokemon (Battle_get_trainer is_player b);
  let b1 := on_pokemon pokemon (Pokemon_modify_health health_restored) b in
  let b2 := Item_decrement_item_count self is_player b1 in
  Ok (b2,
      ActionSummary_init
        (Some (Pokemon_get_name (battle_store b2 pokemon) +:+ " ate "
               +:+ item_name self +:+ "."))).

Section Engine.

(** The type registry after set-up: [effectiveness attacking defending] is
    [ElementType.of(attacking).get_effectiveness(defending)]. *)
Variable effectiveness : string -> string -> Py.num.

(** [int(e ** (1.0 / 3))], as in [Pokemon_gain_experience]. *)
Variable float_cube_root : Z -> Z.

Definition Attack_did_hit (hit_chance : Q) (roll : Q) (pokemon : Pokemon)
    : bool :=
  let pokemon_hit_chance := stat_hit_chance (Pokemon_get_stats pokemon) in
  let combined_hit_chance := (pokemon_hit_chance * hit_chance)%Q in
  did_succeed roll combined_hit_chance.

Definition Attack_calculate_damage (self : Move) (base_damage : Z)
    (pokemon enemy_pokemon : Pokemon) : Res Z :=
  let effect :=
    effectiveness (move_element_type self)
      (pokemon_element_type enemy_pokemon) in
  let pokemon_attack := stat_attack (Pokemon_get_stats pokemon) in
  let enemy_pokemon_defense := stat_defense (Pokemon_get_stats enemy_pokemon) in
  product ← Py.mul (Py.Int base_damage) effect;
  product ← Py.mul product (Py.Int pokemon_attack);
  quotient ← Py.truediv product (Py.Int (enemy_pokemon_defense + 1));
  Py.int quotient.

Definition Attack_apply_enemy_effects (self : Move) (base_damage : Z)
    (hit_chance : Q) (roll : Q) (b : Battle) (is_player : bool)
    : Res (Battle * ActionSummary) :=
  player_pokemon ← Trainer_get_current_pokemon (Battle_get_trainer is_player b);
  enemy_pokemon ←
    Trainer_get_current_pokemon (Battle_get_trainer (negb is_player) b);
  if negb (Attack_did_hit hit_chance roll (battle_store b player_pokemon))
  then Ok (b,
           ActionSummary_init
             (Some (Pokemon_get_name (battle_store b player_pokemon)
                    +:+ " missed!")))
  else
    let result := ActionSummary_init None in
    damage ← Attack_calculate_damage self base_damage
               (battle_store b player_pokemon) (battle_store b enemy_pokemon);
    let b1 := on_pokemon enemy_pokemon (Pokemon_modify_health (- damage)) b in
    if Pokemon_has_fainted (battle_store b1 enemy_pokemon)
    then
      exp ← Pokemon_experience_on_death (battle_store b1 enemy_pokemon);
      gained ← Pokemon_gain_experience float_cube_root exp
                 (battle_store b1 player_pokemon);
      let b2 := on_pokemon player_pokemon (fun _ => gained) b1 in
      let result :=
        ActionSummary_add_message
          (Pokemon_get_name (battle_store b2 enemy_pokemon) +:+ " has fainted.")
          result in
      let result :=
        ActionSummary_add_message
          (Pokemon_get_name (battle_store b2 player_pokemon) +:+ " gained "
           +:+ Py.str exp +:+ " exp.")
          result in
      Ok (b2, result)
    else Ok (b1, result).

Definition Buff_apply_ally_effects (modification : Stats) (rounds : Z)
    (b : Battle) (is_player : bool) : Res (Battle * ActionSummary) :=
  pokemon ← Trainer_get_current_pokemon (Battle_get_trainer is_player b);
  let b1 := on_pokemon pokemon (Pokemon_add_stat_modifier modification rounds) b in
  Ok (b1,
      ActionSummary_init
        (Some (Pokemon_get_name (battle_store b1 pokemon) +:+ " was buffed for "
               +:+ Py.str rounds +:+ " turns."))).

Definition Debuff_apply_enemy_effects (modification : Stats) (rounds : Z)
    (b : Battle) (is_player : bool) : Res (Battle * ActionSummary) :=
  pokemon ← Trainer_get_current_pokemon (Battle_get_trainer (negb is_player) b);
  let b1 := on_pokemon pokemon (Pokemon_add_stat_modifier modification rounds) b in
  Ok (b1,
      ActionSummary_init
        (Some (Pokemon_get_name (battle_store b1 pokemon)
               +:+ " was debuffed for " +:+ Py.str rounds +:+ " turns."))).

(** The overriding [apply_ally_effects] of the move's class; [Move]'s own
    returns an empty summary. *)
Definition Move_apply_ally_effects (self : Move) (b : Battle)
    (is_player : bool) : Res (Battle * ActionSummary) :=
  match move_kind self with
  | Buff modification rounds =>
      Buff_apply_ally_effects modification rounds b is_player
  | _ => Ok (b, ActionSummary_init None)
  end.

Definition Move_apply_enemy_effects (self : Move) (roll : Q) (b : Battle)
    (is_player : bool) : Res (Battle * ActionSummary) :=
  match move_kind self with
  | Attack base_damage hit_chance =>
      Attack_apply_enemy_effects self base_damage hit_chance roll b is_player
  | Debuff modification rounds =>
      Debuff_apply_enemy_effects modification rounds b is_player
  | Buff _ _ => Ok (b, ActionSummary_init None)
  end.

Definition Move_apply (self : Move) (roll : Q) (b : Battle) (is_player : bool)
    : Res (Battle * ActionSummary) :=
  pokemon ← Trainer_get_current_pokemon (Battle_get_trainer is_player b);
  let result :=
    ActionSummary_init
      (Some (Pokemon_get_name (battle_store b pokemon) +:+ " used "
             +:+ move_name self +:+ ".")) in
  '(b1, ally) ← Move_apply_ally_effects self b is_player;
  let result := ActionSummary_combine result ally in
  '(b2, enemy) ← Move_apply_enemy_effects self roll b1 is_player;
  let result := ActionSummary_combine result enemy in
  current ← Trainer_get_current_pokemon (Battle_get_trainer is_player b2);
  Ok (on_pokemon current (Pokemon_reduce_move_count self) b2, result).

Definition Action_apply (a : Action) (roll : Q) (b : Battle) (is_player : bool)
    : Res (Battle * ActionSummary) :=
  match a with
  | Flee => Flee_apply b is_player
  | SwitchPokemon index => SwitchPokemon_apply index b is_player
  | ItemAction item =>
      match item_kind item with
      | Pokeball catch_chance => Pokeball_apply item catch_chance roll b is_player
      | Food health_restored => Food_apply item health_restored b is_player
      end
  | MoveAction move => Move_apply move roll b is_player
  end.

(** ** [Battle]: the queue and the turn *)

Definition Battle_queue_action (action : Action) (is_player : bool)
    (b : Battle) : Res Battle :=
  if Battle_trainer_has_action_queued is_player b || Battle_is_ready b
  then Ok b
  else
    valid ← Action_is_valid action b is_player;
    if negb valid then Ok b
    else Ok (with_action_queue
               (battle_action_queue b ++ [(action, is_player)]) b).

Definition Battle_sort_actions (b : Battle) : Battle :=
  if negb (Battle_is_action_queue_full b) then b
  else with_action_queue
         (Py.sort_by (fun x => Action_get_priority x.1) (battle_action_queue b))
         b.

(** [enact_turn] returns the summary of the action it performed, or [None].
    [roll] is the sample [random()] returns if the action draws one. *)
Definition Battle_enact_turn (roll : Q) (b : Battle)
    : Res (Battle * option ActionSummary) :=
  if Battle_is_action_queue_empty b then Ok (b, None)
  else
    let b1 := Battle_sort_actions b in
    match battle_action_queue b1 with
    | [] => Raise IndexError
    | (next_action, is_player) :: rest =>
        let b2 := with_action_queue rest b1 in
        valid ← Action_is_valid next_action b2 is_player;
        if (valid : bool) then
          '(b3, result) ← Action_apply next_action roll b2 is_player;
          let b4 := Battle_update_turn is_player b3 in
          match battle_turn b4 with
          | None =>
              player_pokemon ← Trainer_get_current_pokemon (battle_player b4);
              let b5 := on_pokemon player_pokemon Pokemon_post_round_actions b4 in
              enemy_pokemon ← Trainer_get_current_pokemon (battle_enemy b5);
              let b6 := on_pokemon enemy_pokemon Pokemon_post_round_actions b5 in
              Ok (b6, Some result)
          | Some _ => Ok (b4, Some result)
          end
        else Ok (b2, None)
    end.

End Engine.

(** ** Histories of method calls *)

(** The calls that change a [Trainer]. *)
Inductive TrainerCall : Type :=
| add_pokemon (pokemon : PokemonRef)
| switch_pokemon (index : Z)
| add_item (item : Item) (uses : Z)
| use_item (item : Item).

Definition Trainer_call (t : Trainer) (c : TrainerCall) : Trainer :=
  match c with
  | add_pokemon r => Trainer_add_pokemon r t
  | switch_pokemon index => Trainer_switch_pokemon index t
  | add_item item uses => Trainer_add_item item uses t
  | use_item item => Trainer_use_item item t
  end.

Definition Trainer_calls (t : Trainer) (cs : list TrainerCall) : Trainer :=
  fold_left Trainer_call cs t.

(** Every [add_item] of the history adds at least one use. *)
Definition adds_uses (c : TrainerCall) : Prop :=
  match c with
  | add_item _ uses => 1 <= uses
  | _ => True
  end.

(** An inventory in which every item that is present has a use left. *)
Definition stocked (d : list (Item * Z)) : Prop :=
  Forall (fun entry => 1 <= entry.2) d.

(** The call touches the inventory only, not the roster or the selection. *)
Definition inventory_call (c : TrainerCall) : Prop :=
  match c with
  | add_item _ _ | use_item _ => True
  | add_pokemon _ | switch_pokemon _ => False
  end.

(** The calls that change the moves a [Pokemon] knows. *)
Inductive MoveCall : Type :=
| learn_move (move : Move)
| forget_move (move : Move).

Definition Pokemon_call (p : Pokemon) (c : MoveCall) : Pokemon :=
  match c with
  | learn_move m => Pokemon_learn_move m p
  | forget_move m => Pokemon_forget_move m p
  end.

(** A history in which every [learn_move] is made while [can_learn_move]
    holds. *)
Fixpoint respects_can_learn_move (p : Pokemon) (cs : list MoveCall) : Prop :=
  match cs with
  | [] => True
  | c :: cs' =>
      match c with
      | learn_move m => Pokemon_can_learn_move m p = true
      | forget_move _ => True
      end
      /\ respects_can_learn_move (Pokemon_call p c) cs'
  end.

(** The first occurrence of every element of [l] that is not in [seen]. *)
Fixpoint first_occurrences {A : Type} `{EqDecision A} (seen l : list A)
    : list A :=
  match l with
  | [] => []
  | x :: l' =>
      if decide (x ∈ seen) then first_occurrences seen l'
      else x :: first_occurrences (seen ++ [x]) l'
  end.

(** What no action touches: the turn, the queue and the kind of battle. *)
Definition same_round (b b' : Battle) : Prop :=
  battle_turn b' = battle_turn b
  ∧ battle_action_queue b' = battle_action_queue b
  ∧ battle_trainer_battle b' = battle_trainer_battle b.

(** The entry of a move that was just learned. *)
Definition learned (m : Move) : Move * Z := (m, Move_get_max_uses m).

(** The largest [k] with [k ^ 3 <= e], by counting up. *)
Fixpoint cube_root_from (fuel : nat) (e k : Z) : Z :=
  match fuel with
  | O => k
  | S fuel' =>
      if (k + 1) ^ 3 <=? e then cube_root_from fuel' e (k + 1) else k
  end.

Definition floor_cube_root (e : Z) : Z := cube_root_from (Z.to_nat e) e 0.

(** What is left of [enact_turn] once the next entry is off the queue:
    [b] is the battle without that entry. *)
Definition resolve (effectiveness : string -> string -> Py.num)
    (float_cube_root : Z -> Z) (roll : Q) (entry : Action * bool) (b : Battle)
    : Res (Battle * option ActionSummary) :=
  let '(next_action, is_player) := entry in
  valid ← Action_is_valid next_action b is_player;
  if (valid : bool) then
    '(b3, result) ← Action_apply effectiveness float_cube_root next_action roll
                      b is_player;
    let b4 := Battle_update_turn is_player b3 in
    match battle_turn b4 with
    | None =>
        player_pokemon ← Trainer_get_current_pokemon (battle_player b4);
        let b5 := on_pokemon player_pokemon Pokemon_post_round_actions b4 in
        enemy_pokemon ← Trainer_get_current_pokemon (battle_enemy b5);
        let b6 := on_pokemon enemy_pokemon Pokemon_post_round_actions b5 in
        Ok (b6, Some result)
    | Some _ => Ok (b4, Some result)
    end
  else Ok (b, None).

(** Of two queued entries, [x] submitted before [y]: the one with the lower
    priority value goes first, and [x] does when the two are equal. *)
Definition resolved_first (x y : Action * bool) : Action * bool :=
  if Action_get_priority x.1 <=? Action_get_priority y.1 then x else y.

Definition resolved_second (x y : Action * bool) : Action * bool :=
  if Action_get_priority x.1 <=? Action_get_priority y.1 then y else x.

(** ** The rest of the model: rests, the registry, the strategies *)

Definition Trainer_rest_all_pokemon (st : Store) (t : Trainer) : Store :=
  fold_left (fun st' r => <[r := Pokemon_rest (st' r)]> st')
    (trainer_pokemon t) st.

(** [sorted(l, key=...)] with a key that is a string: stable and ascending;
    strings compare as Python's do, by code point (here, byte by byte). *)
Section sorted.
Context {A : Type} (key : A -> string).

Fixpoint insert_by_name (x : A) (l : list A) : list A :=
  match l with
  | [] => [x]
  | y :: l' =>
      if String.leb (key x) (key y) then x :: y :: l'
      else y :: insert_by_name x l'
  end.

Fixpoint sorted_by_name (l : list A) : list A :=
  match l with
  | [] => []
  | x :: l' => insert_by_name x (sorted_by_name l')
  end.
End sorted.

(** The known moves and their remaining uses, sorted by the name of the
    move. *)
Definition Pokemon_get_move_info (p : Pokemon) : list (Move * Z) :=
  sorted_by_name (fun move_info => move_name move_info.1) (pokemon_moves p).

(** [ElementType._elements]: the instance registered under each name, an
    instance being its [_effectiveness] dictionary. *)
Definition Registry : Type := list (string * list (string * Py.num)).

(** [ElementType.of(name)]: the registry afterwards; an instance with no
    entry is created when the name is new. *)
Definition ElementType_of (name : string) (reg : Registry) : Registry :=
  if Py.contains reg name then reg else Py.set reg name [].

(** [ElementType.of(name).add_type_effectiveness(type, effectiveness)] *)
Definition ElementType_add_type_effectiveness (name type : string)
    (effect : Py.num) (reg : Registry) : Registry :=
  let reg1 := ElementType_of name reg in
  Py.set reg1 name (Py.set (default [] (Py.get reg1 name)) type effect).

(** [ElementType.of(name).get_effectiveness(defending_type)] *)
Definition ElementType_get_effectiveness (name defending_type : string)
    (reg : Registry) : Py.num :=
  default (Py.Float Py.one)
    (Py.get (default [] (Py.get (ElementType_of name reg) name)) defending_type).

(** [create_encounter(trainer, wild_pokemon)] *)
Definition create_encounter (st : Store) (trainer : Trainer)
    (wild_pokemon : PokemonRef) : Battle :=
  let anonymous_trainer := Trainer_init "" in
  let anonymous_trainer := Trainer_add_pokemon wild_pokemon anonymous_trainer in
  Battle_init st trainer anonymous_trainer false.

(** [Strategy._switch_to_next_pokemon]: a switch to the first pokemon of the
    roster that has not fainted; [None] when the loop ends without one. *)
Definition Strategy_switch_to_next_pokemon (st : Store) (trainer : Trainer)
    : option Action :=
  match list_find (fun r => Pokemon_has_fainted (st r) = false)
          (Trainer_get_all_pokemon trainer) with
  | Some (index, _) => Some (SwitchPokemon (Z.of_nat index))
  | None => None
  end.

Definition ScaredyCat_get_next_action (b : Battle) (is_player : bool)
    : Res (option Action) :=
  let trainer := Battle_get_trainer is_player b in
  current ← Trainer_get_current_pokemon trainer;
  if Pokemon_has_fainted (battle_store b current)
  then Ok (Strategy_switch_to_next_pokemon (battle_store b) trainer)
  else Ok (Some Flee).

(** [DefaultAIStrategy.get_next_action] of [game.py]: when the current
    pokemon has fainted and no other is left, the first loop ends and the
    moves are looked at all the same. *)
Definition DefaultAIStrategy_get_next_action (b : Battle) (is_player : bool)
    : Res (option Action) :=
  let trainer := Battle_get_trainer is_player b in
  pokemon ← Trainer_get_current_pokemon trainer;
  let switch :=
    if Pokemon_has_fainted (battle_store b pokemon)
    then Strategy_switch_to_next_pokemon (battle_store b) trainer
    else None in
  match switch with
  | Some action => Ok (Some action)
  | None =>
      match list_find (fun move_info => 0 < move_info.2)
              (Pokemon_get_move_info (battle_store b pokemon)) with
      | Some (_, (move, _)) => Ok (Some (MoveAction move))
      | None => Ok (Some Flee)
      end
  end.

(** [issubclass(type(item), Pokeball)] *)
Definition is_Pokeball (item : Item) : bool :=
  match item_kind item with
  | Pokeball _ => true
  | Food _ => false
  end.

Section TeamRocket.

(** The type registry, as in the engine. *)
Variable effectiveness : string -> string -> Py.num.

(** [str.lower] *)
Variable lower : string -> string.

Definition TeamRocket_get_next_action (b : Battle) (is_player : bool)
    : Res (option Action) :=
  let trainer := Battle_get_trainer is_player b in
  pokemon ← Trainer_get_current_pokemon trainer;
  if Pokemon_has_fainted (battle_store b pokemon)
  then Ok (Strategy_switch_to_next_pokemon (battle_store b) trainer)
  else if negb (Battle_is_trainer_battle b) then Ok (Some Flee)
  else
    enemy_pokemon ←
      Trainer_get_current_pokemon (Battle_get_trainer (negb is_player) b);
    let pokeball :=
      if bool_decide
           (lower (Pokemon_get_name (battle_store b enemy_pokemon)) = "pikachu")
      then list_find (fun item => is_Pokeball item = true)
             (Py.keys (Trainer_get_inventory trainer))
      else None in
    match pokeball with
    | Some (_, item) => Ok (Some (ItemAction item))
    | None =>
        let move_info := Pokemon_get_move_info (battle_store b pokemon) in
        match list_find
                (fun info =>
                   info.2 ≠ 0
                   ∧ Py.gt_1
                       (effectiveness (move_element_type info.1)
                          (pokemon_element_type (battle_store b enemy_pokemon)))
                     = true)
                move_info with
        | Some (_, (move, _)) => Ok (Some (MoveAction move))
        | None =>
            match list_find (fun info => info.2 ≠ 0) move_info with
            | Some (_, (move, _)) => Ok (Some (MoveAction move))
            | None => Ok (Some Flee)
            end
        end
    end.

End TeamRocket.

(** ** Invariants *)

(** A float that is not a NaN and has the sign [s]. *)
Definition signed (s : bool) (x : Py.float) : Prop :=
  match x with
  | S754_zero s' | S754_infinity s' | S754_finite s' _ _ => s' = s
  | S754_nan => False
  end.

(** A number that is not below zero; an infinity is allowed, a NaN is
    not. *)
Definition not_negative (a : Py.num) : Prop :=
  match a with
  | Py.Int n => 0 <= n
  | Py.Float x => signed false x
  end.

(** [f] holds of the [fuel] integers from [n] on. *)
Fixpoint all_from (fuel : nat) (n : Z) (f : Z -> bool) : bool :=
  match fuel with
  | O => true
  | S fuel' => f n && all_from fuel' (n + 1) f
  end.

(** The stats and the levels up to which the results of the float
    expressions are checked one by one. *)
Definition CHECKED : Z := 100000.

Definition grow_is_floor (stat : Z) : bool :=
  match grow stat with
  | Ok grown => grown =? 21 * stat / 20
  | Raise _ => false
  end.

Definition experience_on_death_is_floor_at (level : Z) : bool :=
  match x ← Py.int_truediv (200 * level) 7; Py.int_of_float x with
  | Ok experience => experience =? 200 * level / 7
  | Raise _ => false
  end.


(** The health lies between 0 and the maximum health after modifiers. *)
Definition health_in_bounds (p : Pokemon) : Prop :=
  0 <= pokemon_health p <= stat_max_health (Pokemon_get_stats p).

(** The queue holds each side at most once, and while the turn waits on a
    side it holds no entry of the other side. *)
Definition queue_follows_turn (b : Battle) : Prop :=
  NoDup (battle_action_queue b).*2
  ∧ ∀ turn side,
      battle_turn b = Some turn → side ∈ (battle_action_queue b).*2 →
      side = turn.

(** What the effects of a move leave alone: the two trainers, the flag that
    ends the battle early, and the name, the moves and the type of every
    pokemon. *)
Definition same_parties (b b' : Battle) : Prop :=
  battle_player b' = battle_player b
  ∧ battle_enemy b' = battle_enemy b
  ∧ battle_finished_early b' = battle_finished_early b
  ∧ ∀ r, pokemon_moves (battle_store b' r) = pokemon_moves (battle_store b r)
         ∧ pokemon_name (battle_store b' r) = pokemon_name (battle_store b r)
         ∧ pokemon_element_type (battle_store b' r)
           = pokemon_element_type (battle_store b r).

(** A method that changes neither the name, the moves nor the type. *)
Definition keeps_identity (old new : Pokemon) : Prop :=
  pokemon_moves new = pokemon_moves old
  ∧ pokemon_name new = pokemon_name old
  ∧ pokemon_element_type new = pokemon_element_type old.

(** A history of [add_pokemon] calls, each made while [can_add_pokemon]
    holds. *)
Fixpoint respects_can_add_pokemon (t : Trainer) (rs : list PokemonRef) : Prop :=
  match rs with
  | [] => True
  | r :: rs' =>
      Trainer_can_add_pokemon r t = true
      ∧ respects_can_add_pokemon (Trainer_add_pokemon r t) rs'
  end.

(** ** Sample data

    The moves and items of the docstrings of [a2.py], and small battles
    built from them with the constructors above. *)

Module Sample.

Definition tackle : Move :=
  mkMove 1 "tackle" "normal" 15 100 (Attack 40 (95 # 100)).
Definition toxic : Move :=
  mkMove 2 "toxic" "poison" 10 70 (Debuff (mkStats 0 (-50) 0 (-50)) 4).
Definition meditate : Move :=
  mkMove 3 "meditate" "psychic" 5 80 (Buff (mkStats (2 # 10) 100 100 100) 5).
Definition quick_attack : Move :=
  mkMove 4 "Quick Attack" "normal" 15 90 (Attack 40 (85 # 100)).
Definition surf : Move :=
  mkMove 5 "surf" "water" 10 100 (Attack 60 (8 # 10)).

Definition master_ball : Item := mkItem 1 "Master Ball" (Pokeball 1).
Definition food : Item := mkItem 2 "Burger King Foot Lettuce" (Food 20).

Definition pikachu : Pokemon :=
  Pokemon_init "Pikachu" (mkStats 1 100 110 120) "electric"
    [quick_attack; meditate; tackle] 5.
Definition geodude : Pokemon :=
  Pokemon_init "Geodude" (mkStats 1 30 110 120) "rock" [tackle; toxic] 5.
Definition onix : Pokemon :=
  Pokemon_init "Onix" (mkStats 1 100 110 120) "rock" [tackle; toxic] 5.
Definition jynx : Pokemon :=
  Pokemon_init "jynx" (mkStats 1 100 200 200) "normal" [] 1.

(** References 0, 1 and 2 are Pikachu, Geodude and Onix; every other one is a
    jynx. *)
Definition store : Store := fun r =>
  match r with
  | 0%nat => pikachu
  | 1%nat => geodude
  | 2%nat => onix
  | _ => jynx
  end.

(** The registry with nothing registered: every pair has the default.
    For the cube root the samples use [floor_cube_root]: the totals they reach
    (267 and the like) are not cubes, and there the truncated double-precision
    root is the exact one. *)
Definition no_effectiveness (attacking defending : string) : Py.num :=
  Py.Float Py.one.

Definition ash : Trainer :=
  Trainer_add_item master_ball 1
    (Trainer_add_pokemon 0%nat (Trainer_init "Ash")).
Definition brock : Trainer :=
  Trainer_add_pokemon 2%nat (Trainer_add_pokemon 1%nat (Trainer_init "Brock")).

(** Ash with a full roster of six. *)
Definition ash_full : Trainer :=
  Trainer_calls ash (map add_pokemon [3; 4; 5; 6; 7]%nat).

(** [create_encounter(trainer, wild_pokemon)] for the wild Onix. *)
Definition wild : Trainer := Trainer_add_pokemon 2%nat (Trainer_init "").

Definition duel : Battle := Battle_init store ash brock true.
Definition encounter : Battle := Battle_init store ash wild false.
Definition encounter_full : Battle := Battle_init store ash_full wild false.

(** The duel once Pikachu has lost 30 health, with Ash carrying one piece of
    food. *)
Definition ash_with_food : Trainer := Trainer_add_item food 1 ash.
Definition picnic : Battle :=
  on_pokemon 0%nat (Pokemon_modify_health (-30))
    (Battle_init store ash_with_food brock true).

(** The battle and summary of an outcome that is known to be a value. *)
Definition battle_of {A : Type} (r : Res (Battle * A)) : Battle :=
  match r with
  | Ok (b, _) => b
  | Raise _ => duel
  end.

Definition queued (first second : Action * bool) (b : Battle) : Battle :=
  match Battle_queue_action first.1 first.2 b with
  | Ok b1 =>
      match Battle_queue_action second.1 second.2 b1 with
      | Ok b2 => b2
      | Raise _ => b1
      end
  | Raise _ => b
  end.

(** A round in which Ash's Quick Attack makes Geodude faint before Brock's
    queued tackle is its turn. *)
Definition stale_round : Battle :=
  queued (MoveAction tackle, false) (MoveAction quick_attack, true) duel.
Definition stale_after_first : Battle :=
  battle_of (Battle_enact_turn no_effectiveness floor_cube_root 0 stale_round).

(** A round of two status moves: Brock's toxic and Ash's meditate. *)
Definition status_round : Battle :=
  queued (MoveAction meditate, true) (MoveAction toxic, false) duel.
Definition status_after_first : Battle :=
  battle_of (Battle_enact_turn no_effectiveness floor_cube_root 0 status_round).

(** Ash's tackle (priority 101) and Brock's toxic (priority 71), submitted
    in either order. *)
Definition tackle_then_toxic : Battle :=
  queued (MoveAction tackle, true) (MoveAction toxic, false) duel.
Definition toxic_then_tackle : Battle :=
  queued (MoveAction toxic, false) (MoveAction tackle, true) duel.

(** What Ash's meditate, the second action of that round, leaves. *)
Definition status_second_applied : Battle :=
  battle_of
    (Action_apply no_effectiveness floor_cube_root (MoveAction meditate) 0
       (with_action_queue [] status_after_first) true).

(** A duel in which one Pikachu is the current pokemon of both sides: the
    rosters of Ash and of Gary hold the same object.  Both use meditate. *)
Definition gary : Trainer := Trainer_add_pokemon 0%nat (Trainer_init "Gary").
Definition mirror : Battle := Battle_init store ash gary true.
Definition mirror_round : Battle :=
  queued (MoveAction meditate, true) (MoveAction meditate, false) mirror.
Definition mirror_after_first : Battle :=
  battle_of (Battle_enact_turn no_effectiveness floor_cube_root 0 mirror_round).
Definition mirror_second_applied : Battle :=
  battle_of
    (Action_apply no_effectiveness floor_cube_root (MoveAction meditate) 0
       (with_action_queue [] mirror_after_first) false).

(** A cube root that is exact except at 64, where it is short by one: in
    double precision [64 ** (1.0 / 3)] is [3.9999999999999996], which [int]
    truncates to 3. *)
Definition cube_root_short_at_64 (e : Z) : Z :=
  if e =? 64 then 3 else floor_cube_root e.

End Sample.

(** * Properties *)

(** ** Dictionaries *)

Section dict_facts.
Context {K V : Type} `{EqDecision K}.
Implicit Types (d : list (K * V)) (k : K) (v : V).

Lemma get_set d k v : Py.get (Py.set d k v) k = Some v.
Proof.
  induction d as [|[k' v'] d IH]; simpl.
  - by rewrite decide_True.
  - destruct (decide (k' = k)) as [->|Hne]; simpl.
    + by rewrite decide_True.
    + by rewrite decide_False.
Qed.

Lemma get_set_ne d k k' v : k ≠ k' → Py.get (Py.set d k v) k' = Py.get d k'.
Proof.
  intros Hne. induction d as [|[k0 v0] d IH]; simpl.
  - by rewrite decide_False.
  - destruct (decide (k0 = k)) as [->|Hne0]; simpl.
    + by rewrite !decide_False.
    + by rewrite IH.
Qed.

Lemma get_pop d k : Py.get (Py.pop d k) k = None.
Proof.
  induction d as [|[k' v'] d IH]; simpl; [done|].
  destruct (decide (k' = k)); simpl; [done|]. by rewrite decide_False.
Qed.

Lemma get_pop_ne d k k' : k ≠ k' → Py.get (Py.pop d k) k' = Py.get d k'.
Proof.
  intros Hne. induction d as [|[k0 v0] d IH]; simpl; [done|].
  destruct (decide (k0 = k)) as [->|Hne0]; simpl.
  - by rewrite decide_False.
  - by rewrite IH.
Qed.

Lemma get_Some_elem d k v : Py.get d k = Some v → (k, v) ∈ d.
Proof.
  induction d as [|[k' v'] d IH]; simpl; [done|].
  destruct (decide (k' = k)) as [->|Hne].
  - intros [= ->]. left.
  - intros Hget. right. by apply IH.
Qed.

Lemma get_None_keys d k : Py.get d k = None ↔ k ∉ Py.keys d.
Proof.
  unfold Py.keys. induction d as [|[k' v'] d IH]; simpl.
  - split; [intros _; apply not_elem_of_nil|done].
  - rewrite not_elem_of_cons. destruct (decide (k' = k)) as [->|Hne].
    + split; [done|]. by intros [? _].
    + rewrite IH. split; [intros Hnot; split; [congruence|done]|by intros [_ ?]].
Qed.

Lemma contains_keys d k : Py.contains d k = true ↔ k ∈ Py.keys d.
Proof.
  unfold Py.contains. destruct (Py.get d k) eqn:Hget.
  - split; [intros _|done].
    destruct (decide (k ∈ Py.keys d)) as [|Hnot]; [done|].
    apply get_None_keys in Hnot. congruence.
  - split; [done|]. intros Hin. by apply get_None_keys in Hget.
Qed.

Lemma set_absent d k v : Py.get d k = None → Py.set d k v = d ++ [(k, v)].
Proof.
  induction d as [|[k' v'] d IH]; simpl; [done|].
  destruct (decide (k' = k)); [done|]. intros Hget. by rewrite IH.
Qed.

Lemma set_length d k v : (length d ≤ length (Py.set d k v) ≤ S (length d))%nat.
Proof.
  induction d as [|[k' v'] d IH]; simpl; [lia|].
  destruct (decide (k' = k)); simpl; lia.
Qed.

Lemma pop_length d k : (length (Py.pop d k) ≤ length d)%nat.
Proof.
  induction d as [|[k' v'] d IH]; simpl; [lia|].
  destruct (decide (k' = k)); simpl; lia.
Qed.

Lemma pop_set d k v : Py.pop (Py.set d k v) k = Py.pop d k.
Proof.
  induction d as [|[k' v'] d IH]; simpl.
  - by rewrite decide_True.
  - destruct (decide (k' = k)) as [->|Hne]; simpl.
    + by rewrite decide_True.
    + by rewrite decide_False, IH.
Qed.

Lemma Forall_set (P : K * V → Prop) d k v :
  Forall P d → P (k, v) → Forall P (Py.set d k v).
Proof.
  intros Hd Hkv. induction d as [|[k' v'] d IH]; simpl.
  - by constructor.
  - apply Forall_cons in Hd as [Hx Hd].
    destruct (decide (k' = k)) as [->|Hne]; constructor; auto.
Qed.

Lemma Forall_pop (P : K * V → Prop) d k : Forall P d → Forall P (Py.pop d k).
Proof.
  intros Hd. induction d as [|[k' v'] d IH]; simpl; [done|].
  apply Forall_cons in Hd as [Hx Hd].
  destruct (decide (k' = k)); [auto|]. constructor; auto.
Qed.

End dict_facts.

(** ** The inventory of a trainer *)

Lemma stocked_get d item uses :
  stocked d → Py.get d item = Some uses → 1 <= uses.
Proof.
  intros Hd Hget. apply get_Some_elem in Hget.
  exact (proj1 (Forall_forall _ _) Hd _ Hget).
Qed.

Lemma Trainer_add_item_stocked item uses t :
  1 <= uses → stocked (trainer_inventory t) →
  stocked (trainer_inventory (Trainer_add_item item uses t)).
Proof.
  intros Huses Hinv. unfold Trainer_add_item; simpl.
  apply Forall_set; [done|]. simpl.
  destruct (Py.get (trainer_inventory t) item) as [n|] eqn:Hget; simpl; [|lia].
  apply (stocked_get _ _ _ Hinv) in Hget. lia.
Qed.

Lemma Trainer_use_item_stocked item t :
  stocked (trainer_inventory t) →
  stocked (trainer_inventory (Trainer_use_item item t)).
Proof.
  intros Hinv. unfold Trainer_use_item.
  destruct (Py.get (trainer_inventory t) item) as [n|] eqn:Hget; [|done].
  apply (stocked_get _ _ _ Hinv) in Hget.
  destruct (n - 1 =? 0) eqn:Hzero; simpl.
  - rewrite pop_set. by apply Forall_pop.
  - apply Forall_set; [done|]. simpl. apply Z.eqb_neq in Hzero. lia.
Qed.

Lemma Trainer_call_stocked t c :
  adds_uses c → stocked (trainer_inventory t) →
  stocked (trainer_inventory (Trainer_call t c)).
Proof.
  destruct c as [r|index|item uses|item]; simpl; intros Hc Hinv.
  - unfold Trainer_add_pokemon. simpl.
    by destruct (trainer_selected_pokemon t).
  - done.
  - by apply Trainer_add_item_stocked.
  - by apply Trainer_use_item_stocked.
Qed.

Lemma Trainer_calls_stocked cs : ∀ t,
  Forall adds_uses cs → stocked (trainer_inventory t) →
  stocked (trainer_inventory (Trainer_calls t cs)).
Proof.
  induction cs as [|c cs IH]; intros t Hcs Hinv; simpl; [done|].
  apply Forall_cons in Hcs as [Hc Hcs].
  apply IH; [done|]. by apply Trainer_call_stocked.
Qed.

(** C8, as amended: as long as every [add_item] adds at least one use, no
    history of calls leaves an item in the inventory with a count below 1
    (in particular none with 0), and [has_item] holds exactly for the items
    that are present with at least one use. *)
Theorem inventory_counts_stay_positive (t : Trainer) (cs : list TrainerCall) :
  stocked (trainer_inventory t) →
  Forall adds_uses cs →
  (∀ item, Py.get (trainer_inventory (Trainer_calls t cs)) item ≠ Some 0)
  ∧ (∀ item uses,
       Py.get (trainer_inventory (Trainer_calls t cs)) item = Some uses →
       1 <= uses)
  ∧ (∀ item,
       Trainer_has_item item (Trainer_calls t cs) = true ↔
       ∃ uses, Py.get (trainer_inventory (Trainer_calls t cs)) item = Some uses
               ∧ 1 <= uses).
Proof.
  intros Hinv Hcs.
  pose proof (Trainer_calls_stocked cs t Hcs Hinv) as Hfinal.
  split; [|split].
  - intros item Hget. apply (stocked_get _ _ _ Hfinal) in Hget. lia.
  - intros item uses. apply stocked_get, Hfinal.
  - intros item. unfold Trainer_has_item, Py.contains.
    destruct (Py.get _ item) as [n|] eqn:Hget.
    + split; [intros _|done]. exists n. split; [done|].
      by apply (stocked_get _ _ _ Hfinal) in Hget.
    + split; [done|]. by intros (uses & [=] & _).
Qed.

(** The history of the docstring of [add_item]: one use added and used up,
    then three and four more. *)
Lemma inventory_counts_stay_positive_witness :
  Py.get
    (trainer_inventory
       (Trainer_calls (Trainer_init "Ash")
          [add_item Sample.food 1; use_item Sample.food;
           add_item Sample.food 3; add_item Sample.food 4]))
    Sample.food ≠ Some 0.
Proof.
  refine (proj1 (inventory_counts_stay_positive (Trainer_init "Ash") _ _ _) _).
  - constructor.
  - repeat constructor; simpl; lia.
Defined.

(** C8, as stated, fails once [add_item] is called with no use to add: the
    item is stored with the count 0 and [has_item] holds for it. *)
Lemma add_item_zero_uses_is_stored :
  Py.get
    (trainer_inventory
       (Trainer_calls (Trainer_init "Ash") [add_item Sample.food 0]))
    Sample.food = Some 0
  ∧ Trainer_has_item Sample.food
      (Trainer_calls (Trainer_init "Ash") [add_item Sample.food 0]) = true.
Proof. split; reflexivity. Qed.

(** ** Selecting a pokemon *)

Lemma getitem_out_of_range {A : Type} (l : list A) (i : Z) :
  Z.of_nat (length l) <= i ∨ i < - Z.of_nat (length l) →
  Py.getitem l i = Raise IndexError.
Proof.
  intros Hout. unfold Py.getitem. cbv zeta.
  destruct (Z.ltb_spec i 0) as [Hneg|Hpos].
  - destruct (Z.ltb_spec (i + Z.of_nat (length l)) 0); [done|lia].
  - destruct (Z.ltb_spec i 0); [lia|].
    destruct (Z.leb_spec (Z.of_nat (length l)) i); [done|lia].
Qed.

Lemma getitem_in_range {A : Type} (l : list A) (i : Z) :
  0 <= i < Z.of_nat (length l) →
  ∃ x, l !! Z.to_nat i = Some x ∧ Py.getitem l i = Ok x.
Proof.
  intros Hin. unfold Py.getitem. cbv zeta.
  destruct (Z.ltb_spec i 0) as [Hneg|Hpos]; [lia|].
  destruct (Z.ltb_spec i 0); [lia|].
  destruct (Z.leb_spec (Z.of_nat (length l)) i); [lia|]. simpl.
  destruct (lookup_lt_is_Some_2 l (Z.to_nat i)) as [x Hx]; [lia|].
  exists x. rewrite Hx. by split.
Qed.

Lemma getitem_from_the_end {A : Type} (l : list A) (i : Z) :
  - Z.of_nat (length l) <= i < 0 →
  ∃ x, l !! Z.to_nat (Z.of_nat (length l) + i) = Some x
       ∧ Py.getitem l i = Ok x.
Proof.
  intros Hin. unfold Py.getitem. cbv zeta.
  destruct (Z.ltb_spec i 0) as [Hneg|Hpos]; [|lia].
  destruct (Z.ltb_spec (i + Z.of_nat (length l)) 0); [lia|].
  destruct (Z.leb_spec (Z.of_nat (length l)) (i + Z.of_nat (length l)));
    [lia|]. simpl.
  replace (i + Z.of_nat (length l)) with (Z.of_nat (length l) + i) by lia.
  destruct (lookup_lt_is_Some_2 l (Z.to_nat (Z.of_nat (length l) + i)))
    as [x Hx]; [lia|].
  exists x. rewrite Hx. by split.
Qed.

Lemma getitem_raises {A : Type} (l : list A) (i : Z) (e : Exception) :
  Py.getitem l i = Raise e → e = IndexError.
Proof.
  unfold Py.getitem. cbv zeta.
  destruct (_ || _); [by intros [=]|].
  destruct (l !! _); [done|by intros [=]].
Qed.

Lemma NoPokemonException_iff_unselected (t : Trainer) :
  Trainer_get_current_pokemon t = Raise NoPokemonException ↔
  trainer_selected_pokemon t = None.
Proof.
  unfold Trainer_get_current_pokemon.
  destruct (trainer_selected_pokemon t) as [index|]; [|done].
  split; [|done]. intros Hraise. by apply getitem_raises in Hraise.
Qed.

Lemma Trainer_add_pokemon_selects r t :
  ∃ index, trainer_selected_pokemon (Trainer_add_pokemon r t) = Some index.
Proof.
  unfold Trainer_add_pokemon. simpl.
  destruct (trainer_selected_pokemon t) as [index|] eqn:Hsel; simpl; eauto.
Qed.

Lemma Trainer_use_item_selected item t :
  trainer_selected_pokemon (Trainer_use_item item t)
  = trainer_selected_pokemon t.
Proof.
  unfold Trainer_use_item.
  destruct (Py.get _ _); [destruct (_ =? _)|]; done.
Qed.

Lemma Trainer_call_unselected t c :
  trainer_selected_pokemon (Trainer_call t c) = None ↔
  trainer_selected_pokemon t = None ∧ inventory_call c.
Proof.
  destruct c as [r|index|item uses|item]; simpl.
  - destruct (Trainer_add_pokemon_selects r t) as [index ->].
    split; [done|by intros [_ ?]].
  - split; [done|by intros [_ ?]].
  - tauto.
  - rewrite Trainer_use_item_selected. tauto.
Qed.

Lemma Trainer_calls_unselected cs : ∀ t,
  trainer_selected_pokemon (Trainer_calls t cs) = None ↔
  trainer_selected_pokemon t = None ∧ Forall inventory_call cs.
Proof.
  induction cs as [|c cs IH]; intros t; simpl.
  - split; [by intros ->|by intros [-> _]].
  - rewrite IH, Forall_cons, Trainer_call_unselected. tauto.
Qed.

(** C10, as amended: [switch_pokemon] sets the selection to any index and
    touches nothing else.  [get_current_pokemon] then raises [IndexError]
    when the index is at or past the length of the roster or below minus that
    length, returns the pokemon at the index when it lies within the roster,
    and returns the pokemon counted from the end when it is negative but not
    below minus the length.  [NoPokemonException] is raised exactly when the
    selection is still unset, which for a new trainer means that neither
    [add_pokemon] nor [switch_pokemon] was ever called. *)
Theorem switch_pokemon_is_unchecked (index : Z) (t : Trainer) :
  Trainer_switch_pokemon index t
  = mkTrainer (trainer_name t) (Some index) (trainer_pokemon t)
      (trainer_inventory t)
  ∧ (Z.of_nat (length (trainer_pokemon t)) <= index
     ∨ index < - Z.of_nat (length (trainer_pokemon t)) →
     Trainer_get_current_pokemon (Trainer_switch_pokemon index t)
     = Raise IndexError)
  ∧ (0 <= index < Z.of_nat (length (trainer_pokemon t)) →
     ∃ r, trainer_pokemon t !! Z.to_nat index = Some r
          ∧ Trainer_get_current_pokemon (Trainer_switch_pokemon index t) = Ok r)
  ∧ (- Z.of_nat (length (trainer_pokemon t)) <= index < 0 →
     ∃ r, trainer_pokemon t
            !! Z.to_nat (Z.of_nat (length (trainer_pokemon t)) + index)
          = Some r
          ∧ Trainer_get_current_pokemon (Trainer_switch_pokemon index t) = Ok r)
  ∧ (Trainer_get_current_pokemon t = Raise NoPokemonException ↔
     trainer_selected_pokemon t = None)
  ∧ (∀ name cs,
       Trainer_get_current_pokemon (Trainer_calls (Trainer_init name) cs)
       = Raise NoPokemonException ↔
       Forall inventory_call cs).
Proof.
  split; [done|]. split; [|split; [|split; [|split]]].
  - apply getitem_out_of_range.
  - apply getitem_in_range.
  - apply getitem_from_the_end.
  - apply NoPokemonException_iff_unselected.
  - intros name cs.
    rewrite NoPokemonException_iff_unselected, Trainer_calls_unselected.
    simpl. tauto.
Qed.

(** Brock has two pokemon: index 5 is out of range, index 1 is Onix, and so
    is index -1. *)
Lemma switch_pokemon_is_unchecked_witness :
  Trainer_get_current_pokemon (Trainer_switch_pokemon 5 Sample.brock)
  = Raise IndexError
  ∧ (∃ r, trainer_pokemon Sample.brock !! Z.to_nat 1 = Some r
          ∧ Trainer_get_current_pokemon (Trainer_switch_pokemon 1 Sample.brock)
            = Ok r)
  ∧ (∃ r, trainer_pokemon Sample.brock
            !! Z.to_nat (Z.of_nat (length (trainer_pokemon Sample.brock)) + -1)
          = Some r
          ∧ Trainer_get_current_pokemon
              (Trainer_switch_pokemon (-1) Sample.brock)
            = Ok r).
Proof.
  split; [|split].
  - apply (proj1 (proj2 (switch_pokemon_is_unchecked 5 Sample.brock))).
    left. vm_compute. discriminate.
  - apply (proj1 (proj2 (proj2 (switch_pokemon_is_unchecked 1 Sample.brock)))).
    split; vm_compute; [discriminate|reflexivity].
  - apply (proj1 (proj2 (proj2 (proj2
             (switch_pokemon_is_unchecked (-1) Sample.brock))))).
    split; vm_compute; [discriminate|reflexivity].
Defined.

(** C10, as stated, fails on a negative index: [-1] is out of bounds for
    [can_switch_pokemon], yet after [switch_pokemon(-1)] the current pokemon
    is the last of the roster.  And a trainer to whom no pokemon was ever
    added raises [IndexError], not [NoPokemonException], once
    [switch_pokemon] was called. *)
Lemma switch_pokemon_negative_index_selects :
  Trainer_can_switch_pokemon Sample.store (-1) Sample.brock = false
  ∧ Trainer_get_current_pokemon (Trainer_switch_pokemon (-1) Sample.brock)
    = Ok 2%nat
  ∧ Trainer_get_current_pokemon
      (Trainer_switch_pokemon 0 (Trainer_init "Brock"))
    = Raise IndexError.
Proof. repeat split; reflexivity. Qed.

(** ** The moves a pokemon knows *)

Lemma keys_learned (ks : list Move) : Py.keys (map learned ks) = ks.
Proof.
  unfold Py.keys. induction ks as [|k ks IH]; simpl; [done|]. by f_equal.
Qed.

Lemma take_app_full {A : Type} (n : nat) (l1 l2 : list A) :
  length l1 = n → take n (l1 ++ l2) = l1.
Proof. intros <-. by rewrite take_app_length. Qed.

(** The loop of [Pokemon.__init__], from a pokemon that knows [ks]. *)
Lemma learn_loop (moves : list Move) : ∀ (p : Pokemon) (ks : list Move),
  pokemon_moves p = map learned ks →
  (length ks ≤ 4)%nat →
  pokemon_moves
    (fold_left
       (fun self move =>
          if Pokemon_can_learn_move move self then Pokemon_learn_move move self
          else self)
       moves p)
  = map learned (take 4 (ks ++ first_occurrences ks moves)).
Proof.
  induction moves as [|m moves IH]; intros p ks Hp Hlen; simpl.
  - rewrite app_nil_r, take_ge by lia. done.
  - unfold Pokemon_can_learn_move at 2. rewrite Hp, length_map.
    unfold MAXIMUM_MOVE_SLOTS.
    destruct (4 <=? Z.of_nat (length ks)) eqn:Hfull.
    + apply Z.leb_le in Hfull.
      rewrite (IH p ks Hp Hlen).
      rewrite !take_app_full by lia. done.
    + apply Z.leb_gt in Hfull.
      destruct (decide (m ∈ ks)) as [Hin|Hnotin].
      * replace (Py.contains (map learned ks) m) with true; simpl.
        { by apply IH. }
        symmetry. apply contains_keys. by rewrite keys_learned.
      * replace (Py.contains (map learned ks) m) with false; simpl.
        { rewrite (IH _ (ks ++ [m])).
          - by rewrite <- app_assoc.
          - unfold Pokemon_learn_move; simpl. rewrite Hp.
            rewrite set_absent.
            + by rewrite map_app.
            + apply get_None_keys. by rewrite keys_learned.
          - rewrite length_app; simpl. lia. }
        symmetry. apply not_true_is_false. rewrite contains_keys.
        by rewrite keys_learned.
Qed.

Lemma elem_of_first_occurrences {A : Type} `{EqDecision A} (l : list A) :
  ∀ seen x, x ∈ first_occurrences seen l ↔ x ∈ l ∧ x ∉ seen.
Proof.
  induction l as [|y l IH]; intros seen x; simpl.
  - split; [by intros ?%elem_of_nil|by intros [?%elem_of_nil _]].
  - destruct (decide (y ∈ seen)) as [Hin|Hnotin].
    + rewrite IH, elem_of_cons. split; [tauto|].
      intros [[->|Hx] Hnot]; [done|tauto].
    + rewrite elem_of_cons, IH, elem_of_app, list_elem_of_singleton, elem_of_cons.
      split.
      * intros [->|(? & ?)]; [tauto|]. tauto.
      * intros [[->|Hx] Hnot]; [tauto|].
        destruct (decide (x = y)); [tauto|]. right. tauto.
Qed.

Lemma NoDup_first_occurrences {A : Type} `{EqDecision A} (l : list A) :
  ∀ seen, NoDup (first_occurrences seen l).
Proof.
  induction l as [|y l IH]; intros seen; simpl; [constructor|].
  destruct (decide (y ∈ seen)); [done|].
  constructor; [|done].
  rewrite elem_of_first_occurrences, elem_of_app, list_elem_of_singleton. tauto.
Qed.

Lemma Pokemon_call_at_most_four (p : Pokemon) (c : MoveCall) :
  match c with
  | learn_move m => Pokemon_can_learn_move m p = true
  | forget_move _ => True
  end →
  (length (pokemon_moves p) ≤ 4)%nat →
  (length (pokemon_moves (Pokemon_call p c)) ≤ 4)%nat.
Proof.
  destruct c as [m|m]; simpl; intros Hcan Hlen.
  - unfold Pokemon_can_learn_move, MAXIMUM_MOVE_SLOTS in Hcan.
    destruct (Z.leb_spec 4 (Z.of_nat (length (pokemon_moves p)))); [done|].
    pose proof (set_length (pokemon_moves p) m (Move_get_max_uses m)). lia.
  - unfold Pokemon_forget_move.
    destruct (Py.contains _ _); simpl; [|done].
    pose proof (pop_length (pokemon_moves p) m). lia.
Qed.

Lemma Pokemon_calls_at_most_four (cs : list MoveCall) : ∀ p,
  respects_can_learn_move p cs →
  (length (pokemon_moves p) ≤ 4)%nat →
  (length (pokemon_moves (fold_left Pokemon_call cs p)) ≤ 4)%nat.
Proof.
  induction cs as [|c cs IH]; intros p Hcs Hlen; simpl; [done|].
  destruct Hcs as [Hc Hcs]. apply IH; [done|].
  by apply Pokemon_call_at_most_four.
Qed.

(** C9: the constructor learns, in the order of the list, the first four
    distinct moves of it, each with its maximum uses, and skips the others;
    so a new pokemon knows at most four moves, no move twice, and it still
    knows at most four after any history of [learn_move] and [forget_move]
    calls in which each [learn_move] is made while [can_learn_move] holds. *)
Theorem pokemon_knows_at_most_four_moves (name : string) (stats : Stats)
    (element_type : string) (moves : list Move) (level : Z)
    (cs : list MoveCall) :
  respects_can_learn_move (Pokemon_init name stats element_type moves level) cs →
  pokemon_moves (Pokemon_init name stats element_type moves level)
  = map learned (take 4 (first_occurrences [] moves))
  ∧ NoDup (Py.keys (pokemon_moves
                      (Pokemon_init name stats element_type moves level)))
  ∧ (length (pokemon_moves (Pokemon_init name stats element_type moves level))
     ≤ 4)%nat
  ∧ (length
       (pokemon_moves
          (fold_left Pokemon_call cs
             (Pokemon_init name stats element_type moves level)))
     ≤ 4)%nat.
Proof.
  intros Hcs.
  assert (Hinit : pokemon_moves (Pokemon_init name stats element_type moves level)
                  = map learned (take 4 (first_occurrences [] moves))).
  { unfold Pokemon_init. rewrite (learn_loop moves _ []); simpl; [done|done|lia]. }
  assert (Hlen : (length (pokemon_moves
                            (Pokemon_init name stats element_type moves level))
                  ≤ 4)%nat).
  { rewrite Hinit, length_map, length_take. lia. }
  split; [done|]. split; [|split; [done|]].
  - rewrite Hinit, keys_learned.
    apply (sublist_NoDup _ (first_occurrences [] moves)).
    + apply NoDup_first_occurrences.
    + apply sublist_take.
  - by apply Pokemon_calls_at_most_four.
Qed.

(** Six moves are offered, one of them twice; a move is then forgotten and
    another one learned. *)
Lemma pokemon_knows_at_most_four_moves_witness :
  (length
     (pokemon_moves
        (fold_left Pokemon_call
           [forget_move Sample.tackle; learn_move Sample.surf]
           (Pokemon_init "Pikachu" (mkStats 1 100 200 200) "electric"
              [Sample.tackle; Sample.toxic; Sample.tackle; Sample.meditate;
               Sample.quick_attack; Sample.surf] 5)))
   ≤ 4)%nat.
Proof.
  refine (proj2 (proj2 (proj2
            (pokemon_knows_at_most_four_moves _ _ _ _ _ _ _)))).
  vm_compute. repeat split.
Defined.

(** ** What an action leaves alone *)

(** Case analysis on the outcome of every call an action is made of. *)
Ltac outcomes H :=
  unfold mbind, Res_bind in H;
  repeat (case_match; simplify_eq);
  simplify_eq.

Lemma same_round_refl b : same_round b b.
Proof. done. Qed.

Lemma same_round_trans b1 b2 b3 :
  same_round b1 b2 → same_round b2 b3 → same_round b1 b3.
Proof. unfold same_round. intros (-> & -> & ->) (-> & -> & ->). done. Qed.

Lemma same_round_with_trainer is_player t b :
  same_round b (with_trainer is_player t b).
Proof. by destruct is_player. Qed.

Lemma same_round_on_pokemon r method b : same_round b (on_pokemon r method b).
Proof. done. Qed.

Lemma same_round_attempt_end_early b :
  same_round b (Battle_attempt_end_early b).
Proof. unfold Battle_attempt_end_early. by destruct (negb _). Qed.

Create HintDb frame.
#[local] Hint Resolve same_round_refl same_round_with_trainer
  same_round_on_pokemon same_round_attempt_end_early : frame.

(** The setters that are left after [outcomes], taken one at a time. *)
Ltac frame :=
  repeat first
    [ by auto with frame
    | eapply same_round_trans; [|by auto with frame] ].

Lemma Flee_apply_same_round b is_player b' summary :
  Flee_apply b is_player = Ok (b', summary) → same_round b b'.
Proof. intros [= <- _]. auto with frame. Qed.

Lemma SwitchPokemon_apply_same_round index b is_player b' summary :
  SwitchPokemon_apply index b is_player = Ok (b', summary) → same_round b b'.
Proof.
  unfold SwitchPokemon_apply. intros H. outcomes H; auto with frame.
Qed.

Lemma Pokeball_apply_same_round self chance roll b is_player b' summary :
  Pokeball_apply self chance roll b is_player = Ok (b', summary) →
  same_round b b'.
Proof.
  unfold Pokeball_apply, Item_decrement_item_count. intros H.
  outcomes H; frame.
Qed.

Lemma Food_apply_same_round self health b is_player b' summary :
  Food_apply self health b is_player = Ok (b', summary) → same_round b b'.
Proof.
  unfold Food_apply, Item_decrement_item_count. intros H.
  outcomes H; frame.
Qed.

Section frame.
Variable effectiveness : string -> string -> Py.num.
Variable float_cube_root : Z -> Z.

Lemma Move_apply_ally_effects_same_round self b is_player b' summary :
  Move_apply_ally_effects self b is_player = Ok (b', summary) →
  same_round b b'.
Proof.
  unfold Move_apply_ally_effects, Buff_apply_ally_effects. intros H.
  outcomes H; auto with frame.
Qed.

Lemma Move_apply_enemy_effects_same_round self roll b is_player b' summary :
  Move_apply_enemy_effects effectiveness float_cube_root self roll b is_player
  = Ok (b', summary) →
  same_round b b'.
Proof.
  unfold Move_apply_enemy_effects, Attack_apply_enemy_effects,
    Debuff_apply_enemy_effects.
  intros H. outcomes H; frame.
Qed.

Lemma Move_apply_same_round self roll b is_player b' summary :
  Move_apply effectiveness float_cube_root self roll b is_player
  = Ok (b', summary) →
  same_round b b'.
Proof.
  unfold Move_apply. intros H. unfold mbind, Res_bind in H.
  destruct (Trainer_get_current_pokemon _) as [pokemon|]; [|done].
  destruct (Move_apply_ally_effects _ _ _) as [[b1 ally]|] eqn:Hally; [|done].
  destruct (Move_apply_enemy_effects _ _ _ _ _ _) as [[b2 enemy]|] eqn:Henemy;
    [|done].
  destruct (Trainer_get_current_pokemon _) as [current|]; [|done].
  simplify_eq.
  apply Move_apply_ally_effects_same_round in Hally.
  apply Move_apply_enemy_effects_same_round in Henemy.
  eapply same_round_trans; [|apply same_round_on_pokemon].
  by eapply same_round_trans.
Qed.

Lemma Action_apply_same_round a roll b is_player b' summary :
  Action_apply effectiveness float_cube_root a roll b is_player
  = Ok (b', summary) →
  same_round b b'.
Proof.
  destruct a as [|index|item|move]; simpl.
  - apply Flee_apply_same_round.
  - apply SwitchPokemon_apply_same_round.
  - destruct (item_kind item).
    + apply Pokeball_apply_same_round.
    + apply Food_apply_same_round.
  - apply Move_apply_same_round.
Qed.

End frame.

(** ** The queue *)

Lemma on_pokemon_store_eq r method b :
  battle_store (on_pokemon r method b) r = method (battle_store b r).
Proof.
  unfold on_pokemon, with_store. cbn [battle_store]. apply fn_lookup_insert.
Qed.

Lemma on_pokemon_store_ne r r' method b :
  r ≠ r' → battle_store (on_pokemon r method b) r' = battle_store b r'.
Proof.
  intros Hne. unfold on_pokemon, with_store. cbn [battle_store].
  by apply fn_lookup_insert_ne.
Qed.

Lemma on_pokemon_enemy r method b :
  battle_enemy (on_pokemon r method b) = battle_enemy b.
Proof. done. Qed.

Lemma sort_actions_only_sorts b :
  ∀ q, with_action_queue q (Battle_sort_actions b) = with_action_queue q b.
Proof.
  intros q. unfold Battle_sort_actions. by destruct (negb _).
Qed.

Lemma sort_actions_pair b x y :
  battle_action_queue b = [x; y] →
  battle_action_queue (Battle_sort_actions b)
  = if Action_get_priority x.1 <=? Action_get_priority y.1
    then [x; y] else [y; x].
Proof.
  intros Hq. unfold Battle_sort_actions, Battle_is_action_queue_full.
  rewrite Hq. simpl. by destruct (_ <=? _).
Qed.

Lemma sort_actions_not_full b :
  length (battle_action_queue b) ≠ 2%nat → Battle_sort_actions b = b.
Proof.
  intros Hlen. unfold Battle_sort_actions, Battle_is_action_queue_full.
  by destruct (Nat.eqb_spec (length (battle_action_queue b)) 2).
Qed.

Section turns.
Variable effectiveness : string -> string -> Py.num.
Variable float_cube_root : Z -> Z.

Abbreviation enact_turn := (Battle_enact_turn effectiveness float_cube_root).
Abbreviation apply_action := (Action_apply effectiveness float_cube_root).

(** [enact_turn] takes the head of the sorted queue and resolves it in the
    battle whose queue is the rest. *)
Lemma enact_turn_resolve roll b entry rest :
  battle_action_queue (Battle_sort_actions b) = entry :: rest →
  enact_turn roll b
  = resolve effectiveness float_cube_root roll entry (with_action_queue rest b).
Proof.
  intros Hq. unfold Battle_enact_turn.
  assert (Battle_is_action_queue_empty b = false) as ->.
  { unfold Battle_is_action_queue_empty.
    destruct (battle_action_queue b) as [|x q] eqn:Hb; [|done].
    rewrite sort_actions_not_full in Hq by (by rewrite Hb). congruence. }
  cbv zeta. rewrite Hq. destruct entry as [next_action is_player].
  by rewrite sort_actions_only_sorts.
Qed.

(** C1, as amended: when the action at the head of the queue is found
    invalid on re-validation, [enact_turn] takes it off the queue, returns no
    summary, and changes nothing else: the turn stays as it was (it does not
    advance) and no post-round upkeep runs. *)
Theorem enact_turn_discards_stale_action (roll : Q) (b : Battle)
    (next_action : Action) (is_player : bool) (rest : list (Action * bool)) :
  battle_action_queue (Battle_sort_actions b) = (next_action, is_player) :: rest →
  Action_is_valid next_action (with_action_queue rest b) is_player = Ok false →
  ∃ b', enact_turn roll b = Ok (b', None)
        ∧ b' = with_action_queue rest b
        ∧ battle_action_queue b' = rest
        ∧ battle_turn b' = battle_turn b
        ∧ battle_store b' = battle_store b
        ∧ battle_player b' = battle_player b
        ∧ battle_enemy b' = battle_enemy b
        ∧ battle_finished_early b' = battle_finished_early b.
Proof.
  intros Hq Hvalid. exists (with_action_queue rest b).
  split; [|done].
  rewrite (enact_turn_resolve _ _ _ _ Hq). unfold resolve.
  by rewrite Hvalid.
Qed.

Lemma tick_modifiers_filter_map (l : list (Stats * Z)) :
  tick_modifiers l
  = map (fun entry => (entry.1, entry.2 - 1))
      (filter (fun entry => 1 < entry.2) l).
Proof.
  induction l as [|[modifier rounds] l IH]; simpl; [done|].
  rewrite filter_cons. simpl.
  destruct (Z.ltb_spec 1 rounds).
  - rewrite decide_True by done. simpl. by rewrite IH.
  - rewrite decide_False by lia. done.
Qed.

Lemma post_round_actions_modifiers (p : Pokemon) :
  pokemon_stat_modifiers (Pokemon_post_round_actions p)
  = tick_modifiers (pokemon_stat_modifiers p).
Proof. done. Qed.

Lemma tick_modifiers_twice (l : list (Stats * Z)) :
  tick_modifiers (tick_modifiers l)
  = map (fun entry => (entry.1, entry.2 - 2))
      (filter (fun entry => 2 < entry.2) l).
Proof.
  induction l as [|[modifier rounds] l IH]; simpl; [done|].
  rewrite filter_cons. simpl.
  destruct (Z.ltb_spec 1 rounds); simpl.
  - destruct (Z.ltb_spec 1 (rounds - 1)).
    + rewrite decide_True by lia. simpl. rewrite IH. do 2 f_equal. lia.
    + by rewrite decide_False by lia.
  - by rewrite decide_False by lia.
Qed.

(** C2, as amended: when [enact_turn] performs a valid action, the
    post-round upkeep runs if and only if this was the second action of the
    round.  After the first action (the turn was unset) the battle is exactly
    what the action left, with the turn now waiting on the other side: no
    modifier has ticked.  After the second action (the turn was waiting) the
    turn is unset again and [post_round_actions] has run on the current
    pokemon of the player and then on the current pokemon of the enemy; no
    other pokemon is touched.  When these are two pokemon, it has run once on
    each: each timed modifier with more than one round left has one round
    less, every other one is gone.  When one pokemon is the current pokemon
    of both sides, it has run twice on it: each modifier with more than two
    rounds left has two rounds less, every other one is gone. *)
Theorem enact_turn_upkeep_once_per_round (roll : Q) (b : Battle)
    (next_action : Action) (is_player : bool) (rest : list (Action * bool))
    (b3 : Battle) (result : ActionSummary) :
  battle_action_queue (Battle_sort_actions b) = (next_action, is_player) :: rest →
  Action_is_valid next_action (with_action_queue rest b) is_player = Ok true →
  apply_action next_action roll (with_action_queue rest b) is_player
  = Ok (b3, result) →
  (battle_turn b = None →
   enact_turn roll b = Ok (with_turn (Some (negb is_player)) b3, Some result))
  ∧ (∀ (turn : bool) (p q : PokemonRef),
       battle_turn b = Some turn →
       Trainer_get_current_pokemon (battle_player b3) = Ok p →
       Trainer_get_current_pokemon (battle_enemy b3) = Ok q →
       ∃ b', enact_turn roll b = Ok (b', Some result)
             ∧ battle_turn b' = None
             ∧ battle_player b' = battle_player b3
             ∧ battle_enemy b' = battle_enemy b3
             ∧ (∀ r, r ≠ p → r ≠ q → battle_store b' r = battle_store b3 r)
             ∧ (p ≠ q →
                battle_store b' p
                = Pokemon_post_round_actions (battle_store b3 p)
                ∧ battle_store b' q
                  = Pokemon_post_round_actions (battle_store b3 q)
                ∧ pokemon_stat_modifiers (battle_store b' p)
                  = map (fun entry => (entry.1, entry.2 - 1))
                      (filter (fun entry => 1 < entry.2)
                         (pokemon_stat_modifiers (battle_store b3 p)))
                ∧ pokemon_stat_modifiers (battle_store b' q)
                  = map (fun entry => (entry.1, entry.2 - 1))
                      (filter (fun entry => 1 < entry.2)
                         (pokemon_stat_modifiers (battle_store b3 q))))
             ∧ (p = q →
                battle_store b' p
                = Pokemon_post_round_actions
                    (Pokemon_post_round_actions (battle_store b3 p))
                ∧ pokemon_stat_modifiers (battle_store b' p)
                  = map (fun entry => (entry.1, entry.2 - 2))
                      (filter (fun entry => 2 < entry.2)
                         (pokemon_stat_modifiers (battle_store b3 p))))).
Proof.
  intros Hq Hvalid Happly.
  pose proof (Action_apply_same_round _ _ _ _ _ _ _ _ Happly) as (Hturn & _ & _).
  simpl in Hturn.
  rewrite (enact_turn_resolve _ _ _ _ Hq). unfold resolve.
  rewrite Hvalid. simpl. rewrite Happly. simpl.
  unfold Battle_update_turn. rewrite Hturn.
  split.
  - intros ->. done.
  - intros turn p q -> Hp Hq'.
    change (battle_turn (with_turn None b3)) with (@None bool).
    change (battle_player (with_turn None b3)) with (battle_player b3).
    change (battle_enemy (with_turn None b3)) with (battle_enemy b3).
    rewrite Hp, Hq'. cbn [mbind Res_bind].
    eexists. split; [done|].
    split; [done|]. split; [done|]. split; [done|].
    split; [intros r Hrp Hrq; by rewrite !on_pokemon_store_ne|].
    split.
    + intros Hne.
      rewrite (on_pokemon_store_ne q p) by done.
      rewrite !on_pokemon_store_eq.
      rewrite (on_pokemon_store_ne p q) by done.
      change (battle_store (with_turn None b3)) with (battle_store b3).
      split; [done|]. split; [done|].
      by rewrite !post_round_actions_modifiers, !tick_modifiers_filter_map.
    + intros <-. rewrite !on_pokemon_store_eq.
      change (battle_store (with_turn None b3)) with (battle_store b3).
      split; [done|].
      by rewrite !post_round_actions_modifiers, tick_modifiers_twice.
Qed.

End turns.

(** The second call of [enact_turn] in the round in which Geodude fainted:
    Brock's tackle is stale and is dropped. *)
Lemma enact_turn_discards_stale_action_witness :
  ∃ b', Battle_enact_turn Sample.no_effectiveness floor_cube_root 0
          Sample.stale_after_first = Ok (b', None)
        ∧ b' = with_action_queue [] Sample.stale_after_first
        ∧ battle_action_queue b' = []
        ∧ battle_turn b' = battle_turn Sample.stale_after_first
        ∧ battle_store b' = battle_store Sample.stale_after_first
        ∧ battle_player b' = battle_player Sample.stale_after_first
        ∧ battle_enemy b' = battle_enemy Sample.stale_after_first
        ∧ battle_finished_early b'
          = battle_finished_early Sample.stale_after_first.
Proof.
  apply (enact_turn_discards_stale_action Sample.no_effectiveness
           floor_cube_root 0 Sample.stale_after_first
           (MoveAction Sample.tackle) false []).
  - vm_compute. reflexivity.
  - vm_compute. reflexivity.
Defined.

(** C1, as stated, fails in that round.  After Ash's Quick Attack the turn is
    waiting on Brock, whose queued tackle has become invalid because Geodude
    fainted (the battle is not over: Onix is left).  [enact_turn] returns no
    summary and the turn is still waiting on Brock: it has not reverted to
    unset. *)
Lemma stale_action_does_not_advance_turn :
  battle_turn Sample.stale_after_first = Some false
  ∧ battle_action_queue Sample.stale_after_first
    = [(MoveAction Sample.tackle, false)]
  ∧ Battle_is_over Sample.stale_after_first = false
  ∧ Action_is_valid (MoveAction Sample.tackle)
      (with_action_queue [] Sample.stale_after_first) false = Ok false
  ∧ ∃ b', Battle_enact_turn Sample.no_effectiveness floor_cube_root 0
            Sample.stale_after_first = Ok (b', None)
          ∧ battle_turn b' = Some false
          ∧ battle_action_queue b' = [].
Proof.
  repeat split; try (vm_compute; reflexivity).
  exists (with_action_queue [] Sample.stale_after_first).
  repeat split; vm_compute; reflexivity.
Qed.

(** The second call of [enact_turn] in the round of Brock's toxic and Ash's
    meditate: the modifiers of Pikachu and of Geodude tick once. *)
Lemma enact_turn_upkeep_once_per_round_witness :
  ∃ b', Battle_enact_turn Sample.no_effectiveness floor_cube_root 0
          Sample.status_after_first
        = Ok (b', Some ["Pikachu used meditate.";
                        "Pikachu was buffed for 5 turns."])
        ∧ battle_turn b' = None
        ∧ battle_player b' = battle_player Sample.status_second_applied
        ∧ battle_enemy b' = battle_enemy Sample.status_second_applied
        ∧ (∀ r, r ≠ 0%nat → r ≠ 1%nat →
             battle_store b' r = battle_store Sample.status_second_applied r)
        ∧ (0%nat ≠ 1%nat →
           battle_store b' 0%nat
           = Pokemon_post_round_actions
               (battle_store Sample.status_second_applied 0%nat)
           ∧ battle_store b' 1%nat
             = Pokemon_post_round_actions
                 (battle_store Sample.status_second_applied 1%nat)
           ∧ pokemon_stat_modifiers (battle_store b' 0%nat)
             = map (fun entry => (entry.1, entry.2 - 1))
                 (filter (fun entry => 1 < entry.2)
                    (pokemon_stat_modifiers
                       (battle_store Sample.status_second_applied 0%nat)))
           ∧ pokemon_stat_modifiers (battle_store b' 1%nat)
             = map (fun entry => (entry.1, entry.2 - 1))
                 (filter (fun entry => 1 < entry.2)
                    (pokemon_stat_modifiers
                       (battle_store Sample.status_second_applied 1%nat))))
        ∧ (0%nat = 1%nat →
           battle_store b' 0%nat
           = Pokemon_post_round_actions
               (Pokemon_post_round_actions
                  (battle_store Sample.status_second_applied 0%nat))
           ∧ pokemon_stat_modifiers (battle_store b' 0%nat)
             = map (fun entry => (entry.1, entry.2 - 2))
                 (filter (fun entry => 2 < entry.2)
                    (pokemon_stat_modifiers
                       (battle_store Sample.status_second_applied 0%nat)))).
Proof.
  refine (proj2
            (enact_turn_upkeep_once_per_round Sample.no_effectiveness
               floor_cube_root 0 Sample.status_after_first
               (MoveAction Sample.meditate) true []
               Sample.status_second_applied _ _ _ _)
            true 0%nat 1%nat _ _ _).
  - vm_compute. reflexivity.
  - vm_compute. reflexivity.
  - vm_compute. reflexivity.
  - vm_compute. reflexivity.
  - vm_compute. reflexivity.
  - vm_compute. reflexivity.
Defined.

(** The claim as it was stated fails when one pokemon is out on both sides.
    Pikachu is the current pokemon of Ash and of Gary; both use meditate, a
    buff for 5 rounds.  After the second action Pikachu carries the two
    buffs with 5 rounds each; the upkeep that closes the round runs once for
    each side, that is twice on Pikachu, and leaves each buff 3 rounds, not
    4. *)
Lemma same_pokemon_upkeep_runs_twice :
  Trainer_get_current_pokemon (battle_player Sample.mirror) = Ok 0%nat
  ∧ Trainer_get_current_pokemon (battle_enemy Sample.mirror) = Ok 0%nat
  ∧ battle_turn Sample.mirror_after_first = Some false
  ∧ Action_apply Sample.no_effectiveness floor_cube_root
      (MoveAction Sample.meditate) 0
      (with_action_queue [] Sample.mirror_after_first) false
    = Ok (Sample.mirror_second_applied,
          ["Pikachu used meditate."; "Pikachu was buffed for 5 turns."])
  ∧ pokemon_stat_modifiers (battle_store Sample.mirror_second_applied 0%nat)
    = [(mkStats (2 # 10) 100 100 100, 5); (mkStats (2 # 10) 100 100 100, 5)]
  ∧ ∃ b', Battle_enact_turn Sample.no_effectiveness floor_cube_root 0
            Sample.mirror_after_first
          = Ok (b', Some ["Pikachu used meditate.";
                          "Pikachu was buffed for 5 turns."])
          ∧ battle_turn b' = None
          ∧ pokemon_stat_modifiers (battle_store b' 0%nat)
            = [(mkStats (2 # 10) 100 100 100, 3);
               (mkStats (2 # 10) 100 100 100, 3)].
Proof.
  split; [reflexivity|]. split; [reflexivity|].
  split; [by vm_compute|]. split; [by vm_compute|]. split; [by vm_compute|].
  eexists. split; [by vm_compute|]. split; by vm_compute.
Qed.

(** ** Submitting an action *)

(** C3: [queue_action] returns with the battle unchanged when the trainer
    already has an action queued, or the battle is ready, or the action is
    not valid; when none of these holds it appends the pair of the action and
    the side to the queue and changes nothing else.  (When the validity check
    itself raises, the exception propagates.) *)
Theorem queue_action_rejects_or_appends (action : Action) (is_player : bool)
    (b : Battle) :
  (Battle_trainer_has_action_queued is_player b = true
   ∨ Battle_is_ready b = true
   ∨ Action_is_valid action b is_player = Ok false →
   Battle_queue_action action is_player b = Ok b)
  ∧ (Battle_trainer_has_action_queued is_player b = false →
     Battle_is_ready b = false →
     Action_is_valid action b is_player = Ok true →
     ∃ b', Battle_queue_action action is_player b = Ok b'
           ∧ battle_action_queue b'
             = battle_action_queue b ++ [(action, is_player)]
           ∧ battle_turn b' = battle_turn b
           ∧ battle_store b' = battle_store b
           ∧ battle_player b' = battle_player b
           ∧ battle_enemy b' = battle_enemy b
           ∧ battle_trainer_battle b' = battle_trainer_battle b
           ∧ battle_finished_early b' = battle_finished_early b)
  ∧ (∀ e,
       Battle_trainer_has_action_queued is_player b = false →
       Battle_is_ready b = false →
       Action_is_valid action b is_player = Raise e →
       Battle_queue_action action is_player b = Raise e).
Proof.
  unfold Battle_queue_action. split; [|split].
  - intros [Hqueued|[Hready|Hinvalid]].
    + by rewrite Hqueued.
    + rewrite Hready. by rewrite orb_true_r.
    + destruct (_ || _); [done|]. by rewrite Hinvalid.
  - intros -> -> ->. simpl. eexists. split; [done|]. done.
  - intros e -> -> ->. done.
Qed.

(** In the duel, Ash's flee is queued; a second flee of his is then
    declined. *)
Lemma queue_action_rejects_or_appends_witness :
  (∃ b', Battle_queue_action Flee true Sample.duel = Ok b'
         ∧ battle_action_queue b'
           = battle_action_queue Sample.duel ++ [(Flee, true)]
         ∧ battle_turn b' = battle_turn Sample.duel
         ∧ battle_store b' = battle_store Sample.duel
         ∧ battle_player b' = battle_player Sample.duel
         ∧ battle_enemy b' = battle_enemy Sample.duel
         ∧ battle_trainer_battle b' = battle_trainer_battle Sample.duel
         ∧ battle_finished_early b' = battle_finished_early Sample.duel)
  ∧ Battle_queue_action Flee true
      (with_action_queue [(Flee, true)] Sample.duel)
    = Ok (with_action_queue [(Flee, true)] Sample.duel).
Proof.
  split.
  - apply (proj1 (proj2 (queue_action_rejects_or_appends Flee true Sample.duel)));
      reflexivity.
  - apply (proj1 (queue_action_rejects_or_appends Flee true
                    (with_action_queue [(Flee, true)] Sample.duel))).
    left. reflexivity.
Defined.

(** ** The order of a round *)

Section order.
Variable effectiveness : string -> string -> Py.num.
Variable float_cube_root : Z -> Z.

Abbreviation enact_turn := (Battle_enact_turn effectiveness float_cube_root).
Abbreviation resolve_entry := (resolve effectiveness float_cube_root).

Lemma resolve_keeps_queue roll entry b b' summary :
  resolve_entry roll entry b = Ok (b', summary) →
  battle_action_queue b' = battle_action_queue b.
Proof.
  unfold resolve. destruct entry as [next_action is_player].
  unfold mbind, Res_bind.
  destruct (Action_is_valid _ _ _) as [[|]|]; [| |done].
  - destruct (Action_apply _ _ _ _ _ _) as [[b3 result]|] eqn:Happly; [|done].
    apply Action_apply_same_round in Happly as (_ & Hqueue & _).
    unfold Battle_update_turn.
    destruct (battle_turn b3); simpl.
    + destruct (Trainer_get_current_pokemon _); [|done].
      destruct (Trainer_get_current_pokemon _); [|done].
      by intros [= <- _].
    + by intros [= <- _].
  - by intros [= <- _].
Qed.

(** C6: with two entries queued, [x] submitted before [y], [enact_turn]
    resolves first the one whose priority value is lower, whichever was
    submitted first, and [x] when the two priorities are equal; the other
    entry is then alone in the queue and is what the next [enact_turn]
    resolves. *)
Theorem enact_turn_priority_order (roll : Q) (b : Battle)
    (x y : Action * bool) :
  battle_action_queue b = [x; y] →
  enact_turn roll b
  = resolve_entry roll (resolved_first x y)
      (with_action_queue [resolved_second x y] b)
  ∧ (∀ b1 summary,
       enact_turn roll b = Ok (b1, summary) →
       battle_action_queue b1 = [resolved_second x y]
       ∧ ∀ roll', enact_turn roll' b1
                  = resolve_entry roll' (resolved_second x y)
                      (with_action_queue [] b1))
  ∧ (Action_get_priority x.1 < Action_get_priority y.1 →
     resolved_first x y = x ∧ resolved_second x y = y)
  ∧ (Action_get_priority y.1 < Action_get_priority x.1 →
     resolved_first x y = y ∧ resolved_second x y = x)
  ∧ (Action_get_priority x.1 = Action_get_priority y.1 →
     resolved_first x y = x ∧ resolved_second x y = y).
Proof.
  intros Hq.
  assert (Hfirst : enact_turn roll b
                   = resolve_entry roll (resolved_first x y)
                       (with_action_queue [resolved_second x y] b)).
  { apply enact_turn_resolve. rewrite (sort_actions_pair b x y Hq).
    unfold resolved_first, resolved_second. by destruct (_ <=? _). }
  split; [done|]. split; [|unfold resolved_first, resolved_second; split; [|split]].
  - intros b1 summary Hb1. rewrite Hfirst in Hb1.
    apply resolve_keeps_queue in Hb1. simpl in Hb1.
    split; [done|]. intros roll'. apply enact_turn_resolve.
    rewrite sort_actions_not_full by (by rewrite Hb1). done.
  - intros Hlt. destruct (Z.leb_spec (Action_get_priority x.1)
                            (Action_get_priority y.1)); [done|lia].
  - intros Hlt. destruct (Z.leb_spec (Action_get_priority x.1)
                            (Action_get_priority y.1)); [lia|done].
  - intros Heq. destruct (Z.leb_spec (Action_get_priority x.1)
                            (Action_get_priority y.1)); [done|lia].
Qed.

End order.

(** Brock's toxic has priority 71 and Ash's tackle 101: toxic is resolved
    first whether it was submitted first or second. *)
Lemma enact_turn_priority_order_witness :
  Action_get_priority (MoveAction Sample.toxic) = 71
  ∧ Action_get_priority (MoveAction Sample.tackle) = 101
  ∧ Battle_enact_turn Sample.no_effectiveness floor_cube_root 0
      Sample.tackle_then_toxic
    = resolve Sample.no_effectiveness floor_cube_root 0
        (MoveAction Sample.toxic, false)
        (with_action_queue [(MoveAction Sample.tackle, true)]
           Sample.tackle_then_toxic)
  ∧ Battle_enact_turn Sample.no_effectiveness floor_cube_root 0
      Sample.toxic_then_tackle
    = resolve Sample.no_effectiveness floor_cube_root 0
        (MoveAction Sample.toxic, false)
        (with_action_queue [(MoveAction Sample.tackle, true)]
           Sample.toxic_then_tackle).
Proof.
  split; [reflexivity|]. split; [reflexivity|]. split.
  - exact (proj1 (enact_turn_priority_order Sample.no_effectiveness
                    floor_cube_root 0 Sample.tackle_then_toxic
                    (MoveAction Sample.tackle, true)
                    (MoveAction Sample.toxic, false) eq_refl)).
  - exact (proj1 (enact_turn_priority_order Sample.no_effectiveness
                    floor_cube_root 0 Sample.toxic_then_tackle
                    (MoveAction Sample.toxic, false)
                    (MoveAction Sample.tackle, true) eq_refl)).
Defined.

(** ** Pokeballs *)

Lemma Trainer_use_item_pokemon item t :
  trainer_pokemon (Trainer_use_item item t) = trainer_pokemon t.
Proof.
  unfold Trainer_use_item.
  destruct (Py.get _ _); [destruct (_ =? _)|]; done.
Qed.

Lemma Trainer_use_item_name item t :
  trainer_name (Trainer_use_item item t) = trainer_name t.
Proof.
  unfold Trainer_use_item.
  destruct (Py.get _ _); [destruct (_ =? _)|]; done.
Qed.

(** One use less: the count of an absent item reads as 0. *)
Lemma Trainer_use_item_consumes item t :
  Trainer_has_item item t = true →
  default 0 (Py.get (trainer_inventory (Trainer_use_item item t)) item)
  = default 0 (Py.get (trainer_inventory t) item) - 1.
Proof.
  unfold Trainer_has_item, Py.contains, Trainer_use_item.
  destruct (Py.get (trainer_inventory t) item) as [uses|] eqn:Hget; [|done].
  intros _. destruct (Z.eqb_spec (uses - 1) 0) as [Hzero|Hmore]; simpl.
  - rewrite get_pop. simpl. lia.
  - by rewrite get_set.
Qed.

Lemma Trainer_use_item_others item item' t :
  item ≠ item' →
  Py.get (trainer_inventory (Trainer_use_item item t)) item'
  = Py.get (trainer_inventory t) item'.
Proof.
  intros Hne. unfold Trainer_use_item.
  destruct (Py.get (trainer_inventory t) item) as [uses|] eqn:Hget; [|done].
  destruct (uses - 1 =? 0); simpl.
  - by rewrite get_pop_ne, get_set_ne.
  - by rewrite get_set_ne.
Qed.

Lemma Item_is_valid_has_item item b is_player :
  Item_is_valid item b is_player = Ok true →
  Trainer_has_item item (Battle_get_trainer is_player b) = true.
Proof.
  unfold Item_is_valid. intros H. outcomes H.
  by apply andb_prop in H as [_ ?].
Qed.

Lemma Trainer_can_add_pokemon_iff r t :
  Trainer_can_add_pokemon r t = true ↔
  (r ∉ trainer_pokemon t) ∧ (length (trainer_pokemon t) < 6)%nat.
Proof.
  unfold Trainer_can_add_pokemon, MAXIMUM_POKEMON_ROSTER.
  destruct (bool_decide_reflect (r ∈ trainer_pokemon t)) as [Hin|Hnotin].
  - split; [done|]. by intros [? _].
  - rewrite Z.ltb_lt. split; [intros ?; split; [done|lia]|intros [_ ?]; lia].
Qed.

Lemma get_trainer_with_trainer is_player t b :
  Battle_get_trainer is_player (with_trainer is_player t b) = t.
Proof. by destruct is_player. Qed.

Lemma get_other_trainer_with_trainer is_player t b :
  Battle_get_trainer (negb is_player) (with_trainer is_player t b)
  = Battle_get_trainer (negb is_player) b.
Proof. by destruct is_player. Qed.

Lemma is_over_decrement_item_count item is_player b :
  Battle_is_over (Item_decrement_item_count item is_player b) = Battle_is_over b.
Proof.
  unfold Battle_is_over, Item_decrement_item_count, Trainer_all_pokemon_fainted.
  destruct is_player; simpl; by rewrite Trainer_use_item_pokemon.
Qed.

(** C7: in a trainer battle a pokeball does the same whatever the roll is.
    The summary is the single message that pokeballs have no effect in
    trainer battles; nothing changes but the inventory of the trainer who
    threw it, where the pokeball, if he has it, has one use less: the rosters,
    the pokemon, the other trainer, the flag that ends the battle early and
    [is_over] are as before. *)
Theorem Pokeball_apply_in_trainer_battle (self : Item)
    (catch_chance roll roll' : Q) (b : Battle) (is_player : bool) :
  battle_trainer_battle b = true →
  Pokeball_apply self catch_chance roll b is_player
  = Pokeball_apply self catch_chance roll' b is_player
  ∧ ∃ b',
      Pokeball_apply self catch_chance roll b is_player
      = Ok (b', [POKEBALL_INVALID_BATTLE_TYPE])
      ∧ trainer_pokemon (battle_player b') = trainer_pokemon (battle_player b)
      ∧ trainer_pokemon (battle_enemy b') = trainer_pokemon (battle_enemy b)
      ∧ battle_store b' = battle_store b
      ∧ battle_finished_early b' = battle_finished_early b
      ∧ Battle_is_over b' = Battle_is_over b
      ∧ battle_turn b' = battle_turn b
      ∧ battle_action_queue b' = battle_action_queue b
      ∧ Battle_get_trainer (negb is_player) b'
        = Battle_get_trainer (negb is_player) b
      ∧ Battle_get_trainer is_player b'
        = Trainer_use_item self (Battle_get_trainer is_player b)
      ∧ (Trainer_has_item self (Battle_get_trainer is_player b) = true →
         default 0
           (Py.get (trainer_inventory (Battle_get_trainer is_player b')) self)
         = default 0
             (Py.get (trainer_inventory (Battle_get_trainer is_player b)) self)
           - 1)
      ∧ (∀ item, self ≠ item →
           Py.get (trainer_inventory (Battle_get_trainer is_player b')) item
           = Py.get (trainer_inventory (Battle_get_trainer is_player b)) item).
Proof.
  intros Hduel.
  assert (Hany : ∀ r, Pokeball_apply self catch_chance r b is_player
                      = Ok (Item_decrement_item_count self is_player b,
                            [POKEBALL_INVALID_BATTLE_TYPE])).
  { intros r. unfold Pokeball_apply, Battle_is_trainer_battle. cbv zeta.
    replace (battle_trainer_battle (Item_decrement_item_count self is_player b))
      with true; [done|].
    rewrite <- Hduel. unfold Item_decrement_item_count. by destruct is_player. }
  split; [by rewrite !Hany|].
  exists (Item_decrement_item_count self is_player b).
  split; [apply Hany|].
  unfold Item_decrement_item_count.
  rewrite get_trainer_with_trainer, get_other_trainer_with_trainer.
  repeat split;
    try (destruct is_player; simpl; by rewrite ?Trainer_use_item_pokemon).
  - apply is_over_decrement_item_count.
  - apply Trainer_use_item_consumes.
  - intros item. apply Trainer_use_item_others.
Qed.

(** In the duel Ash throws his Master Ball: nothing is caught whether the
    roll is 0 or 9/10, and the ball is gone. *)
Lemma Pokeball_apply_in_trainer_battle_witness :
  Pokeball_apply Sample.master_ball 1 0 Sample.duel true
  = Pokeball_apply Sample.master_ball 1 (9 # 10) Sample.duel true
  ∧ ∃ b',
      Pokeball_apply Sample.master_ball 1 0 Sample.duel true
      = Ok (b', [POKEBALL_INVALID_BATTLE_TYPE])
      ∧ trainer_pokemon (battle_player b')
        = trainer_pokemon (battle_player Sample.duel)
      ∧ trainer_pokemon (battle_enemy b')
        = trainer_pokemon (battle_enemy Sample.duel)
      ∧ battle_store b' = battle_store Sample.duel
      ∧ battle_finished_early b' = battle_finished_early Sample.duel
      ∧ Battle_is_over b' = Battle_is_over Sample.duel
      ∧ battle_turn b' = battle_turn Sample.duel
      ∧ battle_action_queue b' = battle_action_queue Sample.duel
      ∧ Battle_get_trainer (negb true) b'
        = Battle_get_trainer (negb true) Sample.duel
      ∧ Battle_get_trainer true b'
        = Trainer_use_item Sample.master_ball
            (Battle_get_trainer true Sample.duel)
      ∧ (Trainer_has_item Sample.master_ball
           (Battle_get_trainer true Sample.duel) = true →
         default 0
           (Py.get (trainer_inventory (Battle_get_trainer true b'))
              Sample.master_ball)
         = default 0
             (Py.get (trainer_inventory (Battle_get_trainer true Sample.duel))
                Sample.master_ball)
           - 1)
      ∧ (∀ item, Sample.master_ball ≠ item →
           Py.get (trainer_inventory (Battle_get_trainer true b')) item
           = Py.get (trainer_inventory (Battle_get_trainer true Sample.duel))
               item).
Proof.
  apply (Pokeball_apply_in_trainer_battle Sample.master_ball 1 0 (9 # 10)
           Sample.duel true).
  reflexivity.
Defined.

(** C5, as amended: in a wild battle, when the catch roll succeeds, the
    battle ends early whether or not the pokemon can be kept.  If
    [can_add_pokemon] holds (fewer than six pokemon in the roster, and this
    one not among them) the opposing current pokemon is appended to the
    roster and the summary is the caught message; otherwise the roster is
    unchanged and the summary is the message that there was no more room.
    In both cases the pokeball, if the trainer has it, has one use less, and
    nothing else changes. *)
Theorem Pokeball_apply_successful_catch (self : Item) (catch_chance roll : Q)
    (b : Battle) (is_player : bool) (enemy_pokemon : PokemonRef) :
  battle_trainer_battle b = false →
  did_succeed roll catch_chance = true →
  Trainer_get_current_pokemon (Battle_get_trainer (negb is_player) b)
  = Ok enemy_pokemon →
  ∃ b' message,
    Pokeball_apply self catch_chance roll b is_player = Ok (b', [message])
    ∧ battle_finished_early b' = true
    ∧ Battle_is_over b' = true
    ∧ battle_store b' = battle_store b
    ∧ Battle_get_trainer (negb is_player) b'
      = Battle_get_trainer (negb is_player) b
    ∧ trainer_inventory (Battle_get_trainer is_player b')
      = trainer_inventory (Trainer_use_item self (Battle_get_trainer is_player b))
    ∧ (Trainer_has_item self (Battle_get_trainer is_player b) = true →
       default 0
         (Py.get (trainer_inventory (Battle_get_trainer is_player b')) self)
       = default 0
           (Py.get (trainer_inventory (Battle_get_trainer is_player b)) self)
         - 1)
    ∧ (Trainer_can_add_pokemon enemy_pokemon (Battle_get_trainer is_player b)
       = true →
       trainer_pokemon (Battle_get_trainer is_player b')
       = trainer_pokemon (Battle_get_trainer is_player b) ++ [enemy_pokemon]
       ∧ message
         = POKEBALL_SUCCESSFUL_CATCH
             (Pokemon_get_name (battle_store b enemy_pokemon)))
    ∧ (Trainer_can_add_pokemon enemy_pokemon (Battle_get_trainer is_player b)
       = false →
       trainer_pokemon (Battle_get_trainer is_player b')
       = trainer_pokemon (Battle_get_trainer is_player b)
       ∧ message
         = POKEBALL_FULL_TEAM
             (Pokemon_get_name (battle_store b enemy_pokemon))).
Proof.
  intros Hwild Hroll Henemy.
  unfold Pokeball_apply, Battle_is_trainer_battle. cbv zeta.
  assert (Hwild' : battle_trainer_battle
                     (Item_decrement_item_count self is_player b) = false).
  { rewrite <- Hwild. unfold Item_decrement_item_count. by destruct is_player. }
  rewrite Hwild'. unfold Item_decrement_item_count.
  rewrite get_other_trainer_with_trainer, Henemy. cbn [mbind Res_bind].
  rewrite Hroll. cbn [negb].
  rewrite !get_trainer_with_trainer.
  set (player := Trainer_use_item self (Battle_get_trainer is_player b)).
  assert (Hcan : Trainer_can_add_pokemon enemy_pokemon player
                 = Trainer_can_add_pokemon enemy_pokemon
                     (Battle_get_trainer is_player b)).
  { unfold Trainer_can_add_pokemon, player.
    by rewrite Trainer_use_item_pokemon. }
  rewrite Hcan.
  assert (Hroster : trainer_pokemon player
                    = trainer_pokemon (Battle_get_trainer is_player b))
    by apply Trainer_use_item_pokemon.
  assert (Hend : ∀ b0, battle_trainer_battle b0 = false →
                       Battle_attempt_end_early b0 = with_finished_early true b0).
  { intros b0 H0. unfold Battle_attempt_end_early. by rewrite H0. }
  destruct (Trainer_can_add_pokemon enemy_pokemon
              (Battle_get_trainer is_player b)) eqn:Hadd.
  - rewrite Hend by (by destruct is_player).
    eexists _, _. split; [done|].
    split; [done|]. split; [done|]. split; [by destruct is_player|].
    split; [by destruct is_player|].
    assert (Hme : Battle_get_trainer is_player
                    (with_finished_early true
                       (with_trainer is_player
                          (Trainer_add_pokemon enemy_pokemon player)
                          (with_trainer is_player player b)))
                  = Trainer_add_pokemon enemy_pokemon player)
      by (by destruct is_player).
    rewrite Hme.
    assert (Hinv : trainer_inventory (Trainer_add_pokemon enemy_pokemon player)
                   = trainer_inventory player).
    { unfold Trainer_add_pokemon. simpl.
      by destruct (trainer_selected_pokemon player). }
    assert (Hros : trainer_pokemon (Trainer_add_pokemon enemy_pokemon player)
                   = trainer_pokemon player ++ [enemy_pokemon]).
    { unfold Trainer_add_pokemon. simpl.
      by destruct (trainer_selected_pokemon player). }
    rewrite Hinv, Hros, Hroster.
    split; [done|]. split; [apply Trainer_use_item_consumes|].
    split; [|done]. intros _. split; [done|]. by destruct is_player.
  - rewrite Hend by (by destruct is_player).
    eexists _, _. split; [done|].
    split; [done|]. split; [done|]. split; [by destruct is_player|].
    split; [by destruct is_player|].
    assert (Hme : Battle_get_trainer is_player
                    (with_finished_early true (with_trainer is_player player b))
                  = player)
      by (by destruct is_player).
    rewrite Hme, Hroster.
    split; [done|]. split; [apply Trainer_use_item_consumes|].
    split; [done|]. intros _. split; [done|]. by destruct is_player.
Qed.

(** Ash, with one pokemon, catches the wild Onix with his Master Ball. *)
Lemma Pokeball_apply_successful_catch_witness :
  ∃ b' message,
    Pokeball_apply Sample.master_ball 1 0 Sample.encounter true
    = Ok (b', [message])
    ∧ battle_finished_early b' = true
    ∧ Battle_is_over b' = true
    ∧ battle_store b' = battle_store Sample.encounter
    ∧ Battle_get_trainer (negb true) b'
      = Battle_get_trainer (negb true) Sample.encounter
    ∧ trainer_inventory (Battle_get_trainer true b')
      = trainer_inventory
          (Trainer_use_item Sample.master_ball
             (Battle_get_trainer true Sample.encounter))
    ∧ (Trainer_has_item Sample.master_ball
         (Battle_get_trainer true Sample.encounter) = true →
       default 0
         (Py.get (trainer_inventory (Battle_get_trainer true b'))
            Sample.master_ball)
       = default 0
           (Py.get (trainer_inventory (Battle_get_trainer true Sample.encounter))
              Sample.master_ball)
         - 1)
    ∧ (Trainer_can_add_pokemon 2%nat (Battle_get_trainer true Sample.encounter)
       = true →
       trainer_pokemon (Battle_get_trainer true b')
       = trainer_pokemon (Battle_get_trainer true Sample.encounter) ++ [2%nat]
       ∧ message
         = POKEBALL_SUCCESSFUL_CATCH
             (Pokemon_get_name (battle_store Sample.encounter 2%nat)))
    ∧ (Trainer_can_add_pokemon 2%nat (Battle_get_trainer true Sample.encounter)
       = false →
       trainer_pokemon (Battle_get_trainer true b')
       = trainer_pokemon (Battle_get_trainer true Sample.encounter)
       ∧ message
         = POKEBALL_FULL_TEAM
             (Pokemon_get_name (battle_store Sample.encounter 2%nat))).
Proof.
  apply (Pokeball_apply_successful_catch Sample.master_ball 1 0
           Sample.encounter true 2%nat); reflexivity.
Defined.

(** C5, as stated, fails when the roster is full: Ash has six pokemon, the
    catch roll succeeds, the summary is the message that there was no more
    room and the roster is unchanged, yet the battle has ended early. *)
Lemma full_roster_catch_ends_battle :
  length (trainer_pokemon (battle_player Sample.encounter_full)) = 6%nat
  ∧ battle_trainer_battle Sample.encounter_full = false
  ∧ Battle_is_over Sample.encounter_full = false
  ∧ did_succeed 0 1 = true
  ∧ ∃ b',
      Pokeball_apply Sample.master_ball 1 0 Sample.encounter_full true
      = Ok (b', [POKEBALL_FULL_TEAM "Onix"])
      ∧ trainer_pokemon (battle_player b')
        = trainer_pokemon (battle_player Sample.encounter_full)
      ∧ battle_finished_early b' = true
      ∧ Battle_is_over b' = true.
Proof.
  repeat split; try reflexivity.
  eexists. repeat split; reflexivity.
Qed.

(** ** Experience and level *)

Lemma cube_unfold (k : Z) : k ^ 3 = k * k * k.
Proof. ring. Qed.

Lemma cube_root_from_spec (fuel : nat) : ∀ e k,
  0 <= k → k ^ 3 <= e → e - k <= Z.of_nat fuel →
  k <= cube_root_from fuel e k
  ∧ cube_root_from fuel e k ^ 3 <= e < (cube_root_from fuel e k + 1) ^ 3.
Proof.
  induction fuel as [|fuel IH]; intros e k Hk Hlow Hfuel; simpl.
  - split; [lia|]. split; [done|]. rewrite cube_unfold in *. nia.
  - destruct (Z.leb_spec ((k + 1) ^ 3) e) as [Hnext|Hstop].
    + destruct (IH e (k + 1)) as (Hle & Hroot); [lia|done| |].
      * rewrite cube_unfold in Hnext. nia.
      * split; [lia|done].
    + split; [lia|]. split; [done|lia].
Qed.

Lemma floor_cube_root_spec (e : Z) :
  0 <= e →
  0 <= floor_cube_root e
  ∧ floor_cube_root e ^ 3 <= e < (floor_cube_root e + 1) ^ 3.
Proof.
  intros He. unfold floor_cube_root.
  destruct (cube_root_from_spec (Z.to_nat e) e 0) as (Hle & Hroot);
    [lia|simpl; lia|lia|].
  split; [lia|done].
Qed.

Lemma cube_lt_inv (x y : Z) : 0 <= x → 0 <= y → x ^ 3 < (y + 1) ^ 3 → x <= y.
Proof.
  intros Hx Hy. rewrite !cube_unfold. intros Hlt.
  destruct (Z.le_gt_cases x y) as [|Hgt]; [done|].
  assert (Hstep : y + 1 <= x) by lia.
  assert (Hsquare : (y + 1) * (y + 1) <= x * x) by nia.
  assert (Hcube : (y + 1) * (y + 1) * (y + 1) <= x * x * x)
    by (apply Z.mul_le_mono_nonneg; nia).
  lia.
Qed.

Lemma floor_cube_root_mono (x y : Z) :
  0 <= x <= y → floor_cube_root x <= floor_cube_root y.
Proof.
  intros [Hx Hxy].
  destruct (floor_cube_root_spec x Hx) as (Hx0 & Hxl & Hxu).
  destruct (floor_cube_root_spec y) as (Hy0 & Hyl & Hyu); [lia|].
  apply cube_lt_inv; [done|done|lia].
Qed.

(** *** Floats: signs and exceptions

    What the proofs below need of binary64 arithmetic: rounding keeps the
    sign and yields no NaN, so a product or a quotient of numbers that are
    not negative is not negative, and [int] of it can only raise
    [OverflowError]. *)

Lemma shr_1_nonneg mrs : 0 <= shr_m mrs → 0 <= shr_m (shr_1 mrs).
Proof. destruct mrs as [[|[m|m|]|m] r s']; simpl; lia. Qed.

Lemma iter_shr_1_nonneg (n : positive) : ∀ mrs,
  0 <= shr_m mrs → 0 <= shr_m (SpecFloat.iter_pos shr_1 n mrs).
Proof.
  induction n as [n IH|n IH|]; intros mrs Hm; simpl.
  - by apply IH, IH, shr_1_nonneg.
  - by apply IH, IH.
  - by apply shr_1_nonneg.
Qed.

Lemma shr_fexp_nonneg m e l :
  0 <= m → 0 <= shr_m (shr_fexp Py.prec Py.emax m e l).1.
Proof.
  intros Hm. unfold shr_fexp, shr.
  assert (0 <= shr_m (shr_record_of_loc m l)) by (by destruct l as [|[| |]]).
  destruct (_ - e); simpl; [done| |done]. by apply iter_shr_1_nonneg.
Qed.

Lemma round_nearest_even_nonneg m l : 0 <= m → 0 <= round_nearest_even m l.
Proof.
  intros Hm. destruct l as [|[| |]]; simpl; try lia.
  destruct (Z.even m); lia.
Qed.

Lemma binary_round_aux_signed s m e l :
  0 <= m → signed s (binary_round_aux Py.prec Py.emax s m e l).
Proof.
  intros Hm. unfold binary_round_aux.
  pose proof (shr_fexp_nonneg m e l Hm) as H1.
  destruct (shr_fexp Py.prec Py.emax m e l) as [mrs' e'].
  pose proof (shr_fexp_nonneg
                (round_nearest_even (shr_m mrs') (loc_of_shr_record mrs'))
                e' loc_Exact (round_nearest_even_nonneg _ _ H1)) as H2.
  destruct (shr_fexp Py.prec Py.emax _ e' loc_Exact) as [mrs'' e''].
  simpl in H2. destruct (shr_m mrs''); [done| |lia].
  by destruct (_ <=? _).
Qed.

Lemma binary_normalize_signed n :
  signed (n <? 0) (binary_normalize Py.prec Py.emax n 0 false).
Proof.
  destruct n as [|m|m]; simpl; [done| |];
    unfold binary_round; destruct (shl_align _ _ _);
    by apply binary_round_aux_signed.
Qed.

Lemma SFdiv_exact_signed n d :
  signed (n <? 0) (SFdiv Py.prec Py.emax (Py.exact n) (Py.exact (Zpos d))).
Proof.
  assert (Hcore : ∀ s m,
            signed s
              (let '(mz, ez, lz) :=
                 SFdiv_core_binary Py.prec Py.emax (Zpos m) 0 (Zpos d) 0 in
               binary_round_aux Py.prec Py.emax s mz ez lz)).
  { intros s m. unfold SFdiv_core_binary. cbv zeta.
    set (shifted := match _ - _ with Z0 => Zpos m | Zpos _ => _ | Zneg _ => 0 end).
    assert (0 <= shifted).
    { unfold shifted. destruct (_ - _); [lia| |lia].
      apply Z.shiftl_nonneg. lia. }
    pose proof (Z.div_eucl_eq shifted (Zpos d)) as Heq.
    pose proof (Z.mod_pos_bound shifted (Zpos d)) as Hmod.
    unfold Z.modulo in Hmod.
    destruct (Z.div_eucl shifted (Zpos d)) as [q r].
    apply binary_round_aux_signed. nia. }
  destruct n as [|m|m]; simpl; [done|apply Hcore|apply Hcore].
Qed.

Lemma fmul_growth_signed s x :
  signed s x → signed s (Py.fmul x LEVEL_UP_STAT_GROWTH).
Proof.
  destruct x as [s'|s'| |s' m e]; simpl; try (by destruct s'); [done|].
  intros ->. replace s with (xorb s false) at 1 by (by destruct s).
  by apply binary_round_aux_signed.
Qed.

Lemma int_of_float_signed s x :
  signed s x →
  (∀ e, Py.int_of_float x = Raise e → e = OverflowError)
  ∧ (∀ n, Py.int_of_float x = Ok n → if s then n <= 0 else 0 <= n).
Proof.
  destruct x as [s'|s'| |s' m e]; simpl; [| |done|]; intros ->.
  - split; [done|]. intros n [= <-]. by destruct s.
  - split; [by intros e [= <-]|done].
  - split; [done|]. intros n [= <-].
    pose proof (Z.shiftl_nonneg (Zpos m) e). destruct s; simpl; lia.
Qed.

Lemma float_of_int_inv n x :
  Py.float_of_int n = Ok x →
  Z.abs n < Py.FLOAT_OVERFLOW ∧ signed (n <? 0) x.
Proof.
  unfold Py.float_of_int.
  destruct (Z.leb_spec Py.FLOAT_OVERFLOW (Z.abs n)); [done|].
  intros [= <-]. split; [done|apply binary_normalize_signed].
Qed.

Lemma float_of_int_raises n e :
  Py.float_of_int n = Raise e →
  e = OverflowError ∧ Py.FLOAT_OVERFLOW <= Z.abs n.
Proof.
  unfold Py.float_of_int.
  destruct (Z.leb_spec Py.FLOAT_OVERFLOW (Z.abs n)); [|done].
  by intros [= <-].
Qed.

(** [int(stat * 1.05)] keeps the sign of the stat, and only overflows. *)
Lemma grow_sign (stat : Z) :
  (∀ e, grow stat = Raise e → e = OverflowError)
  ∧ (∀ n, grow stat = Ok n → if stat <? 0 then n <= 0 else 0 <= n).
Proof.
  unfold grow.
  destruct (Py.float_of_int stat) as [x|e'] eqn:Hx; simpl.
  - apply float_of_int_inv in Hx as [_ Hs].
    by apply int_of_float_signed, fmul_growth_signed.
  - apply float_of_int_raises in Hx as [-> _]. split; [by intros e [= <-]|done].
Qed.

Lemma grow_hit_chance_raises (hit_chance : Q) (e : Exception) :
  grow_hit_chance hit_chance = Raise e → e = OverflowError.
Proof.
  unfold grow_hit_chance, Py.float_of_number.
  destruct (_ <=? _); simpl; [by intros [= <-]|].
  apply (int_of_float_signed (Qnum hit_chance <? 0)).
  apply fmul_growth_signed, SFdiv_exact_signed.
Qed.

(** *** Levelling up *)

Lemma PokemonStats_level_up_raises (s : Stats) (e : Exception) :
  PokemonStats_level_up s = Raise e → e = OverflowError.
Proof.
  unfold PokemonStats_level_up, mbind, Res_bind.
  destruct (grow_hit_chance _) eqn:Hhit;
    [|intros [= <-]; by apply grow_hit_chance_raises in Hhit].
  destruct (grow (stat_max_health s)) eqn:H1;
    [|intros [= <-]; by apply grow_sign in H1].
  destruct (grow (stat_attack s)) eqn:H2;
    [|intros [= <-]; by apply grow_sign in H2].
  destruct (grow (stat_defense s)) eqn:H3;
    [done|intros [= <-]; by apply grow_sign in H3].
Qed.

Lemma PokemonStats_level_up_inv (s s' : Stats) :
  PokemonStats_level_up s = Ok s' →
  stat_hit_chance s' = 1%Q
  ∧ grow (stat_max_health s) = Ok (stat_max_health s')
  ∧ grow (stat_attack s) = Ok (stat_attack s')
  ∧ grow (stat_defense s) = Ok (stat_defense s').
Proof.
  unfold PokemonStats_level_up, mbind, Res_bind.
  destruct (grow_hit_chance _); [|done].
  destruct (grow (stat_max_health s)); [|done].
  destruct (grow (stat_attack s)); [|done].
  destruct (grow (stat_defense s)); [|done].
  by intros [= <-].
Qed.

Lemma level_up_inv (p p' : Pokemon) :
  Pokemon_level_up p = Ok p' →
  ∃ stats,
    PokemonStats_level_up (pokemon_stats p) = Ok stats
    ∧ p' = Pokemon_modify_health
             (stat_max_health stats - stat_max_health (pokemon_stats p))
             (with_stats stats (with_level (pokemon_level p + 1) p)).
Proof.
  unfold Pokemon_level_up. cbv zeta.
  change (pokemon_stats (with_level _ p)) with (pokemon_stats p).
  destruct (PokemonStats_level_up (pokemon_stats p)) as [stats|]; [|done].
  intros [= <-]. by exists stats.
Qed.

Lemma level_up_raises (p : Pokemon) (e : Exception) :
  Pokemon_level_up p = Raise e → e = OverflowError.
Proof.
  unfold Pokemon_level_up. cbv zeta.
  change (pokemon_stats (with_level _ p)) with (pokemon_stats p).
  destruct (PokemonStats_level_up (pokemon_stats p)) eqn:Hstats; [done|].
  intros [= <-]. by apply PokemonStats_level_up_raises in Hstats.
Qed.

Lemma level_up_level (p p' : Pokemon) :
  Pokemon_level_up p = Ok p' → pokemon_level p' = pokemon_level p + 1.
Proof. intros (stats & _ & ->)%level_up_inv. done. Qed.

Lemma level_up_experience (p p' : Pokemon) :
  Pokemon_level_up p = Ok p' → pokemon_experience p' = pokemon_experience p.
Proof. intros (stats & _ & ->)%level_up_inv. done. Qed.

Lemma level_up_with_experience (e : Z) (p : Pokemon) :
  Pokemon_level_up (with_experience e p)
  = p' ← Pokemon_level_up p; Ok (with_experience e p').
Proof.
  unfold Pokemon_level_up. cbv zeta.
  change (pokemon_stats (with_level _ (with_experience e p)))
    with (pokemon_stats (with_level (pokemon_level p + 1) p)).
  by destruct (PokemonStats_level_up _).
Qed.

Lemma level_ups_level (n : nat) : ∀ p p',
  Pokemon_level_ups n p = Ok p' →
  pokemon_level p' = pokemon_level p + Z.of_nat n
  ∧ pokemon_experience p' = pokemon_experience p.
Proof.
  induction n as [|n IH]; intros p p'; cbn [Pokemon_level_ups].
  - intros [= <-]. split; [lia|done].
  - unfold mbind, Res_bind.
    destruct (Pokemon_level_up p) as [p1|] eqn:Hp1; [|done].
    intros [Hlevel Hexp]%IH.
    rewrite (level_up_level _ _ Hp1) in Hlevel.
    rewrite (level_up_experience _ _ Hp1) in Hexp. split; [lia|done].
Qed.

Lemma level_ups_raises (n : nat) : ∀ p e,
  Pokemon_level_ups n p = Raise e → e = OverflowError.
Proof.
  induction n as [|n IH]; intros p e; cbn [Pokemon_level_ups]; [done|].
  unfold mbind, Res_bind.
  destruct (Pokemon_level_up p) as [p1|e1] eqn:Hp1.
  - apply IH.
  - intros [= <-]. by apply level_up_raises in Hp1.
Qed.

Lemma level_ups_with_experience (n : nat) (e : Z) : ∀ p,
  Pokemon_level_ups n (with_experience e p)
  = p' ← Pokemon_level_ups n p; Ok (with_experience e p').
Proof.
  induction n as [|n IH]; intros p; cbn [Pokemon_level_ups]; [done|].
  rewrite level_up_with_experience. unfold mbind, Res_bind.
  destruct (Pokemon_level_up p) as [p1|]; [|done]. apply IH.
Qed.

Lemma level_ups_add (n m : nat) : ∀ p,
  Pokemon_level_ups (n + m) p
  = Pokemon_level_ups n p ≫= Pokemon_level_ups m.
Proof.
  induction n as [|n IH]; intros p; [done|].
  change (S n + m)%nat with (S (n + m)). cbn [Pokemon_level_ups].
  unfold mbind, Res_bind.
  destruct (Pokemon_level_up p) as [p1|]; [|done]. apply IH.
Qed.

Section experience_facts.
Variable float_cube_root : Z -> Z.

Abbreviation gain_experience := (Pokemon_gain_experience float_cube_root).

(** [gain_experience] case by case: the two exceptions of the power, and
    otherwise the level-ups that the computed cube root asks for. *)
Lemma gain_experience_cases (experience : Z) (p : Pokemon) :
  (Py.FLOAT_OVERFLOW <= Z.abs (pokemon_experience p + experience) →
   gain_experience experience p = Raise OverflowError)
  ∧ (- Py.FLOAT_OVERFLOW < pokemon_experience p + experience < 0 →
     gain_experience experience p = Raise TypeError)
  ∧ (0 <= pokemon_experience p + experience < Py.FLOAT_OVERFLOW →
     gain_experience experience p
     = Pokemon_level_ups
         (Z.to_nat (float_cube_root (pokemon_experience p + experience)
                    - pokemon_level p))
         (with_experience (pokemon_experience p + experience) p)).
Proof.
  unfold Pokemon_gain_experience, Py.float_of_int. cbv zeta.
  change (pokemon_experience (with_experience _ p))
    with (pokemon_experience p + experience).
  change (pokemon_level (with_experience _ p)) with (pokemon_level p).
  destruct (Z.leb_spec Py.FLOAT_OVERFLOW
              (Z.abs (pokemon_experience p + experience)));
    cbn [mbind Res_bind].
  - split; [done|]. split; intros; lia.
  - destruct (Z.ltb_spec (pokemon_experience p + experience) 0).
    + split; [lia|]. split; [done|lia].
    + split; [lia|]. split; [lia|done].
Qed.

(** The level after [gain_experience] is the larger of the level before and
    the cube root that the interpreter computed for the new total. *)
Lemma gain_experience_outcome (experience : Z) (p p' : Pokemon) :
  gain_experience experience p = Ok p' →
  0 <= pokemon_experience p + experience < Py.FLOAT_OVERFLOW
  ∧ pokemon_experience p' = pokemon_experience p + experience
  ∧ pokemon_level p'
    = Z.max (pokemon_level p)
        (float_cube_root (pokemon_experience p + experience)).
Proof.
  destruct (gain_experience_cases experience p) as (Hover & Hneg & Hrange).
  intros Hp'.
  assert (0 <= pokemon_experience p + experience < Py.FLOAT_OVERFLOW)
    as Htotal.
  { destruct (Z.le_gt_cases Py.FLOAT_OVERFLOW
                (Z.abs (pokemon_experience p + experience)));
      [rewrite Hover in Hp' by done; done|].
    destruct (Z.lt_ge_cases (pokemon_experience p + experience) 0);
      [rewrite Hneg in Hp' by lia; done|lia]. }
  split; [done|]. rewrite Hrange in Hp' by done.
  apply level_ups_level in Hp' as [-> ->]. split; [done|].
  change (pokemon_level (with_experience _ p)) with (pokemon_level p). lia.
Qed.

Lemma gain_experience_raises (experience : Z) (p : Pokemon) (e : Exception) :
  gain_experience experience p = Raise e →
  e = OverflowError ∨ e = TypeError.
Proof.
  destruct (gain_experience_cases experience p) as (Hover & Hneg & Hrange).
  destruct (Z.le_gt_cases Py.FLOAT_OVERFLOW
              (Z.abs (pokemon_experience p + experience)));
    [rewrite Hover by done; intros [= <-]; by left|].
  destruct (Z.lt_ge_cases (pokemon_experience p + experience) 0);
    [rewrite Hneg by lia; intros [= <-]; by right|].
  rewrite Hrange by lia. intros ?%level_ups_raises. by left.
Qed.

(** A gain made in two calls leaves the pokemon that one call leaves, as
    long as the computed cube root does not decrease when the total grows. *)
Theorem gain_experience_in_two_steps (first second : Z) (p : Pokemon) :
  (∀ x y, 0 <= x <= y → float_cube_root x <= float_cube_root y) →
  0 <= pokemon_experience p + first →
  0 <= second →
  gain_experience first p ≫= gain_experience second
  = gain_experience (first + second) p.
Proof.
  intros Hmono Hfirst Hsecond.
  destruct (gain_experience_cases first p) as (Hover1 & _ & Hrange1).
  destruct (gain_experience_cases (first + second) p)
    as (Hover & _ & Hrange).
  destruct (Z.le_gt_cases Py.FLOAT_OVERFLOW (pokemon_experience p + first))
    as [Hbig1|Hfit1].
  { rewrite Hover1, Hover by lia. done. }
  rewrite Hrange1 by lia.
  set (n1 := Z.to_nat (float_cube_root (pokemon_experience p + first)
                       - pokemon_level p)).
  destruct (Pokemon_level_ups n1
              (with_experience (pokemon_experience p + first) p))
    as [p1|e1] eqn:Hp1; cbn [mbind Res_bind].
  2: { destruct (Z.le_gt_cases Py.FLOAT_OVERFLOW
                   (pokemon_experience p + (first + second))) as [Hbig|Hfit].
       - rewrite Hover by lia. by apply level_ups_raises in Hp1 as ->.
       - rewrite Hrange by lia.
         pose proof (Hmono (pokemon_experience p + first)
                       (pokemon_experience p + (first + second))) as Hle.
         replace (Z.to_nat (float_cube_root
                              (pokemon_experience p + (first + second))
                            - pokemon_level p))
           with (n1 + Z.to_nat (float_cube_root
                                  (pokemon_experience p + (first + second))
                                - pokemon_level p - Z.of_nat n1))%nat
           by (unfold n1; lia).
         rewrite level_ups_add, level_ups_with_experience.
         rewrite level_ups_with_experience in Hp1.
         unfold mbind, Res_bind in Hp1 |- *.
         destruct (Pokemon_level_ups n1 p); [done|]. by injection Hp1 as ->. }
  pose proof (level_ups_level _ _ _ Hp1) as [Hlevel1 Hexp1].
  change (pokemon_level (with_experience _ p)) with (pokemon_level p)
    in Hlevel1.
  change (pokemon_experience (with_experience ?e _)) with e in Hexp1.
  destruct (gain_experience_cases second p1) as (Hover2 & _ & Hrange2).
  rewrite Hexp1 in Hover2, Hrange2.
  destruct (Z.le_gt_cases Py.FLOAT_OVERFLOW
              (pokemon_experience p + (first + second))) as [Hbig|Hfit].
  { rewrite Hover, Hover2 by lia. done. }
  rewrite Hrange, Hrange2 by lia.
  pose proof (Hmono (pokemon_experience p + first)
                (pokemon_experience p + (first + second))) as Hle.
  replace (pokemon_experience p + first + second)
    with (pokemon_experience p + (first + second)) by lia.
  replace (Z.to_nat (float_cube_root
                       (pokemon_experience p + (first + second))
                     - pokemon_level p))
    with (n1 + Z.to_nat (float_cube_root
                           (pokemon_experience p + (first + second))
                         - pokemon_level p1))%nat
    by (unfold n1 in *; lia).
  rewrite level_ups_add, !level_ups_with_experience.
  rewrite level_ups_with_experience in Hp1.
  unfold mbind, Res_bind in Hp1 |- *.
  destruct (Pokemon_level_ups n1 p) as [p0|]; [|done].
  injection Hp1 as <-.
  change (pokemon_level (with_experience _ p0)) with (pokemon_level p0).
  rewrite !level_ups_with_experience. unfold mbind, Res_bind.
  by destruct (Pokemon_level_ups _ p0).
Qed.

End experience_facts.

Lemma learn_loop_level (moves : list Move) : ∀ p,
  pokemon_level
    (fold_left
       (fun self move =>
          if Pokemon_can_learn_move move self then Pokemon_learn_move move self
          else self)
       moves p)
  = pokemon_level p
  ∧ pokemon_experience
      (fold_left
         (fun self move =>
            if Pokemon_can_learn_move move self then Pokemon_learn_move move self
            else self)
         moves p)
    = pokemon_experience p.
Proof.
  induction moves as [|m moves IH]; intros p; simpl; [done|].
  destruct (IH (if Pokemon_can_learn_move m p then Pokemon_learn_move m p else p))
    as [-> ->].
  by destruct (Pokemon_can_learn_move m p).
Qed.

Lemma Pokemon_init_level name stats element_type moves level :
  pokemon_level (Pokemon_init name stats element_type moves level) = level.
Proof. unfold Pokemon_init. by rewrite (proj1 (learn_loop_level moves _)). Qed.

Lemma Pokemon_init_experience name stats element_type moves level :
  pokemon_experience (Pokemon_init name stats element_type moves level)
  = level ^ 3.
Proof. unfold Pokemon_init. by rewrite (proj2 (learn_loop_level moves _)). Qed.

(** With a cube root that is exact, a pokemon built at a level that is not
    negative has, after any gain that is not negative, the level
    [floor(experience ^ (1/3))]. *)
Lemma gain_experience_with_exact_root name stats element_type moves level
    experience p' :
  0 <= level → 0 <= experience →
  Pokemon_gain_experience floor_cube_root experience
    (Pokemon_init name stats element_type moves level) = Ok p' →
  pokemon_experience p' = level ^ 3 + experience
  ∧ pokemon_level p' = floor_cube_root (level ^ 3 + experience)
  ∧ pokemon_level p' ^ 3 <= pokemon_experience p' < (pokemon_level p' + 1) ^ 3.
Proof.
  intros Hlevel Hgain Hp'.
  assert (Hcube : 0 <= level ^ 3) by (rewrite cube_unfold; nia).
  apply gain_experience_outcome in Hp' as (_ & Hexp & Hlev).
  rewrite Pokemon_init_experience in Hexp, Hlev.
  rewrite Pokemon_init_level in Hlev.
  destruct (floor_cube_root_spec (level ^ 3 + experience)) as (H0 & Hl & Hu);
    [lia|].
  assert (level <= floor_cube_root (level ^ 3 + experience))
    by (apply cube_lt_inv; [done|done|lia]).
  split; [done|].
  rewrite Hlev, Hexp, Z.max_r by done. done.
Qed.

(** C4 at the failing input: a pokemon built at level 3 has 27 experience
    points and needs 64 for the next level.  It gains 37.  The interpreter
    computes [64 ** (1.0 / 3)] as [3.9999999999999996], so [int] of it is 3:
    no [level_up] runs and the level stays 3, whereas
    [floor(64 ^ (1/3))] is 4. *)
Theorem gain_experience_misses_perfect_cube (float_cube_root : Z → Z)
    (name : string) (stats : Stats) (element_type : string)
    (moves : list Move) :
  float_cube_root 64 = 3 →
  Pokemon_get_next_level_experience_requirement
    (Pokemon_init name stats element_type moves 3) = 64
  ∧ ∃ p', Pokemon_gain_experience float_cube_root 37
            (Pokemon_init name stats element_type moves 3) = Ok p'
          ∧ pokemon_experience p' = 64
          ∧ pokemon_level p' = 3
          ∧ floor_cube_root (pokemon_experience p') = 4.
Proof.
  intros Hfloat. split.
  { unfold Pokemon_get_next_level_experience_requirement.
    by rewrite Pokemon_init_level. }
  destruct (gain_experience_cases float_cube_root 37
              (Pokemon_init name stats element_type moves 3))
    as (_ & _ & Hrange).
  rewrite Pokemon_init_experience, Pokemon_init_level in Hrange.
  change (3 ^ 3 + 37) with 64 in Hrange. rewrite Hfloat in Hrange.
  assert (Hfits : 64 < Py.FLOAT_OVERFLOW) by (by vm_compute).
  eexists. split; [apply Hrange; lia|].
  change (pokemon_level (with_experience 64 ?q)) with (pokemon_level q).
  by rewrite Pokemon_init_level.
Qed.

Lemma gain_experience_misses_perfect_cube_witness :
  Pokemon_get_next_level_experience_requirement
    (Pokemon_init "Pikachu" (mkStats 1 100 110 120) "electric" [] 3) = 64
  ∧ ∃ p', Pokemon_gain_experience Sample.cube_root_short_at_64 37
            (Pokemon_init "Pikachu" (mkStats 1 100 110 120) "electric" [] 3)
          = Ok p'
          ∧ pokemon_experience p' = 64
          ∧ pokemon_level p' = 3
          ∧ floor_cube_root (pokemon_experience p') = 4.
Proof.
  apply (gain_experience_misses_perfect_cube Sample.cube_root_short_at_64).
  reflexivity.
Defined.

(** Whatever the interpreter computes for the cube root, [gain_experience]
    adds the amount to the experience and never lowers the level.  It raises
    [OverflowError] when the new total is too large for a double and
    [TypeError] when it is negative, and nothing else.  When the computed
    root of the new total is not above the level it returns with only the
    experience changed; and whenever it returns, the experience is the new
    total and the level is the larger of the level before and the computed
    root. *)
Theorem gain_experience_level (float_cube_root : Z → Z) (experience : Z)
    (p : Pokemon) :
  (Py.FLOAT_OVERFLOW <= Z.abs (pokemon_experience p + experience) →
   Pokemon_gain_experience float_cube_root experience p = Raise OverflowError)
  ∧ (- Py.FLOAT_OVERFLOW < pokemon_experience p + experience < 0 →
     Pokemon_gain_experience float_cube_root experience p = Raise TypeError)
  ∧ (0 <= pokemon_experience p + experience < Py.FLOAT_OVERFLOW →
     float_cube_root (pokemon_experience p + experience) <= pokemon_level p →
     Pokemon_gain_experience float_cube_root experience p
     = Ok (with_experience (pokemon_experience p + experience) p))
  ∧ (∀ p',
       Pokemon_gain_experience float_cube_root experience p = Ok p' →
       0 <= pokemon_experience p + experience < Py.FLOAT_OVERFLOW
       ∧ pokemon_experience p' = pokemon_experience p + experience
       ∧ pokemon_level p'
         = Z.max (pokemon_level p)
             (float_cube_root (pokemon_experience p + experience)))
  ∧ (∀ e,
       Pokemon_gain_experience float_cube_root experience p = Raise e →
       e = OverflowError ∨ e = TypeError).
Proof.
  destruct (gain_experience_cases float_cube_root experience p)
    as (Hover & Hneg & Hrange).
  split; [done|]. split; [done|]. split.
  { intros Htotal Hroot. rewrite Hrange by done.
    by replace (Z.to_nat _) with 0%nat by lia. }
  split; [apply gain_experience_outcome|apply gain_experience_raises].
Qed.

(** Pikachu gains 100 and then 42, or 142 at once. *)
Lemma gain_experience_in_two_steps_witness :
  Pokemon_gain_experience floor_cube_root 100 Sample.pikachu
    ≫= Pokemon_gain_experience floor_cube_root 42
  = Pokemon_gain_experience floor_cube_root (100 + 42) Sample.pikachu.
Proof.
  apply (gain_experience_in_two_steps floor_cube_root 100 42 Sample.pikachu).
  - apply floor_cube_root_mono.
  - vm_compute. discriminate.
  - lia.
Defined.

(** ** Further properties of the engine *)

(** Whatever the stats and the modifier, no field of the modified stats is
    negative. *)
Theorem apply_modifier_nonnegative (s modifier : Stats) :
  (0 <= stat_hit_chance (PokemonStats_apply_modifier s modifier))%Q
  ∧ 0 <= stat_max_health (PokemonStats_apply_modifier s modifier)
  ∧ 0 <= stat_attack (PokemonStats_apply_modifier s modifier)
  ∧ 0 <= stat_defense (PokemonStats_apply_modifier s modifier).
Proof.
  unfold PokemonStats_apply_modifier; simpl. split; [|lia].
  unfold Py.max0.
  destruct (Qle_bool (stat_hit_chance s + stat_hit_chance modifier) 0)
    eqn:Hle.
  - apply Qle_refl.
  - destruct (Qlt_le_dec 0 (stat_hit_chance s + stat_hit_chance modifier))
      as [Hlt|Hge].
    + by apply Qlt_le_weak.
    + apply Qle_bool_iff in Hge. congruence.
Qed.

(** Fleeing always returns one message.  In a trainer battle it is the
    message that there is no escape and the battle is as before; otherwise it
    is the message of success and the battle has ended early. *)
Theorem Flee_apply_outcome (b : Battle) (is_player : bool) :
  Flee_apply b is_player
  = Ok (if battle_trainer_battle b
        then (b, [FLEE_INVALID])
        else (with_finished_early true b, [FLEE_SUCCESS])).
Proof.
  unfold Flee_apply, Battle_attempt_end_early, Battle_is_trainer_battle.
  destruct (battle_trainer_battle b) eqn:Hduel; simpl; by rewrite Hduel.
Qed.

Lemma NoDup_bool_length (l : list bool) : NoDup l → (length l ≤ 2)%nat.
Proof.
  intros Hl.
  assert (Hsub : l ⊆+ [true; false]).
  { apply NoDup_submseteq; [done|]. intros [|] _.
    - apply elem_of_cons. by left.
    - apply elem_of_cons. right. apply elem_of_cons. by left. }
  apply submseteq_length in Hsub. simpl in Hsub. lia.
Qed.

Lemma trainer_has_action_queued_elem_of is_player b :
  Battle_trainer_has_action_queued is_player b = true ↔
  is_player ∈ (battle_action_queue b).*2.
Proof.
  unfold Battle_trainer_has_action_queued.
  induction (battle_action_queue b) as [|[a side] q IH]; simpl.
  - split; [done|]. by intros ?%elem_of_nil.
  - rewrite orb_true_iff, IH, elem_of_cons.
    split; (intros [Hhead|Htail]; [left|by right]).
    + by apply eqb_prop in Hhead.
    + subst. by destruct side.
Qed.

(** A queue that holds each side at most once still does after
    [queue_action], and so never holds more than two entries. *)
Theorem queue_action_each_side_once (action : Action) (is_player : bool)
    (b b' : Battle) :
  NoDup (battle_action_queue b).*2 →
  Battle_queue_action action is_player b = Ok b' →
  NoDup (battle_action_queue b').*2
  ∧ (length (battle_action_queue b') ≤ 2)%nat.
Proof.
  intros Hb Hqueue.
  assert (Hb' : NoDup (battle_action_queue b').*2).
  { unfold Battle_queue_action in Hqueue.
    destruct (Battle_trainer_has_action_queued is_player b) eqn:Hqueued;
      simpl in Hqueue; [by simplify_eq|].
    destruct (Battle_is_ready b); simpl in Hqueue; [by simplify_eq|].
    outcomes Hqueue; [done|]. simpl.
    rewrite fmap_app. simpl. apply NoDup_app. split; [done|].
    split; [|apply NoDup_singleton].
    intros side Hside ->%list_elem_of_singleton.
    apply trainer_has_action_queued_elem_of in Hside. congruence. }
  split; [done|].
  rewrite <- (length_fmap snd). by apply NoDup_bool_length.
Qed.

(** Brock's toxic joins Ash's tackle in the queue of the duel. *)
Lemma queue_action_each_side_once_witness :
  NoDup (battle_action_queue Sample.tackle_then_toxic).*2
  ∧ (length (battle_action_queue Sample.tackle_then_toxic) ≤ 2)%nat.
Proof.
  apply (queue_action_each_side_once (MoveAction Sample.toxic) false
           (with_action_queue [(MoveAction Sample.tackle, true)] Sample.duel)
           Sample.tackle_then_toxic).
  - apply NoDup_singleton.
  - reflexivity.
Defined.

(** ** Stats, health and levels *)

Lemma all_from_spec (f : Z → bool) (fuel : nat) : ∀ n,
  all_from fuel n f = true →
  ∀ k, n <= k < n + Z.of_nat fuel → f k = true.
Proof.
  induction fuel as [|fuel IH]; intros n Hall k Hk; [lia|].
  cbn [all_from] in Hall. apply andb_prop in Hall as [Hn Hrest].
  destruct (decide (k = n)) as [->|Hne]; [done|].
  apply (IH (n + 1)); [done|lia].
Qed.

(** Up to [CHECKED] the product with [1.05] in double precision, truncated,
    is the exact [floor(21 * stat / 20)]: every case is computed. *)
Lemma grow_small (stat : Z) :
  0 <= stat <= CHECKED → grow stat = Ok (21 * stat / 20).
Proof.
  intros Hstat.
  assert (Hall : all_from (Z.to_nat (CHECKED + 1)) 0 grow_is_floor = true)
    by (vm_compute; reflexivity).
  pose proof (all_from_spec _ _ _ Hall stat) as Hcheck.
  unfold grow_is_floor in Hcheck.
  destruct (grow stat) as [grown|]; [|by discriminate Hcheck; unfold CHECKED; lia].
  f_equal. apply Z.eqb_eq, Hcheck. unfold CHECKED in *. lia.
Qed.

Lemma experience_on_death_small (p : Pokemon) :
  0 <= pokemon_level p <= CHECKED →
  Pokemon_experience_on_death p = Ok (200 * pokemon_level p / 7).
Proof.
  intros Hlevel.
  assert (Hall : all_from (Z.to_nat (CHECKED + 1)) 0
                   experience_on_death_is_floor_at = true)
    by (vm_compute; reflexivity).
  pose proof (all_from_spec _ _ _ Hall (pokemon_level p)) as Hcheck.
  unfold experience_on_death_is_floor_at in Hcheck.
  unfold Pokemon_experience_on_death.
  destruct (_ ≫= _) as [experience|];
    [|by discriminate Hcheck; unfold CHECKED; lia].
  f_equal. apply Z.eqb_eq, Hcheck. unfold CHECKED in *. lia.
Qed.

Lemma level_up_grows_stats_by_five_percent_helper (s : Stats) :
  stat_hit_chance s = 1%Q →
  0 <= stat_max_health s <= CHECKED →
  0 <= stat_attack s <= CHECKED →
  0 <= stat_defense s <= CHECKED →
  PokemonStats_level_up s
  = Ok (mkStats 1 (21 * stat_max_health s / 20) (21 * stat_attack s / 20)
          (21 * stat_defense s / 20))
  ∧ stat_max_health s <= 21 * stat_max_health s / 20
    ∧ stat_attack s <= 21 * stat_attack s / 20
    ∧ stat_defense s <= 21 * stat_defense s / 20.
Proof.
  intros Hhit Hh Ha Hd. unfold PokemonStats_level_up.
  rewrite Hhit, !grow_small by done.
  split; [by vm_compute|].
  assert (Hfloor : ∀ x, 0 <= x → x <= 21 * x / 20).
  { intros x Hx. apply Z.div_le_lower_bound; lia. }
  repeat split; apply Hfloor; lia.
Qed.

(** Levelling up stats whose hit chance is 1 and whose other entries lie
    between 0 and [CHECKED] returns, with the hit chance 1 and every other
    stat grown by 5% and rounded down: the new value is
    [floor(21 * old / 20)], never less than the old one.  For large stats the
    double-precision product is no longer the exact one: from 422826889290579
    the code returns one more than the floor. *)
Theorem level_up_grows_stats_by_five_percent (s : Stats) :
  stat_hit_chance s = 1%Q →
  0 <= stat_max_health s <= CHECKED →
  0 <= stat_attack s <= CHECKED →
  0 <= stat_defense s <= CHECKED →
  PokemonStats_level_up s
  = Ok (mkStats 1 (21 * stat_max_health s / 20) (21 * stat_attack s / 20)
          (21 * stat_defense s / 20))
  ∧ stat_max_health s <= 21 * stat_max_health s / 20
  ∧ stat_attack s <= 21 * stat_attack s / 20
  ∧ stat_defense s <= 21 * stat_defense s / 20
  ∧ grow 422826889290579 = Ok (21 * 422826889290579 / 20 + 1).
Proof.
  intros Hhit Hh Ha Hd.
  destruct (level_up_grows_stats_by_five_percent_helper s)
    as (Hstats & Hhealth & Hattack & Hdefense); [done..|].
  repeat split; try done.
Qed.

(** The stats of the docstring of [level_up]. *)
Lemma level_up_grows_stats_by_five_percent_witness :
  PokemonStats_level_up (mkStats 1 100 110 120)
  = Ok (mkStats 1 (21 * 100 / 20) (21 * 110 / 20) (21 * 120 / 20))
  ∧ 100 <= 21 * 100 / 20
  ∧ 110 <= 21 * 110 / 20
  ∧ 120 <= 21 * 120 / 20
  ∧ grow 422826889290579 = Ok (21 * 422826889290579 / 20 + 1).
Proof.
  apply (level_up_grows_stats_by_five_percent (mkStats 1 100 110 120));
    [reflexivity|by vm_compute..].
Defined.

(** The experience that a fainted pokemon of a level between 0 and
    [CHECKED] awards is [floor(200 * level / 7)].  For large levels the
    double-precision quotient is no longer the exact one: at level
    78911414670352 the code returns one more than the floor. *)
Theorem experience_on_death_is_floor (p : Pokemon) :
  0 <= pokemon_level p <= CHECKED →
  Pokemon_experience_on_death p = Ok (200 * pokemon_level p / 7)
  ∧ Pokemon_experience_on_death (with_level 78911414670352 p)
    = Ok (200 * 78911414670352 / 7 + 1).
Proof.
  intros Hlevel. split; [by apply experience_on_death_small|].
  by vm_compute.
Qed.

Lemma experience_on_death_is_floor_witness :
  Pokemon_experience_on_death Sample.pikachu
  = Ok (200 * pokemon_level Sample.pikachu / 7)
  ∧ Pokemon_experience_on_death (with_level 78911414670352 Sample.pikachu)
    = Ok (200 * 78911414670352 / 7 + 1).
Proof. apply experience_on_death_is_floor. by vm_compute. Defined.

Lemma apply_modifier_max_health_nonneg (s modifier : Stats) :
  0 <= stat_max_health (PokemonStats_apply_modifier s modifier).
Proof. simpl. lia. Qed.

Lemma fold_modifiers_max_health_nonneg (l : list (Stats * Z)) : ∀ s,
  0 <= stat_max_health s →
  0 <= stat_max_health
         (fold_left
            (fun result entry => PokemonStats_apply_modifier result entry.1)
            l s).
Proof.
  induction l as [|entry l IH]; intros s Hs; cbn [fold_left]; [done|].
  apply IH, apply_modifier_max_health_nonneg.
Qed.

Lemma get_stats_max_health_nonneg (p : Pokemon) :
  0 <= stat_max_health (pokemon_stats p) →
  0 <= stat_max_health (Pokemon_get_stats p).
Proof. apply fold_modifiers_max_health_nonneg. Qed.

Lemma modify_health_in_bounds (change : Z) (p : Pokemon) :
  0 <= stat_max_health (pokemon_stats p) →
  health_in_bounds (Pokemon_modify_health change p).
Proof.
  intros Hbase. pose proof (get_stats_max_health_nonneg p Hbase) as Hmax.
  unfold health_in_bounds, Pokemon_modify_health.
  change (Pokemon_get_stats (with_health _ p)) with (Pokemon_get_stats p).
  simpl. lia.
Qed.

(** Whatever the health was, after [modify_health], [add_stat_modifier],
    [post_round_actions], [level_up] or [rest] on a pokemon whose base maximum
    health is not negative, the health lies between 0 and the maximum health
    after modifiers.  [level_up] is the one of them that can raise, and then
    it is the [OverflowError] of a stat beyond the range of a double. *)
Theorem health_stays_in_bounds (p : Pokemon) :
  0 <= stat_max_health (pokemon_stats p) →
  (∀ change, health_in_bounds (Pokemon_modify_health change p))
  ∧ (∀ modifier rounds,
       health_in_bounds (Pokemon_add_stat_modifier modifier rounds p))
  ∧ health_in_bounds (Pokemon_post_round_actions p)
  ∧ (∀ p', Pokemon_level_up p = Ok p' → health_in_bounds p')
  ∧ (∀ e, Pokemon_level_up p = Raise e → e = OverflowError)
  ∧ health_in_bounds (Pokemon_rest p).
Proof.
  intros Hbase. split; [|split; [|split; [|split; [|split]]]].
  - intros change. by apply modify_health_in_bounds.
  - intros modifier rounds. by apply modify_health_in_bounds.
  - by apply modify_health_in_bounds.
  - intros p' (stats & Hstats & ->)%level_up_inv.
    apply modify_health_in_bounds.
    apply PokemonStats_level_up_inv in Hstats as (_ & Hgrow & _).
    apply grow_sign in Hgrow.
    destruct (Z.ltb_spec (stat_max_health (pokemon_stats p)) 0); [lia|done].
  - apply level_up_raises.
  - unfold health_in_bounds, Pokemon_rest, Pokemon_get_stats. simpl. lia.
Qed.

(** A debuff that takes 50 from the maximum health of Pikachu, who is at
    full health. *)
Lemma health_stays_in_bounds_witness :
  health_in_bounds
    (Pokemon_add_stat_modifier (mkStats 0 (-50) 0 (-50)) 4 Sample.pikachu).
Proof.
  refine (proj1 (proj2 (health_stays_in_bounds Sample.pikachu _)) _ _).
  vm_compute. discriminate.
Defined.

(** When no modifier is in effect, the health lies between 0 and the
    maximum, the base hit chance is 1 and the other base stats lie between 0
    and [CHECKED], [level_up] returns: it raises the level by one, the
    maximum health to [floor(21 * old / 20)], and the health by exactly what
    the maximum health gained: the health that was missing is still
    missing. *)
Theorem level_up_keeps_health_deficit (p : Pokemon) :
  pokemon_stat_modifiers p = [] →
  0 <= pokemon_health p <= Pokemon_get_max_health p →
  stat_hit_chance (pokemon_stats p) = 1%Q →
  Pokemon_get_max_health p <= CHECKED →
  0 <= stat_attack (pokemon_stats p) <= CHECKED →
  0 <= stat_defense (pokemon_stats p) <= CHECKED →
  ∃ p',
    Pokemon_level_up p = Ok p'
    ∧ pokemon_level p' = pokemon_level p + 1
    ∧ Pokemon_get_max_health p' = 21 * Pokemon_get_max_health p / 20
    ∧ Pokemon_get_max_health p' - pokemon_health p'
      = Pokemon_get_max_health p - pokemon_health p
    ∧ pokemon_experience p' = pokemon_experience p
    ∧ pokemon_moves p' = pokemon_moves p.
Proof.
  intros Hmods Hhealth Hhit Hmax Ha Hd. unfold Pokemon_get_max_health in *.
  destruct (level_up_grows_stats_by_five_percent_helper (pokemon_stats p))
    as (Hstats & Hgrown); [done|lia|done|done|].
  unfold Pokemon_level_up. cbv zeta.
  change (pokemon_stats (with_level _ p)) with (pokemon_stats p).
  rewrite Hstats. cbn [mbind Res_bind]. eexists. split; [done|].
  destruct p as [name element stats modifiers health level experience moves].
  simpl in *. subst modifiers.
  unfold Pokemon_modify_health, Pokemon_get_stats. simpl.
  repeat split; try done; unfold Pokemon_get_max_health; simpl; lia.
Qed.

(** The pokemon of the docstring of [level_up]: 80 of 100 health points
    become 85 of 105. *)
Lemma level_up_keeps_health_deficit_witness :
  ∃ p',
    Pokemon_level_up (Pokemon_modify_health (-20) Sample.jynx) = Ok p'
    ∧ pokemon_level p'
      = pokemon_level (Pokemon_modify_health (-20) Sample.jynx) + 1
    ∧ Pokemon_get_max_health p'
      = 21 * Pokemon_get_max_health (Pokemon_modify_health (-20) Sample.jynx)
        / 20
    ∧ Pokemon_get_max_health p' - pokemon_health p'
      = Pokemon_get_max_health (Pokemon_modify_health (-20) Sample.jynx)
        - pokemon_health (Pokemon_modify_health (-20) Sample.jynx)
    ∧ pokemon_experience p'
      = pokemon_experience (Pokemon_modify_health (-20) Sample.jynx)
    ∧ pokemon_moves p'
      = pokemon_moves (Pokemon_modify_health (-20) Sample.jynx).
Proof.
  apply (level_up_keeps_health_deficit
           (Pokemon_modify_health (-20) Sample.jynx));
    [reflexivity|by vm_compute..].
Defined.

(** ** Rest and upkeep *)

Lemma get_map_values {K V : Type} `{EqDecision K} (f : K → V)
    (d : list (K * V)) (k : K) :
  Py.get (map (fun entry => (entry.1, f entry.1)) d) k
  = if Py.contains d k then Some (f k) else None.
Proof.
  unfold Py.contains. induction d as [|[k' v'] d IH]; simpl; [done|].
  destruct (decide (k' = k)) as [->|Hne]; [done|]. exact IH.
Qed.

Lemma keys_map_values {K V : Type} (f : K → V) (d : list (K * V)) :
  Py.keys (map (fun entry => (entry.1, f entry.1)) d) = Py.keys d.
Proof.
  unfold Py.keys. induction d as [|[k' v'] d IH]; simpl; [done|]. by f_equal.
Qed.

(** After [rest] the health is the base maximum health, no modifier is in
    effect (the stats are the base stats), the pokemon knows the same moves
    in the same order and each has its maximum uses again; level and
    experience are untouched, and resting twice is resting once. *)
Theorem rest_restores (p : Pokemon) :
  pokemon_health (Pokemon_rest p) = Pokemon_get_max_health p
  ∧ pokemon_stat_modifiers (Pokemon_rest p) = []
  ∧ Pokemon_get_stats (Pokemon_rest p) = pokemon_stats p
  ∧ Py.keys (pokemon_moves (Pokemon_rest p)) = Py.keys (pokemon_moves p)
  ∧ (∀ move,
       Pokemon_get_remaining_move_uses move (Pokemon_rest p)
       = if Py.contains (pokemon_moves p) move
         then Move_get_max_uses move else 0)
  ∧ pokemon_level (Pokemon_rest p) = pokemon_level p
  ∧ pokemon_experience (Pokemon_rest p) = pokemon_experience p
  ∧ Pokemon_rest (Pokemon_rest p) = Pokemon_rest p.
Proof.
  split; [done|]. split; [done|]. split; [done|].
  split; [apply (keys_map_values Move_get_max_uses)|].
  split; [|split; [done|split; [done|]]].
  - intros move. unfold Pokemon_get_remaining_move_uses, Pokemon_rest. simpl.
    rewrite (get_map_values Move_get_max_uses).
    by destruct (Py.contains (pokemon_moves p) move).
  - unfold Pokemon_rest, with_moves, with_stat_modifiers, with_health. simpl.
    f_equal. rewrite map_map. apply map_ext. by intros [move uses].
Qed.

Lemma tick_modifiers_iter_cons (k : nat) : ∀ modifier rounds l,
  Nat.iter (S k) tick_modifiers ((modifier, rounds) :: l)
  = if Z.of_nat (S k) <? rounds
    then (modifier, rounds - Z.of_nat (S k)) :: Nat.iter (S k) tick_modifiers l
    else Nat.iter (S k) tick_modifiers l.
Proof.
  induction k as [|k IH]; intros modifier rounds l.
  - done.
  - rewrite !(Nat.iter_succ (S k)), IH.
    destruct (Z.ltb_spec (Z.of_nat (S k)) rounds) as [Hlt|Hge].
    + cbn [tick_modifiers].
      destruct (Z.ltb_spec 1 (rounds - Z.of_nat (S k)));
        destruct (Z.ltb_spec (Z.of_nat (S (S k))) rounds); try lia; [|done].
      f_equal. f_equal. lia.
    + destruct (Z.ltb_spec (Z.of_nat (S (S k))) rounds); [lia|done].
Qed.

Lemma tick_modifiers_iter (k : nat) (l : list (Stats * Z)) :
  (0 < k)%nat →
  Nat.iter k tick_modifiers l
  = map (fun entry => (entry.1, entry.2 - Z.of_nat k))
      (filter (fun entry => Z.of_nat k < entry.2) l).
Proof.
  intros Hk. destruct k as [|k]; [lia|]. clear Hk.
  induction l as [|[modifier rounds] l IH].
  - clear. induction k as [|k IH]; [done|]. by rewrite Nat.iter_succ, IH.
  - rewrite tick_modifiers_iter_cons, filter_cons, IH.
    cbn [fst snd].
    destruct (Z.ltb_spec (Z.of_nat (S k)) rounds).
    + by rewrite decide_True.
    + by rewrite decide_False by lia.
Qed.

Lemma post_round_actions_iter_modifiers (k : nat) (p : Pokemon) :
  pokemon_stat_modifiers (Nat.iter k Pokemon_post_round_actions p)
  = Nat.iter k tick_modifiers (pokemon_stat_modifiers p).
Proof.
  induction k as [|k IH]; [done|].
  by rewrite !Nat.iter_succ, post_round_actions_modifiers, IH.
Qed.

(** After [k] upkeeps, one or more, exactly the modifiers that had more than
    [k] rounds left are still in effect, in their order, each with [k]
    rounds less: a modifier added for [n] rounds is gone after the [n]-th
    upkeep and not before. *)
Theorem modifiers_after_upkeeps (k : nat) (p : Pokemon) :
  (0 < k)%nat →
  pokemon_stat_modifiers (Nat.iter k Pokemon_post_round_actions p)
  = map (fun entry => (entry.1, entry.2 - Z.of_nat k))
      (filter (fun entry => Z.of_nat k < entry.2) (pokemon_stat_modifiers p)).
Proof.
  intros Hk. rewrite post_round_actions_iter_modifiers.
  by apply tick_modifiers_iter.
Qed.

(** Pikachu is buffed for 5 rounds and debuffed for 4: after four upkeeps only
    the buff is left, with one round. *)
Lemma modifiers_after_upkeeps_witness :
  pokemon_stat_modifiers
    (Nat.iter 4 Pokemon_post_round_actions
       (Pokemon_add_stat_modifier (mkStats 0 (-50) 0 (-50)) 4
          (Pokemon_add_stat_modifier (mkStats (2 # 10) 100 100 100) 5
             Sample.pikachu)))
  = map (fun entry => (entry.1, entry.2 - Z.of_nat 4))
      (filter (fun entry => Z.of_nat 4 < entry.2)
         (pokemon_stat_modifiers
            (Pokemon_add_stat_modifier (mkStats 0 (-50) 0 (-50)) 4
               (Pokemon_add_stat_modifier (mkStats (2 # 10) 100 100 100) 5
                  Sample.pikachu)))).
Proof. apply modifiers_after_upkeeps. lia. Defined.

(** ** Using a move *)

Lemma same_parties_refl b : same_parties b b.
Proof. done. Qed.

Lemma same_parties_trans b1 b2 b3 :
  same_parties b1 b2 → same_parties b2 b3 → same_parties b1 b3.
Proof.
  intros (Hp & He & Hf & Hr) (Hp' & He' & Hf' & Hr').
  split; [congruence|]. split; [congruence|]. split; [congruence|].
  intros r. destruct (Hr r) as (? & ? & ?), (Hr' r) as (? & ? & ?).
  repeat split; congruence.
Qed.

Lemma same_parties_on_pokemon r method b :
  keeps_identity (battle_store b r) (method (battle_store b r)) →
  same_parties b (on_pokemon r method b).
Proof.
  intros Hkeeps. split; [done|]. split; [done|]. split; [done|].
  intros x. destruct (decide (r = x)) as [<-|Hne].
  - by rewrite on_pokemon_store_eq.
  - by rewrite on_pokemon_store_ne.
Qed.

Lemma level_ups_keep_identity (n : nat) : ∀ p p',
  Pokemon_level_ups n p = Ok p' → keeps_identity p p'.
Proof.
  induction n as [|n IH]; intros p p'; cbn [Pokemon_level_ups].
  - by intros [= <-].
  - unfold mbind, Res_bind.
    destruct (Pokemon_level_up p) as [p1|] eqn:Hp1; [|done].
    apply level_up_inv in Hp1 as (stats & _ & ->).
    intros (? & ? & ?)%IH. by repeat split.
Qed.

Lemma gain_experience_keeps_identity float_cube_root experience p gained :
  Pokemon_gain_experience float_cube_root experience p = Ok gained →
  keeps_identity p gained.
Proof.
  intros Hgained.
  pose proof (gain_experience_outcome _ _ _ _ Hgained) as (Htotal & _).
  destruct (gain_experience_cases float_cube_root experience p)
    as (_ & _ & Hrange).
  rewrite Hrange in Hgained by done.
  by apply level_ups_keep_identity in Hgained.
Qed.

Section moves.
Variable effectiveness : string -> string -> Py.num.
Variable float_cube_root : Z -> Z.

Lemma Move_apply_ally_effects_same_parties self b is_player b' summary :
  Move_apply_ally_effects self b is_player = Ok (b', summary) →
  same_parties b b'.
Proof.
  unfold Move_apply_ally_effects, Buff_apply_ally_effects. intros H.
  outcomes H; try apply same_parties_refl.
  by apply same_parties_on_pokemon.
Qed.

Lemma Move_apply_enemy_effects_same_parties self roll b is_player b' summary :
  Move_apply_enemy_effects effectiveness float_cube_root self roll b is_player
  = Ok (b', summary) →
  same_parties b b'.
Proof.
  unfold Move_apply_enemy_effects, Attack_apply_enemy_effects,
    Debuff_apply_enemy_effects.
  intros H. outcomes H; try apply same_parties_refl;
    try (by apply same_parties_on_pokemon).
  match goal with
  | |- same_parties b (on_pokemon _ _ ?b1) =>
      apply (same_parties_trans _ b1); [by apply same_parties_on_pokemon|]
  end.
  apply same_parties_on_pokemon.
  by eapply gain_experience_keeps_identity.
Qed.

(** A move that was applied has cost the pokemon that used it one use of it,
    down to 0 at the least, whether it hit or missed; its other moves, and
    the moves of every other pokemon, have the uses they had. *)
Theorem Move_apply_costs_one_use (self : Move) (roll : Q) (b : Battle)
    (is_player : bool) (b' : Battle) (summary : ActionSummary)
    (pokemon : PokemonRef) :
  Move_apply effectiveness float_cube_root self roll b is_player
  = Ok (b', summary) →
  Trainer_get_current_pokemon (Battle_get_trainer is_player b) = Ok pokemon →
  Pokemon_get_remaining_move_uses self (battle_store b' pokemon)
  = Z.max 0
      (Pokemon_get_remaining_move_uses self (battle_store b pokemon) - 1)
  ∧ (∀ move, move ≠ self →
       Pokemon_get_remaining_move_uses move (battle_store b' pokemon)
       = Pokemon_get_remaining_move_uses move (battle_store b pokemon))
  ∧ (∀ r, r ≠ pokemon →
       pokemon_moves (battle_store b' r) = pokemon_moves (battle_store b r))
  ∧ Trainer_get_current_pokemon (Battle_get_trainer is_player b') = Ok pokemon.
Proof.
  unfold Move_apply. intros H Hcurrent. unfold mbind, Res_bind in H.
  rewrite Hcurrent in H.
  destruct (Move_apply_ally_effects _ _ _) as [[b1 ally]|] eqn:Hally; [|done].
  destruct (Move_apply_enemy_effects _ _ _ _ _ _) as [[b2 enemy]|] eqn:Henemy;
    [|done].
  apply Move_apply_ally_effects_same_parties in Hally.
  apply Move_apply_enemy_effects_same_parties in Henemy.
  pose proof (same_parties_trans _ _ _ Hally Henemy) as (Hp & He & _ & Hr).
  assert (Hsame : Battle_get_trainer is_player b2
                  = Battle_get_trainer is_player b)
    by (destruct is_player; simpl; congruence).
  rewrite Hsame, Hcurrent in H. simplify_eq.
  split; [|split; [|split]].
  - rewrite on_pokemon_store_eq.
    unfold Pokemon_get_remaining_move_uses, Pokemon_reduce_move_count.
    destruct (Hr pokemon) as (-> & _).
    destruct (Py.get (pokemon_moves (battle_store b pokemon)) self)
      as [uses|] eqn:Hget; simpl.
    + by rewrite get_set.
    + destruct (Hr pokemon) as (Hmoves & _). rewrite Hmoves, Hget. simpl. lia.
  - intros move Hne. rewrite on_pokemon_store_eq.
    unfold Pokemon_get_remaining_move_uses, Pokemon_reduce_move_count.
    destruct (Hr pokemon) as (Hmoves & _). rewrite Hmoves.
    destruct (Py.get (pokemon_moves (battle_store b pokemon)) self)
      as [uses|] eqn:Hget; simpl.
    + by rewrite get_set_ne.
    + by rewrite Hmoves.
  - intros r Hne. rewrite on_pokemon_store_ne by done. apply Hr.
  - destruct is_player; simpl in *; congruence.
Qed.

End moves.

(** Ash's meditate in the round of the two status moves. *)
Lemma Move_apply_costs_one_use_witness :
  Pokemon_get_remaining_move_uses Sample.meditate
    (battle_store Sample.status_second_applied 0%nat)
  = Z.max 0
      (Pokemon_get_remaining_move_uses Sample.meditate
         (battle_store (with_action_queue [] Sample.status_after_first) 0%nat)
       - 1).
Proof.
  refine (proj1 (Move_apply_costs_one_use Sample.no_effectiveness
                   floor_cube_root Sample.meditate 0
                   (with_action_queue [] Sample.status_after_first) true
                   Sample.status_second_applied
                   ["Pikachu used meditate."; "Pikachu was buffed for 5 turns."]
                   0%nat _ _)).
  - vm_compute. reflexivity.
  - vm_compute. reflexivity.
Defined.

Lemma name_on_pokemon r method b x :
  keeps_identity (battle_store b r) (method (battle_store b r)) →
  Pokemon_get_name (battle_store (on_pokemon r method b) x)
  = Pokemon_get_name (battle_store b x).
Proof.
  intros Hkeeps.
  destruct (same_parties_on_pokemon r method b Hkeeps) as (_ & _ & _ & Hr).
  apply Hr.
Qed.

Lemma combine_app (s summary : ActionSummary) :
  ActionSummary_combine s summary = s ++ summary.
Proof.
  unfold ActionSummary_combine, ActionSummary_get_messages,
    ActionSummary_add_message.
  revert s. induction summary as [|message summary IH]; intros s; simpl.
  - by rewrite app_nil_r.
  - by rewrite IH, <- app_assoc.
Qed.

Section summaries.
Variable effectiveness : string -> string -> Py.num.
Variable float_cube_root : Z -> Z.

(** The summary of a move starts with the message that the pokemon used it.
    A buff adds the message that the pokemon was buffed and a debuff the
    message that the opposing pokemon was debuffed.  An attack that misses
    adds the message that the pokemon missed.  An attack that hits takes
    the calculated damage from the health of the opposing pokemon: if that
    leaves it with health it adds nothing, and if the opposing pokemon has
    fainted it adds the message that it has fainted followed by the
    experience the attacker gained, which is the experience the fainted
    pokemon awards. *)
Theorem Move_apply_summary (self : Move) (roll : Q) (b : Battle)
    (is_player : bool) (b' : Battle) (summary : ActionSummary)
    (p : PokemonRef) :
  Move_apply effectiveness float_cube_root self roll b is_player
  = Ok (b', summary) →
  Trainer_get_current_pokemon (Battle_get_trainer is_player b) = Ok p →
  ∃ effects,
    summary
    = (Pokemon_get_name (battle_store b p) +:+ " used " +:+ move_name self
       +:+ ".") :: effects
    ∧ match move_kind self with
      | Buff _ rounds =>
          effects
          = [Pokemon_get_name (battle_store b p) +:+ " was buffed for "
             +:+ Py.str rounds +:+ " turns."]
      | Debuff _ rounds =>
          ∃ q,
            Trainer_get_current_pokemon (Battle_get_trainer (negb is_player) b)
            = Ok q
            ∧ effects
              = [Pokemon_get_name (battle_store b q) +:+ " was debuffed for "
                 +:+ Py.str rounds +:+ " turns."]
      | Attack base_damage hit_chance =>
          ∃ q,
            Trainer_get_current_pokemon (Battle_get_trainer (negb is_player) b)
            = Ok q
            ∧ if Attack_did_hit hit_chance roll (battle_store b p)
              then
                ∃ damage,
                  Attack_calculate_damage effectiveness self base_damage
                    (battle_store b p) (battle_store b q) = Ok damage
                  ∧ if Pokemon_has_fainted
                         (Pokemon_modify_health (- damage) (battle_store b q))
                    then
                      ∃ exp,
                        Pokemon_experience_on_death (battle_store b q) = Ok exp
                        ∧ effects
                          = [Pokemon_get_name (battle_store b q)
                             +:+ " has fainted.";
                             Pokemon_get_name (battle_store b p) +:+ " gained "
                             +:+ Py.str exp +:+ " exp."]
                    else effects = []
              else effects
                   = [Pokemon_get_name (battle_store b p) +:+ " missed!"]
      end.
Proof.
  unfold Move_apply. intros H Hcurrent. unfold mbind, Res_bind in H.
  rewrite Hcurrent in H.
  destruct (Move_apply_ally_effects _ _ _) as [[b1 ally]|] eqn:Hally; [|done].
  destruct (Move_apply_enemy_effects _ _ _ _ _ _) as [[b2 enemy]|] eqn:Henemy;
    [|done].
  destruct (Trainer_get_current_pokemon _) as [current|]; [|done].
  simplify_eq. rewrite !combine_app.
  exists (ally ++ enemy). split; [by rewrite <- app_assoc|].
  unfold Move_apply_ally_effects, Buff_apply_ally_effects in Hally.
  unfold Move_apply_enemy_effects, Attack_apply_enemy_effects,
    Debuff_apply_enemy_effects in Henemy.
  destruct (move_kind self) as [base_damage hit_chance|modification rounds
                               |modification rounds].
  - simplify_eq. rewrite app_nil_l. unfold mbind, Res_bind in Henemy.
    rewrite Hcurrent in Henemy.
    destruct (Trainer_get_current_pokemon
                (Battle_get_trainer (negb is_player) b1)) as [q|]; [|done].
    exists q. split; [done|].
    destruct (Attack_did_hit hit_chance roll (battle_store b1 p));
      unfold negb in Henemy; cbv iota in Henemy.
    + destruct (Attack_calculate_damage _ _ _ _ _) as [damage|]; [|done].
      exists damage. split; [done|].
      rewrite (on_pokemon_store_eq q) in Henemy.
      destruct (Pokemon_has_fainted
                  (Pokemon_modify_health (- damage) (battle_store b1 q)));
        [|by simplify_eq].
      change (Pokemon_experience_on_death
                (Pokemon_modify_health (- damage) (battle_store b1 q)))
        with (Pokemon_experience_on_death (battle_store b1 q)) in Henemy.
      destruct (Pokemon_experience_on_death (battle_store b1 q)) as [exp|];
        [|done].
      exists exp. split; [done|].
      destruct (Pokemon_gain_experience _ _ _) as [gained|] eqn:Hgain; [|done].
      apply gain_experience_keeps_identity in Hgain.
      assert (Hname : ∀ x,
                Pokemon_get_name
                  (battle_store
                     (on_pokemon p (fun _ => gained)
                        (on_pokemon q (Pokemon_modify_health (- damage)) b1))
                     x)
                = Pokemon_get_name (battle_store b1 x)).
      { intros x. rewrite name_on_pokemon by done. by rewrite name_on_pokemon. }
      injection Henemy as _ <-.
      rewrite <- (Hname p), <- (Hname q). reflexivity.
    + by simplify_eq.
  - unfold mbind, Res_bind in Hally. rewrite Hcurrent in Hally.
    pose proof (name_on_pokemon p (Pokemon_add_stat_modifier modification rounds)
                  b p (conj eq_refl (conj eq_refl eq_refl))) as Hname.
    injection Henemy as _ <-. injection Hally as _ <-.
    rewrite app_nil_r, <- Hname. reflexivity.
  - simplify_eq. unfold mbind, Res_bind in Henemy.
    destruct (Trainer_get_current_pokemon
                (Battle_get_trainer (negb is_player) b1)) as [q|]; [|done].
    exists q. split; [done|].
    pose proof (name_on_pokemon q (Pokemon_add_stat_modifier modification rounds)
                  b1 q (conj eq_refl (conj eq_refl eq_refl))) as Hname.
    injection Henemy as _ <-.
    rewrite app_nil_l, <- Hname. reflexivity.
Qed.

End summaries.

(** Ash's Quick Attack, which makes Geodude faint. *)
Lemma Move_apply_summary_witness :
  ∃ effects,
    ["Pikachu used Quick Attack."; "Geodude has fainted.";
     "Pikachu gained 142 exp."]
    = (Pokemon_get_name (battle_store Sample.duel 0%nat) +:+ " used "
       +:+ move_name Sample.quick_attack +:+ ".") :: effects
    ∧ match move_kind Sample.quick_attack with
      | Buff _ rounds =>
          effects
          = [Pokemon_get_name (battle_store Sample.duel 0%nat)
             +:+ " was buffed for " +:+ Py.str rounds +:+ " turns."]
      | Debuff _ rounds =>
          ∃ q,
            Trainer_get_current_pokemon
              (Battle_get_trainer (negb true) Sample.duel) = Ok q
            ∧ effects
              = [Pokemon_get_name (battle_store Sample.duel q)
                 +:+ " was debuffed for " +:+ Py.str rounds +:+ " turns."]
      | Attack base_damage hit_chance =>
          ∃ q,
            Trainer_get_current_pokemon
              (Battle_get_trainer (negb true) Sample.duel) = Ok q
            ∧ if Attack_did_hit hit_chance 0 (battle_store Sample.duel 0%nat)
              then
                ∃ damage,
                  Attack_calculate_damage Sample.no_effectiveness
                    Sample.quick_attack base_damage
                    (battle_store Sample.duel 0%nat)
                    (battle_store Sample.duel q) = Ok damage
                  ∧ if Pokemon_has_fainted
                         (Pokemon_modify_health (- damage)
                            (battle_store Sample.duel q))
                    then
                      ∃ exp,
                        Pokemon_experience_on_death
                          (battle_store Sample.duel q) = Ok exp
                        ∧ effects
                          = [Pokemon_get_name (battle_store Sample.duel q)
                             +:+ " has fainted.";
                             Pokemon_get_name (battle_store Sample.duel 0%nat)
                             +:+ " gained " +:+ Py.str exp +:+ " exp."]
                    else effects = []
              else effects
                   = [Pokemon_get_name (battle_store Sample.duel 0%nat)
                      +:+ " missed!"]
      end.
Proof.
  refine (Move_apply_summary Sample.no_effectiveness floor_cube_root
            Sample.quick_attack 0 Sample.duel true
            (Sample.battle_of
               (Move_apply Sample.no_effectiveness floor_cube_root
                  Sample.quick_attack 0 Sample.duel true))
            _ 0%nat _ _).
  - vm_compute. reflexivity.
  - reflexivity.
Defined.

(** ** The roster *)

Lemma Trainer_add_pokemon_roster r t :
  trainer_pokemon (Trainer_add_pokemon r t) = trainer_pokemon t ++ [r].
Proof.
  unfold Trainer_add_pokemon. simpl. by destruct (trainer_selected_pokemon t).
Qed.

Lemma Trainer_add_pokemon_selected r t :
  trainer_selected_pokemon (Trainer_add_pokemon r t)
  = Some (default 0 (trainer_selected_pokemon t)).
Proof.
  unfold Trainer_add_pokemon. simpl.
  destruct (trainer_selected_pokemon t) eqn:Hselected; simpl; [|done].
  by rewrite Hselected.
Qed.

Lemma add_pokemon_history (rs : list PokemonRef) : ∀ t,
  respects_can_add_pokemon t rs →
  NoDup (trainer_pokemon t) →
  trainer_pokemon (Trainer_calls t (map add_pokemon rs))
  = trainer_pokemon t ++ rs
  ∧ NoDup (trainer_pokemon (Trainer_calls t (map add_pokemon rs)))
  ∧ (rs ≠ [] →
     (length (trainer_pokemon (Trainer_calls t (map add_pokemon rs))) ≤ 6)%nat
     ∧ trainer_selected_pokemon (Trainer_calls t (map add_pokemon rs))
       = Some (default 0 (trainer_selected_pokemon t))).
Proof.
  induction rs as [|r rs IH]; intros t Hrs Hdistinct; simpl.
  - by rewrite app_nil_r.
  - destruct Hrs as [Hcan Hrs].
    apply Trainer_can_add_pokemon_iff in Hcan as [Hnew Hroom].
    destruct (IH (Trainer_add_pokemon r t) Hrs) as (Hroster & Hnodup & Hrest).
    { rewrite Trainer_add_pokemon_roster. apply NoDup_app.
      split; [done|]. split; [|apply NoDup_singleton].
      by intros x Hx ->%list_elem_of_singleton. }
    rewrite Trainer_add_pokemon_roster, <- app_assoc in Hroster.
    split; [done|]. split; [done|]. intros _.
    destruct rs as [|r' rs].
    + simpl. rewrite Trainer_add_pokemon_roster, length_app,
        Trainer_add_pokemon_selected. simpl. split; [lia|done].
    + destruct Hrest as [Hlen Hselected]; [done|]. split; [done|].
      by rewrite Hselected, Trainer_add_pokemon_selected.
Qed.

(** A new trainer to whom pokemon are added, each while [can_add_pokemon]
    holds, has exactly these pokemon in the order they were added, none of
    them twice and at most six; his current pokemon is the first one that was
    added, however many follow. *)
Theorem roster_of_a_new_trainer (name : string) (first : PokemonRef)
    (others : list PokemonRef) :
  respects_can_add_pokemon (Trainer_init name) (first :: others) →
  trainer_pokemon (Trainer_calls (Trainer_init name)
                     (map add_pokemon (first :: others)))
  = first :: others
  ∧ NoDup (first :: others)
  ∧ (length (first :: others) ≤ 6)%nat
  ∧ Trainer_get_current_pokemon
      (Trainer_calls (Trainer_init name) (map add_pokemon (first :: others)))
    = Ok first.
Proof.
  intros Hrs.
  destruct (add_pokemon_history (first :: others) (Trainer_init name) Hrs)
    as (Hroster & Hnodup & Hrest); [constructor|].
  destruct Hrest as [Hlen Hselected]; [done|].
  rewrite Hroster in Hnodup, Hlen.
  split; [exact Hroster|]. split; [exact Hnodup|]. split; [exact Hlen|].
  unfold Trainer_get_current_pokemon. rewrite Hselected, Hroster.
  reflexivity.
Qed.

(** Ash's six pokemon. *)
Lemma roster_of_a_new_trainer_witness :
  trainer_pokemon (Trainer_calls (Trainer_init "Ash")
                     (map add_pokemon [0; 3; 4; 5; 6; 7]%nat))
  = [0; 3; 4; 5; 6; 7]%nat
  ∧ NoDup [0; 3; 4; 5; 6; 7]%nat
  ∧ (length [0; 3; 4; 5; 6; 7]%nat ≤ 6)%nat
  ∧ Trainer_get_current_pokemon
      (Trainer_calls (Trainer_init "Ash")
         (map add_pokemon [0; 3; 4; 5; 6; 7]%nat))
    = Ok 0%nat.
Proof.
  apply (roster_of_a_new_trainer "Ash" 0%nat [3; 4; 5; 6; 7]%nat).
  vm_compute. repeat split.
Defined.

Lemma rest_all_pokemon_fold (l : list PokemonRef) : ∀ (st : Store) r,
  fold_left (fun st' x => <[x := Pokemon_rest (st' x)]> st') l st r
  = if decide (r ∈ l) then Pokemon_rest (st r) else st r.
Proof.
  induction l as [|a l IH]; intros st r; cbn [fold_left].
  - by rewrite decide_False by apply not_elem_of_nil.
  - rewrite IH. destruct (decide (a = r)) as [->|Hne].
    + rewrite fn_lookup_insert, (decide_True (P := r ∈ r :: l)) by (by left).
      destruct (decide (r ∈ l)); [|done].
      by destruct (rest_restores (st r)) as (_ & _ & _ & _ & _ & _ & _ & ->).
    + rewrite fn_lookup_insert_ne by done.
      destruct (decide (r ∈ l)) as [Hin|Hnotin].
      * by rewrite (decide_True (P := r ∈ a :: l)) by (by right).
      * rewrite (decide_False (P := r ∈ a :: l)); [done|].
        intros [?|?]%elem_of_cons; [congruence|done].
Qed.

(** [rest_all_pokemon] rests every pokemon of the roster, once even if it is
    in the roster twice, and touches no other pokemon; afterwards, when the
    roster is not empty and its pokemon have a positive base maximum health,
    not all of them have fainted. *)
Theorem rest_all_pokemon_rests_the_roster (st : Store) (t : Trainer) :
  (∀ r, r ∈ trainer_pokemon t →
     Trainer_rest_all_pokemon st t r = Pokemon_rest (st r))
  ∧ (∀ r, r ∉ trainer_pokemon t → Trainer_rest_all_pokemon st t r = st r)
  ∧ (trainer_pokemon t ≠ [] →
     (∀ r, r ∈ trainer_pokemon t → 0 < Pokemon_get_max_health (st r)) →
     Trainer_all_pokemon_fainted (Trainer_rest_all_pokemon st t) t = false).
Proof.
  unfold Trainer_rest_all_pokemon. split; [|split].
  - intros r Hr. by rewrite rest_all_pokemon_fold, decide_True.
  - intros r Hr. by rewrite rest_all_pokemon_fold, decide_False.
  - intros Hroster Hhealth. unfold Trainer_all_pokemon_fainted.
    destruct (trainer_pokemon t) as [|r l] eqn:Hl; [done|]. cbn [forallb].
    rewrite (rest_all_pokemon_fold (r :: l) st r), decide_True by (by left).
    unfold Pokemon_has_fainted.
    destruct (rest_restores (st r)) as (-> & _).
    specialize (Hhealth r (list_elem_of_here _ _)).
    by destruct (Z.eqb_spec (Pokemon_get_max_health (st r)) 0); [lia|].
Qed.

(** Brock's pokemon after the round in which Geodude fainted. *)
Lemma rest_all_pokemon_rests_the_roster_witness :
  Trainer_all_pokemon_fainted
    (Trainer_rest_all_pokemon (battle_store Sample.stale_after_first)
       Sample.brock)
    Sample.brock
  = false.
Proof.
  refine (proj2 (proj2 (rest_all_pokemon_rests_the_roster
                          (battle_store Sample.stale_after_first)
                          Sample.brock)) _ _).
  - discriminate.
  - intros r Hr. apply list_elem_of_In in Hr.
    destruct Hr as [<-|[<-|[]]]; vm_compute; reflexivity.
Defined.

(** ** Validity and the end of the battle *)

Lemma Action_is_valid_base a b is_player :
  Action_is_valid a b is_player = Ok true →
  Action_base_is_valid b is_player = true.
Proof.
  destruct a as [|index|item|move]; simpl;
    unfold Flee_is_valid, SwitchPokemon_is_valid, Item_is_valid, Move_is_valid;
    intros H; outcomes H;
    try (by apply negb_false_iff);
    try (by destruct (Action_base_is_valid b is_player));
    try (by apply andb_prop in H as [? _]).
Qed.

Lemma base_is_valid_turn b is_player :
  Action_base_is_valid b is_player = true →
  Battle_is_over b = false
  ∧ (battle_turn b = None ∨ battle_turn b = Some is_player).
Proof.
  unfold Action_base_is_valid, Battle_get_turn.
  destruct (Battle_is_over b); [done|].
  destruct (battle_turn b) as [turn|]; [|by auto].
  intros ->%eqb_prop. by auto.
Qed.

Lemma is_over_with_action_queue q b :
  Battle_is_over (with_action_queue q b) = Battle_is_over b.
Proof. done. Qed.

Lemma Action_is_valid_with_action_queue a q b is_player :
  Action_is_valid a (with_action_queue q b) is_player
  = Action_is_valid a b is_player.
Proof. by destruct a. Qed.

Section over.
Variable effectiveness : string -> string -> Py.num.
Variable float_cube_root : Z -> Z.

(** Once the battle is over no action is valid for either side, so
    [queue_action] queues nothing, and [enact_turn] applies nothing: it
    returns no summary and leaves the pokemon, the trainers, the turn and
    the end of the battle as they are (it only takes the head entry off a
    queue that is not empty). *)
Theorem nothing_happens_once_over (b : Battle) :
  Battle_is_over b = true →
  (∀ a is_player, Action_is_valid a b is_player ≠ Ok true)
  ∧ (∀ a is_player b', Battle_queue_action a is_player b = Ok b' → b' = b)
  ∧ (∀ roll b' summary,
       Battle_enact_turn effectiveness float_cube_root roll b
       = Ok (b', summary) →
       summary = None
       ∧ battle_store b' = battle_store b
       ∧ battle_player b' = battle_player b
       ∧ battle_enemy b' = battle_enemy b
       ∧ battle_turn b' = battle_turn b
       ∧ battle_finished_early b' = battle_finished_early b
       ∧ Battle_is_over b' = true).
Proof.
  intros Hover.
  assert (Hinvalid : ∀ a is_player, Action_is_valid a b is_player ≠ Ok true).
  { intros a is_player Hvalid.
    apply Action_is_valid_base, base_is_valid_turn in Hvalid as [? _].
    congruence. }
  split; [done|]. split.
  - intros a is_player b'. unfold Battle_queue_action.
    destruct (_ || _); [by intros [= <-]|].
    unfold mbind, Res_bind.
    destruct (Action_is_valid a b is_player) as [[|]|] eqn:Hvalid;
      [by apply Hinvalid in Hvalid|by intros [= <-]|done].
  - intros roll b' summary. unfold Battle_enact_turn.
    destruct (Battle_is_action_queue_empty b); [by intros [= <- <-]|].
    cbv zeta.
    destruct (battle_action_queue (Battle_sort_actions b))
      as [|[next_action is_player] rest] eqn:Hq; [done|].
    rewrite sort_actions_only_sorts, Action_is_valid_with_action_queue.
    unfold mbind, Res_bind.
    destruct (Action_is_valid next_action b is_player) as [[|]|] eqn:Hvalid;
      [by apply Hinvalid in Hvalid| |done].
    by intros [= <- <-].
Qed.

End over.

(** The battle that Ash's catch of the wild Onix has ended. *)
Lemma nothing_happens_once_over_witness :
  (∀ a is_player,
     Action_is_valid a
       (Sample.battle_of
          (Pokeball_apply Sample.master_ball 1 0 Sample.encounter true))
       is_player
     ≠ Ok true)
  ∧ (∀ a is_player b',
       Battle_queue_action a is_player
         (Sample.battle_of
            (Pokeball_apply Sample.master_ball 1 0 Sample.encounter true))
       = Ok b' →
       b' = Sample.battle_of
              (Pokeball_apply Sample.master_ball 1 0 Sample.encounter true))
  ∧ (∀ roll b' summary,
       Battle_enact_turn Sample.no_effectiveness floor_cube_root roll
         (Sample.battle_of
            (Pokeball_apply Sample.master_ball 1 0 Sample.encounter true))
       = Ok (b', summary) →
       summary = None
       ∧ battle_store b'
         = battle_store
             (Sample.battle_of
                (Pokeball_apply Sample.master_ball 1 0 Sample.encounter true))
       ∧ battle_player b'
         = battle_player
             (Sample.battle_of
                (Pokeball_apply Sample.master_ball 1 0 Sample.encounter true))
       ∧ battle_enemy b'
         = battle_enemy
             (Sample.battle_of
                (Pokeball_apply Sample.master_ball 1 0 Sample.encounter true))
       ∧ battle_turn b'
         = battle_turn
             (Sample.battle_of
                (Pokeball_apply Sample.master_ball 1 0 Sample.encounter true))
       ∧ battle_finished_early b'
         = battle_finished_early
             (Sample.battle_of
                (Pokeball_apply Sample.master_ball 1 0 Sample.encounter true))
       ∧ Battle_is_over b' = true).
Proof.
  apply (nothing_happens_once_over Sample.no_effectiveness floor_cube_root
           (Sample.battle_of
              (Pokeball_apply Sample.master_ball 1 0 Sample.encounter true))).
  reflexivity.
Defined.

Section early_end.
Variable effectiveness : string -> string -> Py.num.
Variable float_cube_root : Z -> Z.

Lemma attempt_end_early_flag b :
  battle_finished_early (Battle_attempt_end_early b)
  = battle_finished_early b || negb (battle_trainer_battle b).
Proof.
  unfold Battle_attempt_end_early.
  destruct (battle_trainer_battle b); simpl;
    by destruct (battle_finished_early b).
Qed.

(** What an action does to the flag: it leaves it, or sets it in a battle
    that is no trainer battle. *)
Lemma Action_apply_finished_early a roll b is_player b' summary :
  Action_apply effectiveness float_cube_root a roll b is_player
  = Ok (b', summary) →
  battle_finished_early b' = battle_finished_early b
  ∨ (battle_finished_early b' = true ∧ battle_trainer_battle b = false).
Proof.
  destruct a as [|index|item|move]; simpl.
  - intros [= <- _]. rewrite attempt_end_early_flag.
    destruct (battle_finished_early b), (battle_trainer_battle b); auto.
  - unfold SwitchPokemon_apply. intros H. outcomes H.
    left. by destruct is_player.
  - destruct (item_kind item).
    + unfold Pokeball_apply, Item_decrement_item_count, Battle_is_trainer_battle.
      intros H. outcomes H; rewrite ?attempt_end_early_flag;
        destruct is_player; simpl in *;
        destruct (battle_finished_early b), (battle_trainer_battle b);
        simpl; auto.
    + unfold Food_apply, Item_decrement_item_count. intros H. outcomes H.
      left. by destruct is_player.
  - unfold Move_apply. intros H. unfold mbind, Res_bind in H.
    destruct (Trainer_get_current_pokemon _); [|done].
    destruct (Move_apply_ally_effects _ _ _) as [[b1 ally]|] eqn:Hally; [|done].
    destruct (Move_apply_enemy_effects _ _ _ _ _ _) as [[b2 enemy]|] eqn:Henemy;
      [|done].
    destruct (Trainer_get_current_pokemon _); [|done].
    apply Move_apply_ally_effects_same_parties in Hally as (_ & _ & Hf1 & _).
    apply Move_apply_enemy_effects_same_parties in Henemy as (_ & _ & Hf2 & _).
    injection H as <- _. left. simpl. congruence.
Qed.

(** The flag that ends a battle early is never taken back: [queue_action]
    does not touch it and after [enact_turn] it is still set if it was.  In a
    trainer battle [enact_turn] never sets it: no flight and no pokeball ends
    a trainer battle early. *)
Theorem ended_early_is_permanent (b : Battle) :
  (∀ a is_player b',
     Battle_queue_action a is_player b = Ok b' →
     battle_finished_early b' = battle_finished_early b)
  ∧ (∀ roll b' summary,
       Battle_enact_turn effectiveness float_cube_root roll b
       = Ok (b', summary) →
       (battle_finished_early b = true → battle_finished_early b' = true)
       ∧ (battle_trainer_battle b = true →
          battle_finished_early b' = battle_finished_early b)).
Proof.
  split.
  - intros a is_player b'. unfold Battle_queue_action.
    destruct (_ || _); [by intros [= <-]|].
    unfold mbind, Res_bind.
    destruct (Action_is_valid a b is_player) as [[|]|]; [| |done];
      by intros [= <-].
  - intros roll b' summary. unfold Battle_enact_turn.
    destruct (Battle_is_action_queue_empty b); [by intros [= <- <-]|].
    cbv zeta.
    destruct (battle_action_queue (Battle_sort_actions b))
      as [|[next_action is_player] rest] eqn:Hq; [done|].
    rewrite sort_actions_only_sorts. unfold mbind, Res_bind.
    destruct (Action_is_valid _ _ _) as [[|]|]; [| |done].
    + destruct (Action_apply _ _ _ _ _ _) as [[b3 result]|] eqn:Happly; [|done].
      apply Action_apply_finished_early in Happly.
      assert (Hflag : ∀ b'', battle_finished_early b'' = battle_finished_early b3
                             → (battle_finished_early b = true →
                                battle_finished_early b'' = true)
                               ∧ (battle_trainer_battle b = true →
                                  battle_finished_early b''
                                  = battle_finished_early b)).
      { intros b'' ->. simpl in Happly.
        destruct Happly as [->|[-> ->]]; [done|]. split; [done|]. done. }
      unfold Battle_update_turn. destruct (battle_turn b3); simpl.
      * destruct (Trainer_get_current_pokemon _); [|done].
        destruct (Trainer_get_current_pokemon _); [|done].
        intros [= <- _]. by apply Hflag.
      * intros [= <- _]. by apply Hflag.
    + by intros [= <- <-].
Qed.

End early_end.

(** ** The queue and the turn *)

Lemma insert_by_Permutation {A : Type} (key : A → Z) x l :
  Py.insert_by key x l ≡ₚ x :: l.
Proof.
  induction l as [|y l IH]; simpl; [done|].
  destruct (_ <=? _); [done|]. rewrite IH. apply Permutation_swap.
Qed.

Lemma sort_by_Permutation {A : Type} (key : A → Z) l : Py.sort_by key l ≡ₚ l.
Proof.
  induction l as [|x l IH]; simpl; [done|].
  by rewrite insert_by_Permutation, IH.
Qed.

Lemma sort_actions_Permutation b :
  battle_action_queue (Battle_sort_actions b) ≡ₚ battle_action_queue b.
Proof.
  unfold Battle_sort_actions. destruct (negb _); [done|].
  apply sort_by_Permutation.
Qed.

Lemma queue_follows_turn_init st player enemy is_trainer_battle :
  queue_follows_turn (Battle_init st player enemy is_trainer_battle).
Proof. split; [apply NoDup_nil_2|done]. Qed.

Section round_invariant.
Variable effectiveness : string -> string -> Py.num.
Variable float_cube_root : Z -> Z.

(** What resolving an entry does to the turn: nothing when the entry is
    stale, and otherwise the turn passes to the other side or the round
    closes. *)
Lemma resolve_turn roll a side b b' summary :
  resolve effectiveness float_cube_root roll (a, side) b = Ok (b', summary) →
  battle_turn b' = battle_turn b
  ∨ (battle_turn b = None ∧ battle_turn b' = Some (negb side))
  ∨ (battle_turn b = Some side ∧ battle_turn b' = None).
Proof.
  unfold resolve, mbind, Res_bind.
  destruct (Action_is_valid a b side) as [[|]|] eqn:Hvalid; [| |done].
  - apply Action_is_valid_base, base_is_valid_turn in Hvalid as [_ Hturn].
    destruct (Action_apply _ _ _ _ _ _) as [[b3 result]|] eqn:Happly; [|done].
    apply Action_apply_same_round in Happly as (Hturn3 & _ & _).
    unfold Battle_update_turn. rewrite Hturn3.
    destruct Hturn as [Hnone|Hsome].
    + rewrite Hnone. simpl. intros [= <- _]. right. left. done.
    + rewrite Hsome. simpl.
      destruct (Trainer_get_current_pokemon _); [|done].
      destruct (Trainer_get_current_pokemon _); [|done].
      intros [= <- _]. right. right. done.
  - intros [= <- _]. by left.
Qed.

(** The queue and the turn stay in step through [queue_action] and
    [enact_turn]: the queue holds each side at most once, and once the first
    action of a round has been performed only the side whose turn it is can
    be in the queue.  So the queue never holds more than two entries, and at
    most one while a round is under way. *)
Theorem queue_follows_turn_is_invariant (b : Battle) :
  queue_follows_turn b →
  (∀ a is_player b',
     Battle_queue_action a is_player b = Ok b' → queue_follows_turn b')
  ∧ (∀ roll b' summary,
       Battle_enact_turn effectiveness float_cube_root roll b
       = Ok (b', summary) →
       queue_follows_turn b')
  ∧ (length (battle_action_queue b) ≤ 2)%nat
  ∧ (battle_turn b ≠ None → (length (battle_action_queue b) ≤ 1)%nat).
Proof.
  intros [Hnodup Hturn]. split; [|split; [|split]].
  - intros a is_player b'. unfold Battle_queue_action.
    destruct (Battle_trainer_has_action_queued is_player b) eqn:Hqueued;
      simpl; [by intros [= <-]|].
    destruct (Battle_is_ready b); simpl; [by intros [= <-]|].
    unfold mbind, Res_bind.
    destruct (Action_is_valid a b is_player) as [[|]|] eqn:Hvalid; [| |done];
      simpl; intros [= <-]; [|done].
    apply Action_is_valid_base, base_is_valid_turn in Hvalid as [_ Hvalid].
    split; simpl; rewrite fmap_app; simpl.
    + apply NoDup_app. split; [done|]. split; [|apply NoDup_singleton].
      intros side Hside ->%list_elem_of_singleton.
      apply trainer_has_action_queued_elem_of in Hside. congruence.
    + intros turn side Hsome [Hside| ->%list_elem_of_singleton]%elem_of_app.
      * by apply Hturn.
      * destruct Hvalid; congruence.
  - intros roll b' summary.
    destruct (battle_action_queue (Battle_sort_actions b))
      as [|[a side] rest] eqn:Hsorted.
    { pose proof (sort_actions_Permutation b) as Hperm.
      rewrite Hsorted in Hperm. apply Permutation_nil_l in Hperm.
      unfold Battle_enact_turn, Battle_is_action_queue_empty.
      rewrite <- Hperm. simpl. intros [= <- _]. split; [done|].
      rewrite <- Hperm. by intros ?? _ ?%elem_of_nil. }
    rewrite (enact_turn_resolve _ _ _ _ (a, side) rest Hsorted).
    intros Hresolve.
    pose proof (resolve_keeps_queue _ _ _ _ _ _ _ Hresolve) as Hqueue.
    apply resolve_turn in Hresolve. simpl in Hqueue, Hresolve.
    pose proof (sort_actions_Permutation b) as Hperm.
    rewrite Hsorted in Hperm.
    assert (Hsides : side :: rest.*2 ≡ₚ (battle_action_queue b).*2).
    { by rewrite <- Hperm. }
    rewrite <- Hsides in Hnodup. apply NoDup_cons in Hnodup as [Hside Hrest].
    split; rewrite Hqueue; [done|].
    intros turn other Hsome Hother.
    destruct Hresolve as [Hsame|[[_ Hnext]|[_ Hnone]]].
    + apply Hturn; [congruence|]. rewrite <- Hsides. by right.
    + assert (other ≠ side) by (by intros ->).
      rewrite Hnext in Hsome. injection Hsome as <-.
      by destruct other, side.
    + congruence.
  - rewrite <- (length_fmap snd). by apply NoDup_bool_length.
  - intros Hsome. destruct (battle_turn b) as [turn|] eqn:Hb; [|done].
    rewrite <- (length_fmap snd).
    destruct ((battle_action_queue b).*2) as [|x [|y l]] eqn:Hq;
      simpl; [lia|lia|].
    assert (x = turn) by (apply (Hturn turn); [done|]; by left).
    assert (y = turn) by (apply (Hturn turn); [done|]; right; by left).
    subst. apply NoDup_cons in Hnodup as [Hx _].
    destruct Hx. by left.
Qed.

End round_invariant.

(** The duel with Ash's tackle and Brock's toxic queued. *)
Lemma queue_follows_turn_is_invariant_witness :
  (∀ a is_player b',
     Battle_queue_action a is_player Sample.tackle_then_toxic = Ok b' →
     queue_follows_turn b')
  ∧ (∀ roll b' summary,
       Battle_enact_turn Sample.no_effectiveness floor_cube_root roll
         Sample.tackle_then_toxic
       = Ok (b', summary) →
       queue_follows_turn b')
  ∧ (length (battle_action_queue Sample.tackle_then_toxic) ≤ 2)%nat
  ∧ (battle_turn Sample.tackle_then_toxic ≠ None →
     (length (battle_action_queue Sample.tackle_then_toxic) ≤ 1)%nat).
Proof.
  apply (queue_follows_turn_is_invariant Sample.no_effectiveness
           floor_cube_root Sample.tackle_then_toxic).
  split.
  - apply (NoDup_cons_2 true [false]).
    + by intros [= ]%list_elem_of_singleton.
    + apply NoDup_singleton.
  - intros turn side Hturn. discriminate Hturn.
Defined.

(** ** Switching, eating, and a pokeball that fails *)

Lemma can_switch_pokemon_chosen st index t :
  Trainer_can_switch_pokemon st index t = true →
  ∃ r, trainer_pokemon t !! Z.to_nat index = Some r
       ∧ Py.getitem (trainer_pokemon t) index = Ok r
       ∧ 0 <= index < Z.of_nat (length (trainer_pokemon t))
       ∧ trainer_selected_pokemon t ≠ Some index
       ∧ Pokemon_has_fainted (st r) = false.
Proof.
  unfold Trainer_can_switch_pokemon.
  destruct (Z.ltb_spec index 0); [done|].
  destruct (Z.leb_spec (Z.of_nat (length (trainer_pokemon t))) index);
    [done|]. simpl.
  destruct (bool_decide_reflect (Some index = trainer_selected_pokemon t));
    [done|].
  destruct (getitem_in_range (trainer_pokemon t) index) as (r & Hr & Hget);
    [lia|].
  rewrite Hr. intros Halive%negb_true_iff. exists r. repeat split; auto; lia.
Qed.

Lemma is_over_switch_pokemon is_player index b :
  Battle_is_over
    (with_trainer is_player
       (Trainer_switch_pokemon index (Battle_get_trainer is_player b)) b)
  = Battle_is_over b.
Proof. by destruct is_player. Qed.

(** A switch that is valid succeeds when the trainer has a pokemon out: the
    pokemon at the chosen index of the roster, which has not fainted, is the
    one out in battle afterwards.  It differs from the one that was out when
    the roster holds no pokemon twice and the selected index was not
    negative.  Nothing else changes: the pokemon, the other trainer, the
    roster, the inventory, and the battle is still not over.  The summary
    calls the old pokemon back if the player switches and it has not
    fainted, and then names the new one. *)
Theorem valid_switch_brings_out_the_chosen_pokemon (index : Z) (b : Battle)
    (is_player : bool) (current : PokemonRef) :
  SwitchPokemon_is_valid index b is_player = Ok true →
  Trainer_get_current_pokemon (Battle_get_trainer is_player b) = Ok current →
  ∃ next b' summary,
    SwitchPokemon_apply index b is_player = Ok (b', summary)
    ∧ Trainer_get_all_pokemon (Battle_get_trainer is_player b)
      !! Z.to_nat index = Some next
    ∧ Trainer_get_current_pokemon (Battle_get_trainer is_player b') = Ok next
    ∧ Pokemon_has_fainted (battle_store b' next) = false
    ∧ (NoDup (Trainer_get_all_pokemon (Battle_get_trainer is_player b)) →
       (∀ selected,
          trainer_selected_pokemon (Battle_get_trainer is_player b)
          = Some selected → 0 <= selected) →
       next ≠ current)
    ∧ battle_store b' = battle_store b
    ∧ Battle_get_trainer (negb is_player) b'
      = Battle_get_trainer (negb is_player) b
    ∧ Trainer_get_all_pokemon (Battle_get_trainer is_player b')
      = Trainer_get_all_pokemon (Battle_get_trainer is_player b)
    ∧ Trainer_get_inventory (Battle_get_trainer is_player b')
      = Trainer_get_inventory (Battle_get_trainer is_player b)
    ∧ Battle_is_over b' = false
    ∧ summary
      = (if is_player && negb (Pokemon_has_fainted (battle_store b current))
         then [Pokemon_get_name (battle_store b current) +:+ ", return!"]
         else [])
        ++ [Trainer_get_name (Battle_get_trainer is_player b)
            +:+ " switched to " +:+ Pokemon_get_name (battle_store b next)
            +:+ "."].
Proof.
  unfold SwitchPokemon_is_valid. intros Hvalid Hcurrent.
  destruct (Action_base_is_valid b is_player) eqn:Hbase; [|done].
  simpl in Hvalid. injection Hvalid as Hswitch.
  apply base_is_valid_turn in Hbase as [Hover _].
  apply can_switch_pokemon_chosen
    in Hswitch as (next & Hnext & Hget & Hrange & Hselected & Halive).
  unfold SwitchPokemon_apply. cbv zeta.
  unfold Trainer_get_all_pokemon, mbind, Res_bind.
  rewrite Hcurrent, Hget.
  assert (Hstore : battle_store
                     (with_trainer is_player
                        (Trainer_switch_pokemon index
                           (Battle_get_trainer is_player b)) b)
                   = battle_store b) by (by destruct is_player).
  rewrite Hstore. eexists next, _, _. split; [reflexivity|].
  rewrite get_trainer_with_trainer, get_other_trainer_with_trainer, Hstore,
    is_over_switch_pokemon.
  repeat split; try done.
  - intros Hnodup Hsel ->.
    unfold Trainer_get_current_pokemon in Hcurrent.
    destruct (trainer_selected_pokemon (Battle_get_trainer is_player b))
      as [selected|] eqn:Hs; [|done].
    specialize (Hsel selected eq_refl).
    destruct (Z.le_gt_cases (Z.of_nat (length (trainer_pokemon
                (Battle_get_trainer is_player b)))) selected) as [Hout|Hin].
    { rewrite getitem_out_of_range in Hcurrent by auto. done. }
    destruct (getitem_in_range (trainer_pokemon
                (Battle_get_trainer is_player b)) selected)
      as (r & Hr & Hget'); [lia|].
    rewrite Hget' in Hcurrent. injection Hcurrent as ->.
    pose proof (NoDup_lookup _ _ _ _ Hnodup Hnext Hr) as Heq.
    apply Hselected. f_equal. lia.
Qed.

(** Brock switches from Geodude to Onix in the duel. *)
Lemma valid_switch_brings_out_the_chosen_pokemon_witness :
  ∃ next b' summary,
    SwitchPokemon_apply 1 Sample.duel false = Ok (b', summary)
    ∧ Trainer_get_all_pokemon (Battle_get_trainer false Sample.duel)
      !! Z.to_nat 1 = Some next
    ∧ Trainer_get_current_pokemon (Battle_get_trainer false b') = Ok next
    ∧ Pokemon_has_fainted (battle_store b' next) = false
    ∧ (NoDup (Trainer_get_all_pokemon (Battle_get_trainer false Sample.duel)) →
       (∀ selected,
          trainer_selected_pokemon (Battle_get_trainer false Sample.duel)
          = Some selected → 0 <= selected) →
       next ≠ 1%nat)
    ∧ battle_store b' = battle_store Sample.duel
    ∧ Battle_get_trainer (negb false) b'
      = Battle_get_trainer (negb false) Sample.duel
    ∧ Trainer_get_all_pokemon (Battle_get_trainer false b')
      = Trainer_get_all_pokemon (Battle_get_trainer false Sample.duel)
    ∧ Trainer_get_inventory (Battle_get_trainer false b')
      = Trainer_get_inventory (Battle_get_trainer false Sample.duel)
    ∧ Battle_is_over b' = false
    ∧ summary
      = (if false
            && negb (Pokemon_has_fainted (battle_store Sample.duel 1%nat))
         then [Pokemon_get_name (battle_store Sample.duel 1%nat)
               +:+ ", return!"]
         else [])
        ++ [Trainer_get_name (Battle_get_trainer false Sample.duel)
            +:+ " switched to "
            +:+ Pokemon_get_name (battle_store Sample.duel next) +:+ "."].
Proof.
  apply (valid_switch_brings_out_the_chosen_pokemon 1 Sample.duel false 1%nat);
    reflexivity.
Defined.

(** A pokeball thrown at a wild pokemon that breaks free: the summary is the
    message that it escaped and the battle goes on as it was, with the same
    pokemon, the same rosters and no early end; only the pokeball, if the
    trainer has it, has one use less. *)
Theorem Pokeball_apply_failed_catch (self : Item) (catch_chance roll : Q)
    (b : Battle) (is_player : bool) (enemy_pokemon : PokemonRef) :
  battle_trainer_battle b = false →
  did_succeed roll catch_chance = false →
  Trainer_get_current_pokemon (Battle_get_trainer (negb is_player) b)
  = Ok enemy_pokemon →
  ∃ b',
    Pokeball_apply self catch_chance roll b is_player
    = Ok (b', [POKEBALL_UNSUCCESSFUL_CATCH
                 (Pokemon_get_name (battle_store b enemy_pokemon))])
    ∧ battle_finished_early b' = battle_finished_early b
    ∧ Battle_is_over b' = Battle_is_over b
    ∧ battle_store b' = battle_store b
    ∧ Battle_get_trainer (negb is_player) b'
      = Battle_get_trainer (negb is_player) b
    ∧ trainer_pokemon (Battle_get_trainer is_player b')
      = trainer_pokemon (Battle_get_trainer is_player b)
    ∧ trainer_selected_pokemon (Battle_get_trainer is_player b')
      = trainer_selected_pokemon (Battle_get_trainer is_player b)
    ∧ (Trainer_has_item self (Battle_get_trainer is_player b) = true →
       default 0
         (Py.get (trainer_inventory (Battle_get_trainer is_player b')) self)
       = default 0
           (Py.get (trainer_inventory (Battle_get_trainer is_player b)) self)
         - 1)
    ∧ (∀ item, item ≠ self →
         Py.get (trainer_inventory (Battle_get_trainer is_player b')) item
         = Py.get (trainer_inventory (Battle_get_trainer is_player b)) item).
Proof.
  intros Hwild Hroll Henemy.
  unfold Pokeball_apply, Battle_is_trainer_battle. cbv zeta.
  assert (Hwild' : battle_trainer_battle
                     (Item_decrement_item_count self is_player b) = false).
  { rewrite <- Hwild. unfold Item_decrement_item_count. by destruct is_player. }
  rewrite Hwild'.
  assert (Hstore : battle_store (Item_decrement_item_count self is_player b)
                   = battle_store b).
  { unfold Item_decrement_item_count. by destruct is_player. }
  assert (Hflag : battle_finished_early
                    (Item_decrement_item_count self is_player b)
                  = battle_finished_early b).
  { unfold Item_decrement_item_count. by destruct is_player. }
  assert (Hother : Battle_get_trainer (negb is_player)
                     (Item_decrement_item_count self is_player b)
                   = Battle_get_trainer (negb is_player) b)
    by apply get_other_trainer_with_trainer.
  rewrite Hstore, Hother, Henemy. cbn [mbind Res_bind]. rewrite Hroll.
  eexists. split; [reflexivity|].
  rewrite is_over_decrement_item_count, Hstore, Hflag.
  unfold Item_decrement_item_count.
  rewrite get_other_trainer_with_trainer, get_trainer_with_trainer,
    Trainer_use_item_pokemon.
  repeat split.
  - unfold Trainer_use_item.
    destruct (Py.get _ _); [destruct (_ =? _)|]; done.
  - apply Trainer_use_item_consumes.
  - intros item Hitem. by apply Trainer_use_item_others.
Qed.

(** Ash's Master Ball, had it a catch chance of one in two, with a roll of
    three in four. *)
Lemma Pokeball_apply_failed_catch_witness :
  ∃ b',
    Pokeball_apply Sample.master_ball (1 # 2) (3 # 4) Sample.encounter true
    = Ok (b', [POKEBALL_UNSUCCESSFUL_CATCH
                 (Pokemon_get_name (battle_store Sample.encounter 2%nat))])
    ∧ battle_finished_early b' = battle_finished_early Sample.encounter
    ∧ Battle_is_over b' = Battle_is_over Sample.encounter
    ∧ battle_store b' = battle_store Sample.encounter
    ∧ Battle_get_trainer (negb true) b'
      = Battle_get_trainer (negb true) Sample.encounter
    ∧ trainer_pokemon (Battle_get_trainer true b')
      = trainer_pokemon (Battle_get_trainer true Sample.encounter)
    ∧ trainer_selected_pokemon (Battle_get_trainer true b')
      = trainer_selected_pokemon (Battle_get_trainer true Sample.encounter)
    ∧ (Trainer_has_item Sample.master_ball
         (Battle_get_trainer true Sample.encounter) = true →
       default 0
         (Py.get (trainer_inventory (Battle_get_trainer true b'))
            Sample.master_ball)
       = default 0
           (Py.get
              (trainer_inventory (Battle_get_trainer true Sample.encounter))
              Sample.master_ball)
         - 1)
    ∧ (∀ item, item ≠ Sample.master_ball →
         Py.get (trainer_inventory (Battle_get_trainer true b')) item
         = Py.get
             (trainer_inventory (Battle_get_trainer true Sample.encounter))
             item).
Proof.
  apply (Pokeball_apply_failed_catch Sample.master_ball (1 # 2) (3 # 4)
           Sample.encounter true 2%nat); reflexivity.
Defined.

Lemma Item_is_valid_current item b is_player :
  Item_is_valid item b is_player = Ok true →
  ∃ p, Trainer_get_current_pokemon (Battle_get_trainer is_player b) = Ok p
       ∧ Pokemon_has_fainted (battle_store b p) = false
       ∧ Battle_is_over b = false.
Proof.
  unfold Item_is_valid. intros H.
  destruct (Action_base_is_valid b is_player) eqn:Hbase; [|done].
  apply base_is_valid_turn in Hbase as [Hover _].
  simpl in H. unfold mbind, Res_bind in H.
  destruct (Trainer_get_current_pokemon _) as [p|]; [|done].
  injection H as [Halive _]%andb_prop. exists p.
  by apply negb_true_iff in Halive.
Qed.

(** Food that is valid to use is eaten: the summary says so, the health of
    the trainer's current pokemon moves by what the food restores, held
    between 0 and the maximum health after modifiers, and the food has one
    use less.  No other pokemon and no other item changes, nor do the
    rosters or the end of the battle.  Food that restores a non-negative
    amount never lowers the health of a pokemon whose health was within its
    bounds, and leaves it standing. *)
Theorem valid_food_is_eaten (self : Item) (health_restored : Z) (b : Battle)
    (is_player : bool) :
  Item_is_valid self b is_player = Ok true →
  ∃ p b',
    Trainer_get_current_pokemon (Battle_get_trainer is_player b) = Ok p
    ∧ Food_apply self health_restored b is_player
      = Ok (b', [Pokemon_get_name (battle_store b p) +:+ " ate "
                 +:+ item_name self +:+ "."])
    ∧ battle_store b' p = Pokemon_modify_health health_restored (battle_store b p)
    ∧ pokemon_health (battle_store b' p)
      = Z.max 0
          (Z.min (pokemon_health (battle_store b p) + health_restored)
             (stat_max_health (Pokemon_get_stats (battle_store b p))))
    ∧ (0 <= health_restored → health_in_bounds (battle_store b p) →
       pokemon_health (battle_store b p) <= pokemon_health (battle_store b' p)
       ∧ Pokemon_has_fainted (battle_store b' p) = false)
    ∧ (∀ r, r ≠ p → battle_store b' r = battle_store b r)
    ∧ default 0
        (Py.get (trainer_inventory (Battle_get_trainer is_player b')) self)
      = default 0
          (Py.get (trainer_inventory (Battle_get_trainer is_player b)) self)
        - 1
    ∧ (∀ item, item ≠ self →
         Py.get (trainer_inventory (Battle_get_trainer is_player b')) item
         = Py.get (trainer_inventory (Battle_get_trainer is_player b)) item)
    ∧ trainer_pokemon (Battle_get_trainer is_player b')
      = trainer_pokemon (Battle_get_trainer is_player b)
    ∧ Battle_get_trainer (negb is_player) b'
      = Battle_get_trainer (negb is_player) b
    ∧ battle_finished_early b' = battle_finished_early b.
Proof.
  intros Hvalid.
  pose proof (Item_is_valid_has_item _ _ _ Hvalid) as Hhas.
  apply Item_is_valid_current in Hvalid as (p & Hcurrent & Halive & _).
  exists p. unfold Food_apply. rewrite Hcurrent. cbn [mbind Res_bind].
  assert (Hstore : ∀ b0, battle_store
                           (Item_decrement_item_count self is_player b0)
                         = battle_store b0).
  { intros b0. unfold Item_decrement_item_count. by destruct is_player. }
  assert (Hname : Pokemon_get_name
                    (Pokemon_modify_health health_restored (battle_store b p))
                  = Pokemon_get_name (battle_store b p)) by done.
  rewrite (Hstore (on_pokemon p (Pokemon_modify_health health_restored) b)),
    on_pokemon_store_eq, Hname.
  exists (Item_decrement_item_count self is_player
            (on_pokemon p (Pokemon_modify_health health_restored) b)).
  split; [done|].
  rewrite (Hstore (on_pokemon p (Pokemon_modify_health health_restored) b)),
    on_pokemon_store_eq.
  split; [done|]. split; [done|]. split; [done|].
  split.
  { intros Hpos [Hlow Hhigh]. unfold Pokemon_has_fainted in *.
    unfold Pokemon_modify_health. cbn [pokemon_health with_health].
    apply Z.eqb_neq in Halive. split; [lia|]. apply Z.eqb_neq. lia. }
  split.
  { intros r Hr. by apply on_pokemon_store_ne. }
  assert (Htrainer : ∀ side, Battle_get_trainer side
                       (on_pokemon p (Pokemon_modify_health health_restored) b)
                     = Battle_get_trainer side b) by (by intros [|]).
  unfold Item_decrement_item_count.
  rewrite get_trainer_with_trainer, get_other_trainer_with_trainer, !Htrainer,
    Trainer_use_item_pokemon.
  split; [by apply Trainer_use_item_consumes|].
  split; [intros item Hitem; by apply Trainer_use_item_others|].
  split; [done|]. split; [done|]. by destruct is_player.
Qed.

(** Pikachu, 30 short of its 100 health, eats the food that restores 20. *)
Lemma valid_food_is_eaten_witness :
  ∃ p b',
    Trainer_get_current_pokemon (Battle_get_trainer true Sample.picnic) = Ok p
    ∧ Food_apply Sample.food 20 Sample.picnic true
      = Ok (b', [Pokemon_get_name (battle_store Sample.picnic p) +:+ " ate "
                 +:+ item_name Sample.food +:+ "."])
    ∧ battle_store b' p
      = Pokemon_modify_health 20 (battle_store Sample.picnic p)
    ∧ pokemon_health (battle_store b' p)
      = Z.max 0
          (Z.min (pokemon_health (battle_store Sample.picnic p) + 20)
             (stat_max_health
                (Pokemon_get_stats (battle_store Sample.picnic p))))
    ∧ (0 <= 20 → health_in_bounds (battle_store Sample.picnic p) →
       pokemon_health (battle_store Sample.picnic p)
       <= pokemon_health (battle_store b' p)
       ∧ Pokemon_has_fainted (battle_store b' p) = false)
    ∧ (∀ r, r ≠ p → battle_store b' r = battle_store Sample.picnic r)
    ∧ default 0
        (Py.get (trainer_inventory (Battle_get_trainer true b')) Sample.food)
      = default 0
          (Py.get (trainer_inventory (Battle_get_trainer true Sample.picnic))
             Sample.food)
        - 1
    ∧ (∀ item, item ≠ Sample.food →
         Py.get (trainer_inventory (Battle_get_trainer true b')) item
         = Py.get (trainer_inventory (Battle_get_trainer true Sample.picnic))
             item)
    ∧ trainer_pokemon (Battle_get_trainer true b')
      = trainer_pokemon (Battle_get_trainer true Sample.picnic)
    ∧ Battle_get_trainer (negb true) b'
      = Battle_get_trainer (negb true) Sample.picnic
    ∧ battle_finished_early b' = battle_finished_early Sample.picnic.
Proof.
  apply (valid_food_is_eaten Sample.food 20 Sample.picnic true).
  reflexivity.
Defined.

(** ** The strategies *)

Lemma insert_by_name_Permutation {A : Type} (key : A → string) x l :
  insert_by_name key x l ≡ₚ x :: l.
Proof.
  induction l as [|y l IH]; simpl; [done|].
  destruct (String.leb _ _); [done|]. rewrite IH. apply Permutation_swap.
Qed.

Lemma sorted_by_name_Permutation {A : Type} (key : A → string) l :
  sorted_by_name key l ≡ₚ l.
Proof.
  induction l as [|x l IH]; simpl; [done|].
  by rewrite insert_by_name_Permutation, IH.
Qed.

Lemma get_elem_of_NoDup {K V : Type} `{EqDecision K} (d : list (K * V)) k v :
  NoDup (Py.keys d) → (k, v) ∈ d → Py.get d k = Some v.
Proof.
  unfold Py.keys. induction d as [|[k' v'] d IH]; simpl; intros Hnodup Hin.
  - by apply elem_of_nil in Hin.
  - apply NoDup_cons in Hnodup as [Hk Hnodup].
    apply elem_of_cons in Hin as [[= -> ->]|Hin].
    + by rewrite decide_True.
    + destruct (decide (k' = k)) as [->|Hne]; [|by apply IH].
      destruct Hk. apply list_elem_of_fmap. by exists (k, v).
Qed.

(** An entry of [get_move_info] carries the uses [is_valid] looks up. *)
Lemma move_info_uses p move uses :
  NoDup (Py.keys (pokemon_moves p)) →
  (move, uses) ∈ Pokemon_get_move_info p →
  Pokemon_get_remaining_move_uses move p = uses.
Proof.
  intros Hnodup Hin. unfold Pokemon_get_move_info in Hin.
  rewrite sorted_by_name_Permutation in Hin.
  unfold Pokemon_get_remaining_move_uses.
  by rewrite (get_elem_of_NoDup _ _ _ Hnodup Hin).
Qed.

Lemma all_pokemon_fainted_false st t :
  Trainer_all_pokemon_fainted st t = false →
  ∃ index r,
    list_find (λ r, Pokemon_has_fainted (st r) = false) (trainer_pokemon t)
    = Some (index, r).
Proof.
  unfold Trainer_all_pokemon_fainted. intros Hnot.
  destruct (list_find _ _) as [[index r]|] eqn:Hfind; [by eauto|].
  apply list_find_None in Hfind.
  assert (forallb (λ r, Pokemon_has_fainted (st r)) (trainer_pokemon t) = true)
    as Hall; [|congruence].
  apply forallb_forall. intros r Hr%list_elem_of_In.
  rewrite Forall_forall in Hfind. specialize (Hfind r Hr).
  by destruct (Pokemon_has_fainted (st r)).
Qed.

Lemma not_over_some_standing b is_player :
  Battle_is_over b = false →
  Trainer_all_pokemon_fainted (battle_store b) (Battle_get_trainer is_player b)
  = false.
Proof.
  unfold Battle_is_over. intros Hover.
  apply orb_false_iff in Hover as [[_ Hplayer]%orb_false_iff Henemy].
  by destruct is_player.
Qed.

(** While the battle is on, [_switch_to_next_pokemon] finds a pokemon when
    the current one has fainted, and the switch to it is valid. *)
Lemma switch_to_next_pokemon_valid b is_player p :
  Action_base_is_valid b is_player = true →
  Trainer_get_current_pokemon (Battle_get_trainer is_player b) = Ok p →
  Pokemon_has_fainted (battle_store b p) = true →
  ∃ a,
    Strategy_switch_to_next_pokemon (battle_store b)
      (Battle_get_trainer is_player b) = Some a
    ∧ Action_is_valid a b is_player = Ok true.
Proof.
  intros Hbase Hcurrent Hfainted.
  pose proof Hbase as [Hover _]%base_is_valid_turn.
  apply (not_over_some_standing _ is_player) in Hover.
  apply all_pokemon_fainted_false in Hover as (index & r & Hfind).
  unfold Strategy_switch_to_next_pokemon, Trainer_get_all_pokemon.
  rewrite Hfind. eexists. split; [done|].
  apply list_find_Some in Hfind as (Hr & Halive & _).
  simpl. unfold SwitchPokemon_is_valid. rewrite Hbase. simpl. f_equal.
  unfold Trainer_can_switch_pokemon.
  pose proof (lookup_lt_Some _ _ _ Hr) as Hlt.
  destruct (Z.ltb_spec (Z.of_nat index) 0); [lia|].
  destruct (Z.leb_spec (Z.of_nat (length (trainer_pokemon
              (Battle_get_trainer is_player b)))) (Z.of_nat index)); [lia|].
  simpl. rewrite Nat2Z.id, Hr, Halive.
  destruct (bool_decide_reflect
              (Some (Z.of_nat index)
               = trainer_selected_pokemon (Battle_get_trainer is_player b)))
    as [Hselected|]; [|done].
  unfold Trainer_get_current_pokemon in Hcurrent.
  rewrite <- Hselected in Hcurrent.
  destruct (getitem_in_range (trainer_pokemon (Battle_get_trainer is_player b))
              (Z.of_nat index)) as (x & Hx & Hget); [lia|].
  rewrite Nat2Z.id in Hx. congruence.
Qed.

Lemma Flee_is_valid_standing b is_player p :
  Action_base_is_valid b is_player = true →
  Trainer_get_current_pokemon (Battle_get_trainer is_player b) = Ok p →
  Pokemon_has_fainted (battle_store b p) = false →
  Flee_is_valid b is_player = Ok true.
Proof.
  intros Hbase Hcurrent Halive. unfold Flee_is_valid.
  rewrite Hcurrent. simpl. by rewrite Hbase, Halive.
Qed.

Lemma Move_is_valid_with_uses move uses b is_player p :
  Action_base_is_valid b is_player = true →
  Trainer_get_current_pokemon (Battle_get_trainer is_player b) = Ok p →
  Pokemon_has_fainted (battle_store b p) = false →
  NoDup (Py.keys (pokemon_moves (battle_store b p))) →
  (move, uses) ∈ Pokemon_get_move_info (battle_store b p) →
  uses ≠ 0 →
  Move_is_valid move b is_player = Ok true.
Proof.
  intros Hbase Hcurrent Halive Hnodup Hin Huses. unfold Move_is_valid.
  rewrite Hbase, Hcurrent. simpl. rewrite Halive.
  rewrite (move_info_uses _ _ _ Hnodup Hin).
  by destruct (Z.eqb_spec uses 0).
Qed.

(** Whenever the trainer may act (the battle is not over and it is the
    trainer's turn to queue) and has a pokemon out, [ScaredyCat] proposes an
    action, and this action is valid: a switch to a pokemon that has not
    fainted when the current one has, and a flight otherwise. *)
Theorem ScaredyCat_proposes_a_valid_action (b : Battle) (is_player : bool)
    (p : PokemonRef) :
  Action_base_is_valid b is_player = true →
  Trainer_get_current_pokemon (Battle_get_trainer is_player b) = Ok p →
  ∃ a,
    ScaredyCat_get_next_action b is_player = Ok (Some a)
    ∧ Action_is_valid a b is_player = Ok true
    ∧ (Pokemon_has_fainted (battle_store b p) = false → a = Flee)
    ∧ (Pokemon_has_fainted (battle_store b p) = true →
       ∃ index, a = SwitchPokemon index).
Proof.
  intros Hbase Hcurrent. unfold ScaredyCat_get_next_action.
  rewrite Hcurrent. simpl.
  destruct (Pokemon_has_fainted (battle_store b p)) eqn:Hfainted.
  - destruct (switch_to_next_pokemon_valid _ _ _ Hbase Hcurrent Hfainted)
      as (a & Hswitch & Hvalid).
    rewrite Hswitch. exists a. repeat split; [done..|]. intros _.
    unfold Strategy_switch_to_next_pokemon in Hswitch.
    destruct (list_find _ _) as [[index r]|]; [|done].
    injection Hswitch as <-. by eexists.
  - exists Flee. repeat split; [|done..].
    by apply (Flee_is_valid_standing _ _ p).
Qed.

(** Brock in the duel, with Geodude out. *)
Lemma ScaredyCat_proposes_a_valid_action_witness :
  ∃ a,
    ScaredyCat_get_next_action Sample.duel false = Ok (Some a)
    ∧ Action_is_valid a Sample.duel false = Ok true
    ∧ (Pokemon_has_fainted (battle_store Sample.duel 1%nat) = false →
       a = Flee)
    ∧ (Pokemon_has_fainted (battle_store Sample.duel 1%nat) = true →
       ∃ index, a = SwitchPokemon index).
Proof.
  apply (ScaredyCat_proposes_a_valid_action Sample.duel false 1%nat);
    reflexivity.
Defined.

(** Whenever the trainer may act and has a pokemon out whose moves are each
    listed once, [DefaultAIStrategy] proposes an action that is valid: a
    switch when the current pokemon has fainted, the move with uses left
    that comes first by name, or a flight when no move has uses left. *)
Theorem DefaultAIStrategy_proposes_a_valid_action (b : Battle)
    (is_player : bool) (p : PokemonRef) :
  Action_base_is_valid b is_player = true →
  Trainer_get_current_pokemon (Battle_get_trainer is_player b) = Ok p →
  NoDup (Py.keys (pokemon_moves (battle_store b p))) →
  ∃ a,
    DefaultAIStrategy_get_next_action b is_player = Ok (Some a)
    ∧ Action_is_valid a b is_player = Ok true
    ∧ (a = Flee →
       Forall (λ move_info, move_info.2 <= 0)
         (pokemon_moves (battle_store b p))).
Proof.
  intros Hbase Hcurrent Hnodup. unfold DefaultAIStrategy_get_next_action.
  rewrite Hcurrent. simpl.
  destruct (Pokemon_has_fainted (battle_store b p)) eqn:Hfainted.
  { destruct (switch_to_next_pokemon_valid _ _ _ Hbase Hcurrent Hfainted)
      as (a & Hswitch & Hvalid).
    rewrite Hswitch. exists a. repeat split; [done..|]. intros ->.
    unfold Strategy_switch_to_next_pokemon in Hswitch.
    by destruct (list_find _ _) as [[index r]|]. }
  destruct (list_find _ _) as [[index [move uses]]|] eqn:Hfind.
  - apply list_find_Some in Hfind as (Hin%list_elem_of_lookup_2 & Huses & _).
    simpl in Huses. exists (MoveAction move). repeat split; [|done].
    simpl. apply (Move_is_valid_with_uses move uses _ _ p); auto. lia.
  - exists Flee. split; [done|].
    split; [by apply (Flee_is_valid_standing _ _ p)|]. intros _.
    apply list_find_None in Hfind. unfold Pokemon_get_move_info in Hfind.
    rewrite sorted_by_name_Permutation in Hfind.
    eapply Forall_impl; [exact Hfind|]. simpl. intros. lia.
Qed.

(** Brock in the duel, with Geodude out. *)
Lemma DefaultAIStrategy_proposes_a_valid_action_witness :
  ∃ a,
    DefaultAIStrategy_get_next_action Sample.duel false = Ok (Some a)
    ∧ Action_is_valid a Sample.duel false = Ok true
    ∧ (a = Flee →
       Forall (λ move_info, move_info.2 <= 0)
         (pokemon_moves (battle_store Sample.duel 1%nat))).
Proof.
  apply (DefaultAIStrategy_proposes_a_valid_action Sample.duel false 1%nat).
  - reflexivity.
  - reflexivity.
  - apply (NoDup_cons_2 Sample.tackle [Sample.toxic]).
    + by intros [= ]%list_elem_of_singleton.
    + apply NoDup_singleton.
Defined.

Section team_rocket.
Variable effectiveness : string -> string -> Py.num.
Variable lower : string -> string.

(** Whenever the trainer may act, both trainers have a pokemon out and the
    moves of the trainer's pokemon are each listed once, [TeamRocket]
    proposes an action that is valid.  It is a pokeball only in a trainer
    battle against a pokemon called pikachu, and in a wild battle with a
    standing pokemon it is a flight. *)
Theorem TeamRocket_proposes_a_valid_action (b : Battle) (is_player : bool)
    (p q : PokemonRef) :
  Action_base_is_valid b is_player = true →
  Trainer_get_current_pokemon (Battle_get_trainer is_player b) = Ok p →
  Trainer_get_current_pokemon (Battle_get_trainer (negb is_player) b) = Ok q →
  NoDup (Py.keys (pokemon_moves (battle_store b p))) →
  ∃ a,
    TeamRocket_get_next_action effectiveness lower b is_player = Ok (Some a)
    ∧ Action_is_valid a b is_player = Ok true
    ∧ (∀ item, a = ItemAction item →
         is_Pokeball item = true
         ∧ battle_trainer_battle b = true
         ∧ lower (Pokemon_get_name (battle_store b q)) = "pikachu")
    ∧ (battle_trainer_battle b = false →
       Pokemon_has_fainted (battle_store b p) = false → a = Flee).
Proof.
  intros Hbase Hcurrent Henemy Hnodup. unfold TeamRocket_get_next_action.
  rewrite Hcurrent. cbn [mbind Res_bind].
  destruct (Pokemon_has_fainted (battle_store b p)) eqn:Hfainted.
  { destruct (switch_to_next_pokemon_valid _ _ _ Hbase Hcurrent Hfainted)
      as (a & Hswitch & Hvalid).
    rewrite Hswitch. exists a. split; [done|]. split; [done|].
    split; [|done]. intros item ->.
    unfold Strategy_switch_to_next_pokemon in Hswitch.
    by destruct (list_find _ _) as [[index r]|]. }
  assert (Hflee : Flee_is_valid b is_player = Ok true)
    by (by apply (Flee_is_valid_standing _ _ p)).
  assert (Hmove : ∀ move uses,
            (move, uses) ∈ Pokemon_get_move_info (battle_store b p) →
            uses ≠ 0 → Move_is_valid move b is_player = Ok true).
  { intros move uses Hin Huses.
    by apply (Move_is_valid_with_uses move uses _ _ p). }
  unfold Battle_is_trainer_battle.
  destruct (battle_trainer_battle b) eqn:Hduel; cbn [negb].
  2: { exists Flee. split; [done|]. split; [exact Hflee|]. by split. }
  rewrite Henemy. cbn [mbind Res_bind].
  assert (Hmoves :
    ∃ a,
      match list_find
              (λ info : Move * Z,
                 info.2 ≠ 0
                 ∧ Py.gt_1
                     (effectiveness (move_element_type info.1)
                        (pokemon_element_type (battle_store b q))) = true)
              (Pokemon_get_move_info (battle_store b p)) with
      | Some (_, (move, _)) => Ok (Some (MoveAction move))
      | None =>
          match list_find (λ info : Move * Z, info.2 ≠ 0)
                  (Pokemon_get_move_info (battle_store b p)) with
          | Some (_, (move, _)) => Ok (Some (MoveAction move))
          | None => Ok (Some Flee)
          end
      end = Ok (Some a)
      ∧ Action_is_valid a b is_player = Ok true
      ∧ ∀ item, a ≠ ItemAction item).
  { destruct (list_find _ _) as [[index [move uses]]|] eqn:Hsuper.
    { apply list_find_Some
        in Hsuper as (Hin%list_elem_of_lookup_2 & [Huses _] & _).
      exists (MoveAction move). split; [done|]. split; [|done].
      by apply (Hmove move uses). }
    destruct (list_find (λ info : Move * Z, info.2 ≠ 0) _)
      as [[index [move uses]]|] eqn:Hregular.
    { apply list_find_Some
        in Hregular as (Hin%list_elem_of_lookup_2 & Huses & _).
      exists (MoveAction move). split; [done|]. split; [|done].
      by apply (Hmove move uses). }
    exists Flee. split; [done|]. split; [exact Hflee|done]. }
  destruct Hmoves as (a & Hchosen & Hvalid & Hnoitem).
  destruct (bool_decide_reflect
              (lower (Pokemon_get_name (battle_store b q)) = "pikachu"))
    as [Hname|Hname].
  - destruct (list_find (λ item, is_Pokeball item = true) _)
      as [[index item]|] eqn:Hball.
    + apply list_find_Some in Hball as (Hin%list_elem_of_lookup_2 & Hkind & _).
      exists (ItemAction item). split; [done|]. split.
      * simpl. unfold Item_is_valid. rewrite Hbase, Hcurrent. simpl.
        rewrite Hfainted. simpl. f_equal.
        unfold Trainer_has_item. by apply contains_keys.
      * split; [|done]. by intros ? [= <-].
    + exists a. split; [done|]. split; [done|]. split; [|done].
      intros item ->. by destruct (Hnoitem item).
  - exists a. split; [done|]. split; [done|]. split; [|done].
    intros item ->. by destruct (Hnoitem item).
Qed.

End team_rocket.

(** Brock in the duel, with Geodude out against Pikachu, when no type is
    registered as effective and names are taken as they are. *)
Lemma TeamRocket_proposes_a_valid_action_witness :
  ∃ a,
    TeamRocket_get_next_action Sample.no_effectiveness id Sample.duel false
    = Ok (Some a)
    ∧ Action_is_valid a Sample.duel false = Ok true
    ∧ (∀ item, a = ItemAction item →
         is_Pokeball item = true
         ∧ battle_trainer_battle Sample.duel = true
         ∧ id (Pokemon_get_name (battle_store Sample.duel 0%nat)) = "pikachu")
    ∧ (battle_trainer_battle Sample.duel = false →
       Pokemon_has_fainted (battle_store Sample.duel 1%nat) = false →
       a = Flee).
Proof.
  apply (TeamRocket_proposes_a_valid_action Sample.no_effectiveness id
           Sample.duel false 1%nat 0%nat).
  - reflexivity.
  - reflexivity.
  - reflexivity.
  - apply (NoDup_cons_2 Sample.tackle [Sample.toxic]).
    + by intros [= ]%list_elem_of_singleton.
    + apply NoDup_singleton.
Defined.

(** ** The type registry *)

Lemma ElementType_of_get name reg :
  Py.get (ElementType_of name reg) name = Some (default [] (Py.get reg name)).
Proof.
  unfold ElementType_of, Py.contains.
  destruct (Py.get reg name) eqn:Hget; [by rewrite Hget|by rewrite get_set].
Qed.

Lemma ElementType_of_get_ne name name' reg :
  name ≠ name' → Py.get (ElementType_of name reg) name' = Py.get reg name'.
Proof.
  intros Hne. unfold ElementType_of.
  destruct (Py.contains reg name); [done|by rewrite get_set_ne].
Qed.

(** The multiplier is read from the entries registered under the attacking
    type, whether or not [of] has to create the instance. *)
Lemma get_effectiveness_entries name type reg :
  ElementType_get_effectiveness name type reg
  = default (Py.Float Py.one) (Py.get (default [] (Py.get reg name)) type).
Proof.
  unfold ElementType_get_effectiveness. by rewrite ElementType_of_get.
Qed.

(** What is registered is what is looked up: after
    [add_type_effectiveness] the attacking type has the given multiplier
    against the defending type, and every other pair of types has the
    multiplier it had.  A pair that was never registered has multiplier 1.0,
    and merely asking for a type with [of] changes no multiplier. *)
Theorem registry_round_trip (name type : string) (effect : Py.num)
    (reg : Registry) :
  ElementType_get_effectiveness name type
    (ElementType_add_type_effectiveness name type effect reg) = effect
  ∧ (∀ name' type',
       (name', type') ≠ (name, type) →
       ElementType_get_effectiveness name' type'
         (ElementType_add_type_effectiveness name type effect reg)
       = ElementType_get_effectiveness name' type' reg)
  ∧ (∀ name' type',
       ElementType_get_effectiveness name' type' (ElementType_of name reg)
       = ElementType_get_effectiveness name' type' reg)
  ∧ (∀ name' type',
       ElementType_get_effectiveness name' type' [] = Py.Float Py.one).
Proof.
  split; [|split; [|split]].
  - rewrite get_effectiveness_entries.
    unfold ElementType_add_type_effectiveness. cbv zeta.
    rewrite get_set. simpl. by rewrite get_set.
  - intros name' type' Hne. rewrite !get_effectiveness_entries.
    unfold ElementType_add_type_effectiveness. cbv zeta.
    destruct (decide (name = name')) as [<-|Hname].
    + assert (type ≠ type') by congruence.
      rewrite get_set, ElementType_of_get. simpl. by rewrite get_set_ne.
    + by rewrite get_set_ne, ElementType_of_get_ne.
  - intros name' type'. rewrite !get_effectiveness_entries.
    destruct (decide (name = name')) as [<-|Hname].
    + by rewrite ElementType_of_get.
    + by rewrite ElementType_of_get_ne.
  - intros name' type'. by rewrite get_effectiveness_entries.
Qed.

(** ** Damage *)

Lemma binary_round_aux_shape s m e l :
  binary_round_aux Py.prec Py.emax s m e l = S754_nan
  ∨ signed s (binary_round_aux Py.prec Py.emax s m e l).
Proof.
  unfold binary_round_aux.
  destruct (shr_fexp Py.prec Py.emax m e l) as [mrs' e'].
  destruct (shr_fexp Py.prec Py.emax _ e' loc_Exact) as [mrs'' e''].
  destruct (shr_m mrs''); [by right| |by left].
  destruct (_ <=? _); by right.
Qed.

(** A product or a quotient of floats that are not negative is not
    negative, unless it is a NaN. *)
Lemma fmul_not_negative x y :
  x = S754_nan ∨ signed false x → signed false y →
  Py.fmul x y = S754_nan ∨ signed false (Py.fmul x y).
Proof.
  intros [->|Hx] Hy; [by left|].
  destruct x as [sx|sx| |sx mx ex], y as [sy|sy| |sy my ey];
    simpl in *; subst; try done; try (by left); try (by right).
  apply binary_round_aux_shape.
Qed.

Lemma SFdiv_not_negative x y :
  x = S754_nan ∨ signed false x → signed false y →
  SFdiv Py.prec Py.emax x y = S754_nan
  ∨ signed false (SFdiv Py.prec Py.emax x y).
Proof.
  intros [->|Hx] Hy; [by left|].
  destruct x as [sx|sx| |sx mx ex], y as [sy|sy| |sy my ey];
    simpl in *; subst; try done; try (by left); try (by right).
  destruct (SFdiv_core_binary _ _ _ _ _ _) as [[mz ez] lz].
  apply binary_round_aux_shape.
Qed.

Lemma int_of_float_not_negative x :
  x = S754_nan ∨ signed false x →
  (∀ e, Py.int_of_float x = Raise e → e = OverflowError ∨ e = ValueError)
  ∧ (∀ n, Py.int_of_float x = Ok n → 0 <= n).
Proof.
  intros [->|Hx].
  - split; [intros e [= <-]; by right|done].
  - destruct (int_of_float_signed false x Hx) as [Hraise Hok].
    split; [|done]. intros e He. left. by apply Hraise.
Qed.

Lemma fold_modifiers_attack_defense_nonneg (l : list (Stats * Z)) : ∀ s,
  0 <= stat_attack s → 0 <= stat_defense s →
  0 <= stat_attack
         (fold_left
            (fun result entry => PokemonStats_apply_modifier result entry.1)
            l s)
  ∧ 0 <= stat_defense
           (fold_left
              (fun result entry => PokemonStats_apply_modifier result entry.1)
              l s).
Proof.
  induction l as [|entry l IH]; intros s Hattack Hdefense; cbn [fold_left];
    [done|].
  apply IH; simpl; lia.
Qed.

Section damage.
Variable effectiveness : string -> string -> Py.num.

Lemma calculate_damage_outcome (self : Move) (base_damage : Z)
    (pokemon enemy_pokemon : Pokemon) :
  0 <= base_damage →
  not_negative (effectiveness (move_element_type self)
                  (pokemon_element_type enemy_pokemon)) →
  0 <= stat_attack (pokemon_stats pokemon) →
  0 <= stat_defense (pokemon_stats enemy_pokemon) →
  (∀ e,
     Attack_calculate_damage effectiveness self base_damage pokemon
       enemy_pokemon = Raise e →
     e = OverflowError ∨ e = ValueError)
  ∧ (∀ damage,
       Attack_calculate_damage effectiveness self base_damage pokemon
         enemy_pokemon = Ok damage →
       0 <= damage
       ∧ (0 <= pokemon_health enemy_pokemon →
          pokemon_health (Pokemon_modify_health (- damage) enemy_pokemon)
          <= pokemon_health enemy_pokemon)).
Proof.
  intros Hbase Heffect Hattack Hdefense.
  assert (0 <= stat_attack (Pokemon_get_stats pokemon)) as Ha.
  { unfold Pokemon_get_stats.
    destruct (pokemon_stat_modifiers pokemon) as [|entry l]; [done|].
    cbn [fold_left]. apply fold_modifiers_attack_defense_nonneg; simpl; lia. }
  assert (0 <= stat_defense (Pokemon_get_stats enemy_pokemon)) as Hd.
  { unfold Pokemon_get_stats.
    destruct (pokemon_stat_modifiers enemy_pokemon) as [|entry l]; [done|].
    cbn [fold_left]. apply fold_modifiers_attack_defense_nonneg; simpl; lia. }
  assert (Hhealth : ∀ damage, 0 <= damage →
            0 <= pokemon_health enemy_pokemon →
            pokemon_health (Pokemon_modify_health (- damage) enemy_pokemon)
            <= pokemon_health enemy_pokemon).
  { intros damage Hdamage Hh. unfold Pokemon_modify_health. simpl. lia. }
  unfold Attack_calculate_damage. cbv zeta.
  set (attack := stat_attack (Pokemon_get_stats pokemon)) in *.
  set (defense := stat_defense (Pokemon_get_stats enemy_pokemon)) in *.
  destruct (effectiveness _ _) as [effect|effect]; simpl in Heffect.
  - (* an [int] multiplier: the product is an [int], divided as [int]s *)
    cbn [Py.mul Py.truediv mbind Res_bind]. unfold Py.int_truediv.
    destruct (Z.eqb_spec (defense + 1) 0); [lia|].
    destruct (defense + 1) as [|d|d] eqn:Hdivisor; [lia| |lia].
    pose proof (SFdiv_exact_signed (base_damage * effect * attack) d)
      as Hquotient.
    assert ((base_damage * effect * attack <? 0) = false) as Hsign
      by (apply Z.ltb_ge; nia).
    rewrite Hsign in Hquotient.
    destruct (SFdiv _ _ _ _) as [s|s| |s m e]; simpl in *; subst;
      cbn [mbind Res_bind Py.int Py.int_of_float].
    + split; [done|]. intros damage [= <-]. split; [done|apply Hhealth; done].
    + split; [intros e [= <-]; by left|done].
    + done.
    + split; [done|]. intros damage [= <-].
      pose proof (Z.shiftl_nonneg (Zpos m) e).
      split; [simpl; lia|apply Hhealth; simpl; lia].
  - (* a [float] multiplier: every operand becomes a [float] *)
    cbn [Py.mul Py.truediv mbind Res_bind].
    destruct (Py.float_of_int base_damage) as [x|e1] eqn:Hx;
      cbn [Py.mul Py.truediv mbind Res_bind].
    2: { apply float_of_int_raises in Hx as [-> _].
         split; [intros e [= <-]; by left|done]. }
    apply float_of_int_inv in Hx as [_ Hx].
    replace (base_damage <? 0) with false in Hx by (symmetry; lia).
    pose proof (fmul_not_negative x effect (or_intror Hx) Heffect) as Hp1.
    destruct (Py.float_of_int attack) as [y|e1] eqn:Hy;
      cbn [Py.mul Py.truediv mbind Res_bind].
    2: { apply float_of_int_raises in Hy as [-> _].
         split; [intros e [= <-]; by left|done]. }
    apply float_of_int_inv in Hy as [_ Hy].
    replace (attack <? 0) with false in Hy by (symmetry; lia).
    pose proof (fmul_not_negative _ y Hp1 Hy) as Hp2.
    destruct (Py.float_of_int (defense + 1)) as [z|e1] eqn:Hz;
      cbn [Py.mul Py.truediv mbind Res_bind].
    2: { apply float_of_int_raises in Hz as [-> _].
         split; [intros e [= <-]; by left|done]. }
    apply float_of_int_inv in Hz as [_ Hz].
    replace (defense + 1 <? 0) with false in Hz by (symmetry; lia).
    destruct (Z.eqb_spec (defense + 1) 0); [lia|].
    cbn [Py.int mbind Res_bind].
    pose proof (SFdiv_not_negative _ z Hp2 Hz) as Hquotient.
    destruct (int_of_float_not_negative _ Hquotient) as [Hraise Hok].
    split; [done|]. intros damage Hdamage.
    pose proof (Hok _ Hdamage). split; [done|by apply Hhealth].
Qed.

(** With an attack stat and a defense stat that do not start below zero, a
    base damage and a multiplier that are not negative, [calculate_damage]
    divides by a number that is not zero: it raises no [ZeroDivisionError]
    (an [OverflowError] or the [ValueError] of a NaN are what is left), and
    the damage it returns is not negative.  So an attack never adds to the
    health of the pokemon it hits.  The damage is what double precision
    gives: with base damage 100, multiplier 0.29, attack 1 and defense 0 it
    is 28, the product [100 * 0.29] being just below 29. *)
Theorem calculate_damage_is_not_negative (self : Move) (base_damage : Z)
    (pokemon enemy_pokemon : Pokemon) :
  0 <= base_damage →
  not_negative (effectiveness (move_element_type self)
                  (pokemon_element_type enemy_pokemon)) →
  0 <= stat_attack (pokemon_stats pokemon) →
  0 <= stat_defense (pokemon_stats enemy_pokemon) →
  (∀ e,
     Attack_calculate_damage effectiveness self base_damage pokemon
       enemy_pokemon = Raise e →
     e = OverflowError ∨ e = ValueError)
  ∧ (∀ damage,
       Attack_calculate_damage effectiveness self base_damage pokemon
         enemy_pokemon = Ok damage →
       0 <= damage
       ∧ (0 <= pokemon_health enemy_pokemon →
          pokemon_health (Pokemon_modify_health (- damage) enemy_pokemon)
          <= pokemon_health enemy_pokemon))
  ∧ Attack_calculate_damage (fun _ _ => Py.Float (Py.float_literal 29 100))
      self 100
      (Pokemon_init "Pikachu" (mkStats 1 100 1 0) "electric" [] 1)
      (Pokemon_init "Geodude" (mkStats 1 100 1 0) "rock" [] 1)
    = Ok 28.
Proof.
  intros Hbase Heffect Hattack Hdefense.
  destruct (calculate_damage_outcome self base_damage pokemon enemy_pokemon)
    as [Hraise Hok]; [done..|].
  split; [done|]. split; [done|]. by vm_compute.
Qed.

End damage.

(** Pikachu's tackle against Geodude. *)
Lemma calculate_damage_is_not_negative_witness :
  (∀ e,
     Attack_calculate_damage Sample.no_effectiveness Sample.tackle 40
       Sample.pikachu Sample.geodude = Raise e →
     e = OverflowError ∨ e = ValueError)
  ∧ (∀ damage,
       Attack_calculate_damage Sample.no_effectiveness Sample.tackle 40
         Sample.pikachu Sample.geodude = Ok damage →
       0 <= damage
       ∧ (0 <= pokemon_health Sample.geodude →
          pokemon_health (Pokemon_modify_health (- damage) Sample.geodude)
          <= pokemon_health Sample.geodude))
  ∧ Attack_calculate_damage (fun _ _ => Py.Float (Py.float_literal 29 100))
      Sample.tackle 100
      (Pokemon_init "Pikachu" (mkStats 1 100 1 0) "electric" [] 1)
      (Pokemon_init "Geodude" (mkStats 1 100 1 0) "rock" [] 1)
    = Ok 28.
Proof.
  apply (calculate_damage_is_not_negative Sample.no_effectiveness
           Sample.tackle 40 Sample.pikachu Sample.geodude).
  - lia.
  - reflexivity.
  - by vm_compute.
  - by vm_compute.
Defined.

(** ** An encounter *)

Lemma current_pokemon_in_roster t p :
  Trainer_get_current_pokemon t = Ok p → p ∈ trainer_pokemon t.
Proof.
  unfold Trainer_get_current_pokemon, Py.getitem.
  destruct (trainer_selected_pokemon t) as [index|]; [|done]. cbv zeta.
  destruct (_ || _); [done|].
  destruct (trainer_pokemon t !! _) as [r|] eqn:Hr; [|done].
  intros [= <-]. by apply list_elem_of_lookup_2 in Hr.
Qed.

Lemma standing_pokemon_not_all_fainted st t p :
  p ∈ trainer_pokemon t → Pokemon_has_fainted (st p) = false →
  Trainer_all_pokemon_fainted st t = false.
Proof.
  intros Hin Halive. unfold Trainer_all_pokemon_fainted.
  destruct (forallb _ _) eqn:Hall; [|done].
  rewrite forallb_forall in Hall.
  apply list_elem_of_In in Hin. apply Hall in Hin. congruence.
Qed.

Section encounter.
Variable effectiveness : string -> string -> Py.num.
Variable float_cube_root : Z -> Z.

(** A trainer with a standing pokemon who meets a standing wild pokemon and
    follows [ScaredyCat] gets away: the strategy proposes a flight, the new
    encounter accepts it into the queue, and [enact_turn] performs it with
    the summary that the trainer got away safely; the battle is then over,
    and the trainer and the pokemon are as they were. *)
Theorem ScaredyCat_escapes_an_encounter (st : Store) (trainer : Trainer)
    (wild_pokemon p : PokemonRef) (roll : Q) :
  Trainer_get_current_pokemon trainer = Ok p →
  Pokemon_has_fainted (st p) = false →
  Pokemon_has_fainted (st wild_pokemon) = false →
  ScaredyCat_get_next_action (create_encounter st trainer wild_pokemon) true
  = Ok (Some Flee)
  ∧ ∃ b1 b2,
      Battle_queue_action Flee true (create_encounter st trainer wild_pokemon)
      = Ok b1
      ∧ battle_action_queue b1 = [(Flee, true)]
      ∧ Battle_enact_turn effectiveness float_cube_root roll b1
        = Ok (b2, Some [FLEE_SUCCESS])
      ∧ Battle_is_over b2 = true
      ∧ battle_store b2 = st
      ∧ battle_player b2 = trainer
      ∧ Trainer_get_all_pokemon (battle_enemy b2) = [wild_pokemon].
Proof.
  intros Hcurrent Halive Hwild.
  set (b := create_encounter st trainer wild_pokemon).
  assert (Hover : Battle_is_over b = false).
  { unfold Battle_is_over. cbn.
    rewrite (standing_pokemon_not_all_fainted st trainer p);
      [by rewrite Hwild|by apply current_pokemon_in_roster|done]. }
  assert (Hbase : Action_base_is_valid b true = true).
  { unfold Action_base_is_valid. by rewrite Hover. }
  assert (Hflee : Flee_is_valid b true = Ok true)
    by (by apply (Flee_is_valid_standing b true p)).
  split.
  { unfold ScaredyCat_get_next_action. cbn [b create_encounter Battle_init
      Battle_get_trainer battle_player battle_store].
    rewrite Hcurrent. cbn [mbind Res_bind]. by rewrite Halive. }
  exists (with_action_queue [(Flee, true)] b).
  exists (with_turn (Some false)
            (with_finished_early true (with_action_queue [] b))).
  split.
  { unfold Battle_queue_action. cbn [b create_encounter Battle_init
      Battle_trainer_has_action_queued Battle_is_ready Battle_is_action_queue_full
      battle_action_queue battle_turn existsb length Nat.eqb orb].
    change (Action_is_valid Flee b true) with (Flee_is_valid b true).
    by rewrite Hflee. }
  split; [done|]. split; [|by repeat split].
  rewrite (enact_turn_resolve _ _ _ _ (Flee, true) []) by done.
  unfold resolve.
  rewrite !Action_is_valid_with_action_queue.
  change (Action_is_valid Flee b true) with (Flee_is_valid b true).
  rewrite Hflee. reflexivity.
Qed.

End encounter.

(** Ash meets the wild Onix. *)
Lemma ScaredyCat_escapes_an_encounter_witness :
  ScaredyCat_get_next_action (create_encounter Sample.store Sample.ash 2%nat)
    true
  = Ok (Some Flee)
  ∧ ∃ b1 b2,
      Battle_queue_action Flee true
        (create_encounter Sample.store Sample.ash 2%nat)
      = Ok b1
      ∧ battle_action_queue b1 = [(Flee, true)]
      ∧ Battle_enact_turn Sample.no_effectiveness floor_cube_root 0 b1
        = Ok (b2, Some [FLEE_SUCCESS])
      ∧ Battle_is_over b2 = true
      ∧ battle_store b2 = Sample.store
      ∧ battle_player b2 = Sample.ash
      ∧ Trainer_get_all_pokemon (battle_enemy b2) = [2%nat].
Proof.
  apply (ScaredyCat_escapes_an_encounter Sample.no_effectiveness
           floor_cube_root Sample.store Sample.ash 2%nat 0%nat 0);
    reflexivity.
Defined.
